(** * Log4YM ADIF importer: [tools/import_qso.py]

    A shallow embedding of [parse_adif] and of the batch loader in [main],
    together with the library functions they call ([re], [str], [int],
    [float], [datetime.strptime]), and the properties of the importer proved
    over that embedding.

    Text is modelled as the list of its code points.  The embedding covers
    the texts whose code points are below 256 (ASCII and Latin-1), so a
    character is an [ascii]; the character classes below are the ones Python
    uses on that range. *)

From Stdlib Require Import Strings.Ascii Strings.String.
From Stdlib Require Import List Bool Arith ZArith NArith Lia.
From Stdlib Require Import Floats.SpecFloat Numbers.DecimalString.
Import ListNotations.


(* ================================================================== *)
(** * Text and character classes *)

Definition text := list ascii.

(** String literals are read as texts. *)
Coercion list_ascii_of_string : string >-> list.

Definition code (c : ascii) : N := N_of_ascii c.

Definition in_range (lo hi : N) (c : ascii) : bool :=
  ((lo <=? code c) && (code c <=? hi))%N.

(** [\d] on a [str] pattern: the decimal digits. *)
Definition is_digit (c : ascii) : bool := in_range 48 57 c.

(** [\w] on a [str] pattern: alphanumerics (letters, and the characters
    that are decimal, digit or numeric) and the underscore. *)
Definition is_word (c : ascii) : bool :=
  in_range 48 57 c || in_range 65 90 c || (code c =? 95)%N || in_range 97 122 c
  || (code c =? 170)%N || in_range 178 179 c || (code c =? 181)%N
  || in_range 185 186 c || in_range 188 190 c
  || in_range 192 214 c || in_range 216 246 c || in_range 248 255 c.

(** Whitespace as [str.strip()] sees it. *)
Definition is_space (c : ascii) : bool :=
  in_range 9 13 c || in_range 28 32 c || (code c =? 133)%N || (code c =? 160)%N.

(** Whitespace as the C-level number parsers see it ([Py_ISSPACE]). *)
Definition is_c_space (c : ascii) : bool :=
  in_range 9 13 c || (code c =? 32)%N.

(** [str.lower()] on one character. *)
Definition lower_char (c : ascii) : ascii :=
  if in_range 65 90 c || in_range 192 214 c || in_range 216 222 c
  then ascii_of_N (code c + 32) else c.

Definition lower (s : text) : text := map lower_char s.

Definition text_eqb (a b : text) : bool :=
  if list_eq_dec ascii_dec a b then true else false.

Fixpoint drop_while (p : ascii -> bool) (s : text) : text :=
  match s with
  | c :: r => if p c then drop_while p r else s
  | [] => []
  end.

Fixpoint take_while (p : ascii -> bool) (s : text) : text :=
  match s with
  | c :: r => if p c then c :: take_while p r else []
  | [] => []
  end.

(** [rstrip]: a character is dropped when it is a space and everything
    after it has been dropped. *)
Fixpoint drop_while_end (p : ascii -> bool) (s : text) : text :=
  match s with
  | c :: r =>
      match drop_while_end p r with
      | [] => if p c then [] else [c]
      | r' => c :: r'
      end
  | [] => []
  end.

(** [str.strip()] *)
Definition strip (s : text) : text :=
  drop_while_end is_space (drop_while is_space s).

(** [s[:n]] for [n >= 0] *)
Definition slice_to (s : text) (n : nat) : text := firstn n s.

(** [s.ljust(width, fill)] *)
Definition ljust (s : text) (width : nat) (fill : ascii) : text :=
  s ++ repeat fill (width - length s).

(** [c in s] *)
Definition contains (c : ascii) (s : text) : bool :=
  existsb (Ascii.eqb c) s.

(* ================================================================== *)
(** * Exceptions *)

Inductive exn : Type := ValueError | TypeError | AttributeError | StoreError.

Inductive result (A : Type) : Type :=
| Ok (a : A)
| Raise (e : exn).

Arguments Ok {A} a.
Arguments Raise {A} e.

Definition rbind {A B : Type} (r : result A) (k : A -> result B) : result B :=
  match r with
  | Ok a => k a
  | Raise e => Raise e
  end.

Declare Scope result_scope.
Delimit Scope result_scope with result.
Notation "x <- r ;; k" := (rbind r (fun x => k))
  (at level 61, r at next level, right associativity) : result_scope.
Open Scope result_scope.

(** [try: body except ValueError: handler]: any other exception goes on. *)
Definition except_ValueError {A : Type} (body handler : result A) : result A :=
  match body with
  | Raise ValueError => handler
  | r => r
  end.

(* ================================================================== *)
(** * Regular expressions

    A pattern is a backtracking matcher: applied to the text that starts at
    the current position, it lists every way to match there as the captured
    value and the text that remains, in the order in which the [re] engine
    tries them.  The match that [re] reports is the first of the list. *)

Definition matcher (A : Type) := text -> list (A * text).

Definition m_ret {A : Type} (a : A) : matcher A := fun s => [(a, s)].

Definition m_bind {A B : Type} (m : matcher A) (k : A -> matcher B) : matcher B :=
  fun s => flat_map (fun ar => k (fst ar) (snd ar)) (m s).

Declare Scope matcher_scope.
Delimit Scope matcher_scope with matcher.
Notation "x <~ m ;; k" := (m_bind m (fun x => k))
  (at level 61, m at next level, right associativity) : matcher_scope.
Notation "m1 <|> m2" := (fun s : text => m1 s ++ m2 s)
  (at level 50, left associativity) : matcher_scope.
Open Scope matcher_scope.

(** One character of a class. *)
Definition m_class (p : ascii -> bool) : matcher ascii :=
  fun s => match s with
           | c :: r => if p c then [(c, r)] else []
           | [] => []
           end.

(** A literal character; under [re.IGNORECASE] it is compared after
    lower-casing both sides. *)
Definition m_char (x : ascii) : matcher ascii := m_class (Ascii.eqb x).
Definition m_char_i (x : ascii) : matcher ascii :=
  m_class (fun c => Ascii.eqb (lower_char c) (lower_char x)).

Fixpoint m_lit_i (xs : text) : matcher unit :=
  match xs with
  | [] => m_ret tt
  | x :: xs' => _ <~ m_char_i x ;; m_lit_i xs'
  end.

(** [p*] greedy: the longest run first, the empty run last. *)
Fixpoint m_star (p : ascii -> bool) (s : text) : list (text * text) :=
  match s with
  | c :: r =>
      if p c
      then map (fun mr => (c :: fst mr, snd mr)) (m_star p r) ++ [([], s)]
      else [([], s)]
  | [] => [([], [])]
  end.

(** [p+] greedy *)
Definition m_plus (p : ascii -> bool) : matcher text :=
  c <~ m_class p ;; cs <~ m_star p ;; m_ret (c :: cs).

(** [p*?] lazy: the empty run first. *)
Fixpoint m_star_lazy (p : ascii -> bool) (s : text) : list (text * text) :=
  ([], s) ::
  match s with
  | c :: r =>
      if p c then map (fun mr => (c :: fst mr, snd mr)) (m_star_lazy p r) else []
  | [] => []
  end.

(** [(?:m)?] greedy *)
Definition m_opt {A : Type} (m : matcher A) : matcher unit :=
  (_ <~ m ;; m_ret tt) <|> m_ret tt.

(** [(?=m)] *)
Definition m_lookahead {A : Type} (m : matcher A) : matcher unit :=
  fun s => match m s with
           | [] => []
           | _ :: _ => [(tt, s)]
           end.

(** [\Z] *)
Definition m_end : matcher unit :=
  fun s => match s with
           | [] => [(tt, [])]
           | _ :: _ => []
           end.

(** [pattern.match(s)]: the first way to match at the start of [s]. *)
Definition re_match {A : Type} (m : matcher A) (s : text) : option (A * text) :=
  hd_error (m s).

(** [re.search(pattern, s)]: the leftmost match; the text after its end. *)
Fixpoint re_search {A : Type} (m : matcher A) (s : text) : option (A * text) :=
  match re_match m s with
  | Some ar => Some ar
  | None =>
      match s with
      | [] => None
      | _ :: r => re_search m r
      end
  end.

Definition cons_head (c : ascii) (l : list text) : list text :=
  match l with
  | seg :: rest => (c :: seg) :: rest
  | [] => [[c]]
  end.

(** [re.split(pattern, s)] for a pattern without groups that matches no
    empty text.  [fuel] bounds the number of steps; [length s] is enough. *)
Fixpoint re_split_fuel {A : Type} (m : matcher A) (fuel : nat) (s : text) : list text :=
  match fuel with
  | 0 => [s]
  | S fuel' =>
      match s with
      | [] => [[]]
      | c :: r =>
          match re_match m s with
          | Some (_, rest) => [] :: re_split_fuel m fuel' rest
          | None => cons_head c (re_split_fuel m fuel' r)
          end
      end
  end.

Definition re_split {A : Type} (m : matcher A) (s : text) : list text :=
  re_split_fuel m (length s) s.

(** [pattern.finditer(s)] for a pattern that matches no empty text. *)
Fixpoint re_finditer_fuel {A : Type} (m : matcher A) (fuel : nat) (s : text) : list A :=
  match fuel with
  | 0 => []
  | S fuel' =>
      match s with
      | [] => []
      | _ :: r =>
          match re_match m s with
          | Some (a, rest) => a :: re_finditer_fuel m fuel' rest
          | None => re_finditer_fuel m fuel' r
          end
      end
  end.

Definition re_finditer {A : Type} (m : matcher A) (s : text) : list A :=
  re_finditer_fuel m (length s) s.

(* ================================================================== *)
(** * Numbers: [int(str)] and [float(str)] *)

Open Scope char_scope.

Definition digit_value (c : ascii) : Z := Z.of_N (code c) - 48.

Definition Z_of_digits (ds : text) : Z :=
  fold_left (fun acc c => 10 * acc + digit_value c)%Z ds 0%Z.

(** Both number parsers first replace the non-ASCII spaces by a blank and
    cut the text at the first other non-ASCII character, which becomes a
    question mark (below 256 no character beyond [0-9] is a decimal). *)
Fixpoint transform_chars (s : text) : text :=
  match s with
  | [] => []
  | c :: r =>
      if (code c <? 127)%N then c :: transform_chars r
      else if is_space c then " " :: transform_chars r
      else ["?"]
  end.

Definition transform_decimal_and_space (s : text) : text :=
  if forallb (fun c => (code c <? 128)%N) s then s else transform_chars s.

(** The interpreter's limit on the digits of an integer literal
    ([sys.int_info.default_max_str_digits]). *)
Definition int_max_str_digits : nat := 4300.

Definition is_digit_or_underscore (c : ascii) : bool :=
  is_digit c || Ascii.eqb c "_".

(** [x] at the head of [s]: what follows it. *)
Definition expect (x : ascii) (s : text) : option text :=
  match s with
  | c :: r => if Ascii.eqb x c then Some r else None
  | [] => None
  end.

Definition starts_with (x : ascii) (s : text) : bool :=
  match expect x s with
  | Some _ => true
  | None => false
  end.

Fixpoint double_underscore (s : text) : bool :=
  match s with
  | c :: r => (Ascii.eqb c "_" && starts_with "_" r) || double_underscore r
  | [] => false
  end.

Definition ends_with_underscore (s : text) : bool :=
  starts_with "_" (rev s).

Definition split_sign (s : text) : bool * text :=
  match expect "+" s, expect "-" s with
  | Some r, _ => (false, r)
  | None, Some r => (true, r)
  | None, None => (false, s)
  end.

Definition is_nil {A : Type} (l : list A) : bool :=
  match l with
  | [] => true
  | _ :: _ => false
  end.

(** [int(s)] for a [str], base ten. *)
Definition py_int (s : text) : result Z :=
  let s1 := drop_while is_c_space (transform_decimal_and_space s) in
  let (neg, s2) := split_sign s1 in
  let run := take_while is_digit_or_underscore s2 in
  let rest := drop_while is_digit_or_underscore s2 in
  let digits := filter is_digit run in
  if starts_with "_" run
     || double_underscore run || ends_with_underscore run
     || (int_max_str_digits <? length digits)%nat
     || is_nil run
     || negb (is_nil (drop_while is_c_space rest))
  then Raise ValueError
  else Ok (if neg then - Z_of_digits digits else Z_of_digits digits)%Z.

(** Double precision. *)
Definition prec : Z := 53.
Definition emax : Z := 1024.

(** The double nearest to [m * 10^e] (ties to even), [m >= 0]. *)
Definition float_of_decimal (neg : bool) (m e : Z) : spec_float :=
  match m with
  | Zpos p =>
      SFdiv prec emax
        (S754_finite neg (Z.to_pos (m * 10 ^ Z.max e 0)) 0)
        (S754_finite false (Z.to_pos (10 ^ Z.max (- e) 0)) 0)
  | _ => S754_zero neg
  end.

(** Underscores in a float literal: each between two digits. *)
Fixpoint remove_underscores (prev : ascii) (s : text) : result text :=
  match s with
  | [] => if Ascii.eqb prev "_" then Raise ValueError else Ok []
  | c :: r =>
      if Ascii.eqb c "_" then
        if is_digit prev then remove_underscores c r else Raise ValueError
      else if Ascii.eqb prev "_" && negb (is_digit c) then Raise ValueError
      else r' <- remove_underscores c r ;; Ok (c :: r')
  end.

(** The exponent part: [e] or [E], a sign, digits.  Without digits the
    exponent is not read and the text stays. *)
Definition parse_exponent (s : text) : Z * text :=
  match s with
  | c :: r =>
      if Ascii.eqb c "e" || Ascii.eqb c "E" then
        let (eneg, r1) := split_sign r in
        let ds := take_while is_digit r1 in
        if is_nil ds then (0%Z, s)
        else ((if eneg then - Z_of_digits ds else Z_of_digits ds)%Z,
              drop_while is_digit r1)
      else (0%Z, s)
  | [] => (0%Z, s)
  end.

Definition parse_inf_or_nan (neg : bool) (s : text) : result spec_float :=
  let l := lower s in
  if text_eqb l "inf"%string || text_eqb l "infinity"%string then Ok (S754_infinity neg)
  else if text_eqb l "nan"%string then Ok S754_nan
  else Raise ValueError.

Definition parse_decimal (neg : bool) (s : text) : result spec_float :=
  let ipart := take_while is_digit s in
  let s1 := drop_while is_digit s in
  let (fpart, s2) :=
    match expect "." s1 with
    | Some r => (take_while is_digit r, drop_while is_digit r)
    | None => ([], s1)
    end in
  if is_nil ipart && is_nil fpart then parse_inf_or_nan neg s
  else
    let (e, s3) := parse_exponent s2 in
    if is_nil s3
    then Ok (float_of_decimal neg (Z_of_digits (ipart ++ fpart))
                              (e - Z.of_nat (length fpart)))
    else Raise ValueError.

(** [float(s)] for a [str]. *)
Definition py_float (s : text) : result spec_float :=
  let s0 := transform_decimal_and_space s in
  s1 <- (if contains "_" s0 then remove_underscores "000" s0 else Ok s0) ;;
  let s2 := drop_while_end is_c_space (drop_while is_c_space s1) in
  let (neg, s3) := split_sign s2 in
  parse_decimal neg s3.

(* ================================================================== *)
(** * [datetime] *)

Record datetime : Type := mk_datetime {
  year : Z; month : Z; day : Z;
  hour : Z; minute : Z; second : Z; microsecond : Z
}.

Definition is_leap (y : Z) : bool :=
  ((y mod 4 =? 0) && (negb (y mod 100 =? 0) || (y mod 400 =? 0)))%Z.

Definition days_in_month (y m : Z) : Z :=
  if (m =? 2)%Z then (if is_leap y then 29 else 28)%Z
  else if (m =? 4)%Z || (m =? 6)%Z || (m =? 9)%Z || (m =? 11)%Z then 30%Z
  else 31%Z.

(** The constructor [datetime(y, m, d, H, M, S)] with its range checks. *)
Definition datetime_new (y m d hh mm ss : Z) : result datetime :=
  if ((1 <=? y) && (y <=? 9999) && (1 <=? m) && (m <=? 12)
      && (1 <=? d) && (d <=? days_in_month y m)
      && (0 <=? hh) && (hh <=? 23) && (0 <=? mm) && (mm <=? 59)
      && (0 <=? ss) && (ss <=? 59))%Z
  then Ok (mk_datetime y m d hh mm ss 0)
  else Raise ValueError.

(** The regular expressions of the [strptime] directives. *)
Definition m_pair (p q : ascii -> bool) : matcher text :=
  a <~ m_class p ;; b <~ m_class q ;; m_ret [a; b].
Definition m_one (p : ascii -> bool) : matcher text :=
  a <~ m_class p ;; m_ret [a].
Definition only (x : ascii) : ascii -> bool := Ascii.eqb x.
Definition btw (lo hi : ascii) (c : ascii) : bool := in_range (code lo) (code hi) c.

(** [%Y]: [\d\d\d\d] *)
Definition re_Y : matcher text :=
  a <~ m_class is_digit ;; b <~ m_class is_digit ;;
  c <~ m_class is_digit ;; d <~ m_class is_digit ;; m_ret [a; b; c; d].
(** [%m]: [1[0-2]|0[1-9]|[1-9]] *)
Definition re_m : matcher text :=
  m_pair (only "1") (btw "0" "2") <|> m_pair (only "0") (btw "1" "9")
  <|> m_one (btw "1" "9").
(** [%d]: [3[0-1]|[1-2]\d|0[1-9]|[1-9]| [1-9]] *)
Definition re_d : matcher text :=
  m_pair (only "3") (btw "0" "1") <|> m_pair (btw "1" "2") is_digit
  <|> m_pair (only "0") (btw "1" "9") <|> m_one (btw "1" "9")
  <|> m_pair (only " ") (btw "1" "9").
(** [%H]: [2[0-3]|[0-1]\d|\d] *)
Definition re_H : matcher text :=
  m_pair (only "2") (btw "0" "3") <|> m_pair (btw "0" "1") is_digit
  <|> m_one is_digit.
(** [%M]: [[0-5]\d|\d] *)
Definition re_M : matcher text :=
  m_pair (btw "0" "5") is_digit <|> m_one is_digit.
(** [%S]: [6[0-1]|[0-5]\d|\d] *)
Definition re_S : matcher text :=
  m_pair (only "6") (btw "0" "1") <|> m_pair (btw "0" "5") is_digit
  <|> m_one is_digit.

(** The two formats of the importer. *)
Inductive format : Type :=
| fmt_Ymd      (* '%Y%m%d' *)
| fmt_YmdHMS.  (* '%Y%m%d%H%M%S' *)

Definition re_date : matcher (text * text * text) :=
  tY <~ re_Y ;; tm <~ re_m ;; td <~ re_d ;; m_ret (tY, tm, td).

Definition re_time : matcher (text * text * text) :=
  tH <~ re_H ;; tM <~ re_M ;; tS <~ re_S ;; m_ret (tH, tM, tS).

Definition format_regex (f : format)
  : matcher ((text * text * text) * (text * text * text)) :=
  match f with
  | fmt_Ymd => ymd <~ re_date ;; m_ret (ymd, (["0"], ["0"], ["0"]))
  | fmt_YmdHMS => ymd <~ re_date ;; hms <~ re_time ;; m_ret (ymd, hms)
  end.

(** [datetime.strptime(data_string, format)]: the format's expression is
    matched at the start, nothing may remain after the match, and the
    fields go through [int] and the [datetime] constructor. *)
Definition strptime (data_string : text) (f : format) : result datetime :=
  match re_match (format_regex f) data_string with
  | None => Raise ValueError
  | Some ((tY, tm, td, (tH, tM, tS)), rest) =>
      if negb (is_nil rest) then Raise ValueError
      else
        y <- py_int tY ;; m <- py_int tm ;; d <- py_int td ;;
        hh <- py_int tH ;; mm <- py_int tM ;; ss <- py_int tS ;;
        datetime_new y m d hh mm ss
  end.

(* ================================================================== *)
(** * Records: values and dictionaries *)

(** What a document holds under a key. *)
Inductive py_value : Type :=
| VStr (s : text)
| VInt (n : Z)
| VFloat (f : spec_float)
| VDatetime (d : datetime).

(** A [dict] with [str] keys: the entries in insertion order, keys
    distinct. *)
Definition dict := list (text * py_value).

Fixpoint dict_get (d : dict) (k : text) : option py_value :=
  match d with
  | [] => None
  | (k', v) :: r => if text_eqb k' k then Some v else dict_get r k
  end.

(** [k in d] *)
Definition dict_mem (k : text) (d : dict) : bool :=
  match dict_get d k with
  | Some _ => true
  | None => false
  end.

(** [d[k] = v]: an existing key keeps its place, a new one goes last. *)
Fixpoint dict_set (d : dict) (k : text) (v : py_value) : dict :=
  match d with
  | [] => [(k, v)]
  | (k', v') :: r =>
      if text_eqb k' k then (k', v) :: r else (k', v') :: dict_set r k v
  end.

(** [d.get(k, default)] *)
Definition dict_get_default (d : dict) (k : text) (default : py_value) : py_value :=
  match dict_get d k with
  | Some v => v
  | None => default
  end.

(** [len(v)]: only a [str] has a length. *)
Definition py_len (v : py_value) : result nat :=
  match v with
  | VStr s => Ok (length s)
  | _ => Raise TypeError
  end.

(** The [str] that a [str] method or [strptime] is applied to. *)
Definition as_str (e : exn) (v : py_value) : result text :=
  match v with
  | VStr s => Ok s
  | _ => Raise e
  end.

(* ================================================================== *)
(** * The parser: [parse_adif] *)

Open Scope string_scope.

(** [r'<(\w+):(\d+)(?::\w)?>(.*?)(?=<|\Z)'] with [re.DOTALL]; the value
    of a match is its three groups. *)
Definition field_pattern : matcher (text * text * text) :=
  _ <~ m_char "<" ;;
  g1 <~ m_plus is_word ;;
  _ <~ m_char ":" ;;
  g2 <~ m_plus is_digit ;;
  _ <~ m_opt (_ <~ m_char ":" ;; m_class is_word) ;;
  _ <~ m_char ">" ;;
  g3 <~ m_star_lazy (fun _ => true) ;;
  _ <~ m_lookahead ((_ <~ m_char "<" ;; m_ret tt) <|> m_end) ;;
  m_ret (g1, g2, g3).

(** [r'<EOH>'] and [r'<EOR>'] with [re.IGNORECASE] *)
Definition eoh_pattern : matcher unit := m_lit_i "<EOH>".
Definition eor_pattern : matcher unit := m_lit_i "<EOR>".

Definition numeric_fields : list text :=
  [ "freq" : text; "freq_rx" : text; "tx_pwr" : text; "distance" : text;
    "cqz" : text; "ituz" : text; "dxcc" : text;
    "my_cq_zone" : text; "my_dxcc" : text; "my_itu_zone" : text ].

Definition is_numeric_field (field_name : text) : bool :=
  existsb (text_eqb field_name) numeric_fields.

(** Lines 40-43: [float(value)] if there is a point, else [int(value)]. *)
Definition convert_numeric (value : text) : result py_value :=
  if contains "." value
  then f <- py_float value ;; Ok (VFloat f)
  else n <- py_int value ;; Ok (VInt n).

(** Lines 37-45: the value after the numeric conversion. *)
Definition numeric_value (field_name value : text) : result py_value :=
  if is_numeric_field field_name
  then except_ValueError (convert_numeric value) (Ok (VStr value))
  else Ok (VStr value).

(** Lines 48-52: the date field sets the derived datetime. *)
Definition date_step (doc : dict) (field_name : text) (value : py_value) : result dict :=
  if text_eqb field_name "qso_date" then
    n <- py_len value ;;
    if (n =? 8)%nat then
      except_ValueError
        (s <- as_str TypeError value ;;
         d <- strptime s fmt_Ymd ;;
         Ok (dict_set doc "qso_datetime" (VDatetime d)))
        (Ok doc)
    else Ok doc
  else Ok doc.

(** Lines 55-62: the time field combines with the stored date. *)
Definition time_step (doc : dict) (field_name : text) (value : py_value) : result dict :=
  if text_eqb field_name "time_on" && dict_mem "qso_date" doc then
    except_ValueError
      (let date_str := dict_get_default doc "qso_date" (VStr "") in
       n <- py_len date_str ;;
       if (n =? 8)%nat then
         m <- py_len value ;;
         if (4 <=? m)%nat then
           v <- as_str AttributeError value ;;
           let time_str := slice_to (ljust v 6 "0") 6 in
           ds <- as_str TypeError date_str ;;
           d <- strptime (ds ++ time_str)%list fmt_YmdHMS ;;
           Ok (dict_set doc "qso_datetime" (VDatetime d))
         else Ok doc
       else Ok doc)
      (Ok doc)
  else Ok doc.

(** Lines 36-64: what a field with a non-empty value does to the
    document. *)
Definition store_field (doc : dict) (field_name value : text) : result dict :=
  value' <- numeric_value field_name value ;;
  doc1 <- date_step doc field_name value' ;;
  doc2 <- time_step doc1 field_name value' ;;
  Ok (dict_set doc2 field_name value').

(** Lines 31-64: the body of the loop over the matches.  [int] on the
    declared length is outside every [try]. *)
Definition process_match (doc : dict) (m : text * text * text) : result dict :=
  let '(g1, g2, g3) := m in
  let field_name := lower g1 in
  length <- py_int g2 ;;
  let value := strip (slice_to g3 (Z.to_nat length)) in
  if is_nil value then Ok doc else store_field doc field_name value.

Fixpoint for_each {A S : Type} (body : S -> A -> result S) (xs : list A) (s : S)
  : result S :=
  match xs with
  | [] => Ok s
  | x :: r => s' <- body s x ;; for_each body r s'
  end.

(** Lines 29-64: the document built from one trimmed, non-blank
    segment. *)
Definition parse_record (record : text) : result dict :=
  for_each process_match (re_finditer field_pattern record) [].

(** Lines 24-69: the loop over the segments.  [utcnow k] is the clock at
    the [k]-th record that is emitted. *)
Fixpoint parse_records (utcnow : nat -> datetime) (k : nat) (records : list text)
  : result (list dict) :=
  match records with
  | [] => Ok []
  | record :: rest =>
      let record := strip record in
      if is_nil record then parse_records utcnow k rest
      else
        doc <- parse_record record ;;
        if is_nil doc then parse_records utcnow k rest
        else
          let doc := dict_set doc "imported_at" (VDatetime (utcnow k)) in
          docs <- parse_records utcnow (S k) rest ;;
          Ok (doc :: docs)
  end.

(** Lines 14-16 *)
Definition strip_header (content : text) : text :=
  match re_search eoh_pattern content with
  | Some (_, rest) => rest
  | None => content
  end.

(** [list(parse_adif(file_path))] where [content] is the text of the
    file: the records in order, or the exception that ends the
    generator. *)
Definition parse_adif (utcnow : nat -> datetime) (content : text)
  : result (list dict) :=
  let content := strip_header content in
  let records := re_split eor_pattern content in
  parse_records utcnow 0 records.

(* ================================================================== *)
(** * The loader: [main] *)

(** What the run does to the outside, in order. *)
Inductive event : Type :=
| Print (line : string)
| InsertMany (batch : list dict)
| Close.

Definition decimal (n : nat) : string :=
  NilEmpty.string_of_uint (Nat.to_uint n).

(** [range(start, stop, step)] for a positive step; [stop] steps are
    enough. *)
Fixpoint range_fuel (fuel start stop step : nat) : list nat :=
  match fuel with
  | 0 => []
  | S fuel' =>
      if (start <? stop)%nat
      then start :: range_fuel fuel' (start + step) stop step
      else []
  end.

Definition py_range (start stop step : nat) : list nat :=
  range_fuel stop start stop step.

(** [l[i:j]] for [0 <= i <= j] *)
Definition slice {A : Type} (l : list A) (i j : nat) : list A :=
  firstn (j - i) (skipn i l).

Definition adif_file : string := "/Users/brian.keating/Downloads/log.xml".

Definition newline : string := String (ascii_of_nat 10) EmptyString.

(** The lines that [main] prints. *)
Definition parsing_line : string := "Parsing ADIF file: " ++ adif_file.
Definition found_line (total_records : nat) : string :=
  "Found " ++ decimal total_records ++ " QSO records".
Definition progress_line (inserted total_records : nat) : string :=
  "Inserted " ++ decimal inserted ++ "/" ++ decimal total_records ++ " records...".
Definition success_line (inserted : nat) : string :=
  newline ++ "Successfully imported " ++ decimal inserted
  ++ " QSO records into Log4YM.qso collection".
Definition no_records_line : string := "No records found to import".

Section Loader.

(** The collection [Log4YM.qso] behind an open connection.
    [insert_many] gives the state of the store after the call and either
    the identifiers of [InsertManyResult.inserted_ids] or the exception
    of a failed write. *)
Context {Store Id : Type}.
Variable insert_many : Store -> list dict -> Store * result (list Id).

Definition batch_size : nat := 100.

(** Lines 94-98: the loop over the batch offsets. *)
Fixpoint insert_batches (records : list dict) (total_records : nat)
    (offsets : list nat) (collection : Store) (inserted : nat)
  : list event * Store * result nat :=
  match offsets with
  | [] => ([], collection, Ok inserted)
  | i :: rest =>
      let batch := slice records i (i + batch_size) in
      match insert_many collection batch with
      | (collection', Raise e) => ([InsertMany batch], collection', Raise e)
      | (collection', Ok inserted_ids) =>
          let inserted := inserted + length inserted_ids in
          let '(tr, collection'', r) :=
            insert_batches records total_records rest collection' inserted in
          (InsertMany batch :: Print (progress_line inserted total_records) :: tr,
           collection'', r)
      end
  end.

(** Lines 85-104: from the list of parsed records to the end of the
    run. *)
Definition load (records : list dict) (collection : Store)
  : list event * Store * result unit :=
  let total_records := length records in
  let found := Print (found_line total_records) in
  if (0 <? total_records)%nat then
    match insert_batches records total_records
            (py_range 0 total_records batch_size) collection 0 with
    | (tr, collection', Raise e) => (found :: tr, collection', Raise e)
    | (tr, collection', Ok inserted) =>
        (found :: tr ++ [Print (success_line inserted); Close], collection', Ok tt)
    end
  else
    ([found; Print no_records_line; Close], collection, Ok tt).

(** [main], from line 82 on: [content] is the text read from
    [adif_file] and [collection] the store reached through the client. *)
Definition main (utcnow : nat -> datetime) (content : text) (collection : Store)
  : list event * Store * result unit :=
  match parse_adif utcnow content with
  | Raise e => ([Print parsing_line], collection, Raise e)
  | Ok records =>
      let '(tr, collection', r) := load records collection in
      (Print parsing_line :: tr, collection', r)
  end.

End Loader.

(** The batches that a run wrote, in order. *)
Fixpoint inserts (tr : list event) : list (list dict) :=
  match tr with
  | [] => []
  | InsertMany batch :: r => batch :: inserts r
  | _ :: r => inserts r
  end.

(** The lines that a run printed, in order. *)
Fixpoint printed (tr : list event) : list string :=
  match tr with
  | [] => []
  | Print line :: r => line :: printed r
  | _ :: r => printed r
  end.

(** A store that keeps the documents in a list and numbers them. *)
Definition list_insert_many (collection : list dict) (batch : list dict)
  : list dict * result (list nat) :=
  ((collection ++ batch)%list, Ok (seq (length collection) (length batch))).

(* ================================================================== *)
(** * Notions used to state the properties *)

(** [xs] read at the start of [s] without regard to case: what follows
    it. *)
Fixpoint prefix_i (xs s : text) : option text :=
  match xs with
  | [] => Some s
  | x :: xs' =>
      match s with
      | c :: r =>
          if Ascii.eqb (lower_char c) (lower_char x) then prefix_i xs' r else None
      | [] => None
      end
  end.

(** [m] is a spelling of the marker [xs]. *)
Definition spells (xs m : text) : Prop := prefix_i xs m = Some [].

(** No spelling of [xs] occurs in [s]. *)
Fixpoint free_of (xs s : text) : Prop :=
  prefix_i xs s = None /\
  match s with
  | [] => True
  | _ :: r => free_of xs r
  end.

Definition not_lt (c : ascii) : bool := negb (Ascii.eqb c "<").

(** The end of a tag after its length: [>], or a colon, one word
    character and [>]. *)
Definition scan_tag_end (s : text) : option text :=
  match expect ">" s with
  | Some r => Some r
  | None =>
      match expect ":" s with
      | Some (c :: r) => if is_word c then expect ">" r else None
      | _ => None
      end
  end.

(** The field that starts at the head of [s], read in one pass: the tag,
    then the value up to the next [<] or the end. *)
Definition scan_field (s : text) : option ((text * text * text) * text) :=
  match expect "<" s with
  | None => None
  | Some s1 =>
      let g1 := take_while is_word s1 in
      match expect ":" (drop_while is_word s1) with
      | None => None
      | Some s3 =>
          let g2 := take_while is_digit s3 in
          if is_nil g1 || is_nil g2 then None
          else
            match scan_tag_end (drop_while is_digit s3) with
            | None => None
            | Some s5 =>
                Some ((g1, g2, take_while not_lt s5), drop_while not_lt s5)
            end
      end
  end.

(** The declared length of a field, and its value as the parser
    cuts it. *)
Definition declared_length (m : text * text * text) : nat :=
  Z.to_nat (Z_of_digits (snd (fst m))).

Definition field_name_of (m : text * text * text) : text := lower (fst (fst m)).

Definition field_value (m : text * text * text) : text :=
  strip (slice_to (snd m) (declared_length m)).

(** The fields of a segment. *)
Definition fields_of (record : text) : list (text * text * text) :=
  re_finditer field_pattern (strip record).

(** A segment is blank, or is a record with at least one field whose
    value is not empty. *)
Definition blank (record : text) : bool := is_nil (strip record).

Definition has_value (m : text * text * text) : bool :=
  negb (is_nil (field_value m)).

Definition nonempty_record (record : text) : bool :=
  existsb has_value (fields_of record).

(** The declared lengths of a segment are within [int]'s limit. *)
Definition length_ok (m : text * text * text) : bool :=
  (length (snd (fst m)) <=? int_max_str_digits)%nat.

Definition lengths_ok (record : text) : bool :=
  forallb length_ok (fields_of record).

(** The body of a file: segments, none of which holds an end-of-record
    marker, with such a marker, in any spelling, between each two. *)
Inductive body_of : list text -> text -> Prop :=
| body_last (record : text) :
    free_of "<EOR>" record -> body_of [record] record
| body_more (record m : text) (records : list text) (body : text) :
    free_of "<EOR>" record -> spells "<EOR>" m -> body_of records body ->
    body_of (record :: records) (record ++ m ++ body)%list.

(** A file: a header that ends at the first end-of-header marker and a
    body, or a body alone when no marker occurs. *)
Inductive file_of : list text -> text -> Prop :=
| file_with_header (header m body : text) (records : list text) :
    free_of "<EOH>" header -> spells "<EOH>" m -> body_of records body ->
    file_of records (header ++ m ++ body)%list
| file_without_header (body : text) (records : list text) :
    free_of "<EOH>" body -> body_of records body ->
    file_of records body.

(** Two texts that differ only in the spelling of their markers. *)
Inductive marker_eq : text -> text -> Prop :=
| me_nil : marker_eq [] []
| me_char (c : ascii) (s s' : text) :
    marker_eq s s' -> marker_eq (c :: s) (c :: s')
| me_marker (xs m m' s s' : text) :
    xs = "<EOH>" \/ xs = "<EOR>" -> spells xs m -> spells xs m' ->
    marker_eq s s' -> marker_eq (m ++ s)%list (m' ++ s')%list.

(** What the parser keeps for a field: the value after the numeric
    conversion, which falls back to the text. *)
Definition stored_value (field_name value : text) : py_value :=
  if is_numeric_field field_name then
    match convert_numeric value with
    | Ok v => v
    | Raise _ => VStr value
    end
  else VStr value.

(** The date entry of a document is a text when it is there. *)
Definition date_is_str (doc : dict) : Prop :=
  match dict_get doc "qso_date" with
  | Some (VStr _) | None => True
  | Some _ => False
  end.

(** The store acknowledges every write: one identifier per document of
    a batch that is not empty. *)
Definition acknowledges {Store Id : Type}
    (insert_many : Store -> list dict -> Store * result (list Id)) : Prop :=
  forall collection batch, batch <> [] ->
    exists ids, snd (insert_many collection batch) = Ok ids
                /\ length ids = length batch.

(** A finite double [f] is the rational [num / den]. *)
Definition float_is (f : spec_float) (num den : Z) : Prop :=
  match f with
  | S754_finite s m e =>
      let sm := (if s then Z.neg m else Z.pos m) in
      (sm * 2 ^ Z.max e 0 * den = num * 2 ^ Z.max (- e) 0)%Z
  | S754_zero _ => num = 0%Z
  | _ => False
  end.

Definition ceil_div (n d : nat) : nat := (n + d - 1) / d.

(** The text after the first spelling of [xs] in [s]. *)
Fixpoint search_i (xs s : text) : option text :=
  match prefix_i xs s with
  | Some r => Some r
  | None => match s with [] => None | _ :: r => search_i xs r end
  end.

(** The letters of the two markers. *)
Definition marker_letter (x : ascii) : Prop :=
  x = "E"%char \/ x = "O"%char \/ x = "H"%char \/ x = "R"%char.

(** No character of [xs] is a [<]. *)
Definition no_lt (xs : text) : bool :=
  forallb (fun x => negb (Ascii.eqb (lower_char "<") (lower_char x))) xs.

(** The length group of a match of the field pattern: a run of digits
    that is not empty. *)
Definition good_match (m : text * text * text) : Prop :=
  snd (fst m) <> [] /\ forallb is_digit (snd (fst m)) = true.

(** A document that the parser emits. *)
Definition emitted (doc : dict) : Prop :=
  is_nil doc = false /\ dict_mem "imported_at" doc = true.

(** Two optional remainders are both absent, or differ only in the
    spelling of their markers. *)
Definition rel_opt (o o' : option text) : Prop :=
  match o, o' with
  | Some r, Some r' => marker_eq r r'
  | None, None => True
  | _, _ => False
  end.

(** What the parser sees of a letter of a marker. *)
Definition letter_like (a : ascii) : Prop :=
  is_word a = true /\ is_space a = false /\ Ascii.eqb "<" a = false
  /\ Ascii.eqb (lower_char a) (lower_char "<") = false.

(** Two spellings of one letter of a marker. *)
Definition twin (a a' : ascii) : Prop :=
  lower_char a = lower_char a' /\ letter_like a /\ letter_like a'.

(** A clock for the examples: the [k]-th reading is [k] seconds into
    2026. *)
Definition sample_clock (k : nat) : datetime :=
  mk_datetime 2026 1 1 0 0 (Z.of_nat k) 0.

(** Records for the examples: [n] documents with one field. *)
Definition sample_records (n : nat) : list dict :=
  map (fun k => [("call" : text, VInt (Z.of_nat k))]) (seq 0 n).

(** The segments that the parser loops over. *)
Definition segments (content : text) : list text :=
  re_split eor_pattern (strip_header content).

(** A text with no space at either end. *)
Definition trimmed (s : text) : Prop :=
  match s with
  | [] => True
  | c :: _ => is_space c = false
  end
  /\ match rev s with
     | [] => True
     | c :: _ => is_space c = false
     end.

(** A tag as it is written: [<name:digits>] or [<name:digits:c>]. *)
Definition tag (name digits hint : text) : text :=
  ("<"%char :: name ++ ":"%char :: digits ++ hint ++ [">"%char])%list.

(** The type of a value that a key may hold: numbers only under the
    numeric names, datetimes only under the two keys that the parser
    fills itself. *)
Definition well_typed_entry (k : text) (v : py_value) : Prop :=
  match v with
  | VStr _ => True
  | VInt _ | VFloat _ => In k numeric_fields
  | VDatetime _ => k = "qso_datetime" \/ k = "imported_at"
  end.


(** The document of one segment, before the stamp. *)
Definition document_of (record : text) : dict :=
  match parse_record (strip record) with
  | Ok doc => doc
  | Raise _ => []
  end.

(** The documents stamped with consecutive readings of the clock. *)
Fixpoint stamped (utcnow : nat -> datetime) (k : nat) (docs : list dict)
  : list dict :=
  match docs with
  | [] => []
  | doc :: rest =>
      dict_set doc "imported_at" (VDatetime (utcnow k))
      :: stamped utcnow (S k) rest
  end.

(** A date and time of the calendar, as [datetime] accepts them. *)
Definition valid_datetime (d : datetime) : Prop :=
  (1 <= year d <= 9999 /\ 1 <= month d <= 12
   /\ 1 <= day d <= days_in_month (year d) (month d)
   /\ 0 <= hour d <= 23 /\ 0 <= minute d <= 59 /\ 0 <= second d <= 59
   /\ microsecond d = 0)%Z.

(** The start of a day. *)
Definition midnight (d : datetime) : Prop :=
  (hour d = 0 /\ minute d = 0 /\ second d = 0 /\ microsecond d = 0)%Z.

(** A record holds the fields of its segment: the segment has a field
    with a value, every such field has its name among the keys, and every
    key is such a name or one of the two keys that the parser fills
    itself. *)
Definition holds_fields_of (record : text) (doc : dict) : Prop :=
  (exists m, In m (fields_of record) /\ has_value m = true)
  /\ (forall m, In m (fields_of record) -> has_value m = true ->
                dict_mem (field_name_of m) doc = true)
  /\ (forall k : text, dict_mem k doc = true ->
        k = "imported_at" \/ k = "qso_datetime"
        \/ exists m, In m (fields_of record) /\ has_value m = true
                     /\ field_name_of m = k).

(** A field that writes neither the date, nor the time, nor the derived
    datetime. *)
Definition beside_datetime (m : text * text * text) : Prop :=
  field_name_of m <> "qso_date" /\ field_name_of m <> "time_on"
  /\ field_name_of m <> "qso_datetime".

(** A number written with exactly [n] decimal digits, between [lo] and
    [hi]. *)
Definition digits_in (n : nat) (lo hi : Z) (t : text) : bool :=
  (length t =? n)%nat && forallb is_digit t
  && (lo <=? Z_of_digits t)%Z && (Z_of_digits t <=? hi)%Z.

(* ================================================================== *)
(** * Properties *)

Open Scope string_scope.
Open Scope list_scope.

Lemma flat_map_m_star {B : Type} (p : ascii -> bool) (k : text -> text -> list B) :
  (forall c r m, p c = true -> k m (c :: r) = []) ->
  forall s, flat_map (fun mr => k (fst mr) (snd mr)) (m_star p s)
            = k (take_while p s) (drop_while p s).
Proof.
  intros Hk s. revert k Hk.
  induction s as [|c r IH]; intros k Hk; simpl.
  - now rewrite app_nil_r.
  - destruct (p c) eqn:Hc; simpl.
    + rewrite flat_map_app, flat_map_concat_map, map_map, <- flat_map_concat_map.
      simpl. rewrite (Hk c r [] Hc), !app_nil_r.
      apply (IH (fun m => k (c :: m))). intros; now apply Hk.
    + now rewrite app_nil_r.
Qed.

Lemma hd_flat_map_m_star_lazy {B : Type} (k : text -> text -> list B) (f : text -> text -> B) :
  (forall m c r, c <> "<"%char -> k m (c :: r) = []) ->
  (forall m r, k m ("<"%char :: r) = [f m ("<"%char :: r)]) ->
  (forall m, k m [] = [f m []]) ->
  forall s, hd_error (flat_map (fun mr => k (fst mr) (snd mr)) (m_star_lazy (fun _ => true) s))
            = Some (f (take_while not_lt s) (drop_while not_lt s)).
Proof.
  intros Hc Hlt Hnil s. revert k f Hc Hlt Hnil.
  induction s as [|c r IH]; intros k f Hc Hlt Hnil; simpl.
  - now rewrite Hnil.
  - unfold not_lt at 1 3. destruct (Ascii.eqb_spec c "<") as [->|Hne]; simpl.
    + now rewrite Hlt.
    + rewrite (Hc [] c r Hne). simpl.
      rewrite flat_map_concat_map, map_map, <- flat_map_concat_map. simpl.
      apply (IH (fun m => k (c :: m)) (fun m => f (c :: m))); intros; auto.
Qed.

Lemma word_facts (c : ascii) :
  is_word c = true -> c <> ":"%char /\ c <> "<"%char /\ c <> ">"%char.
Proof.
  destruct c as [[] [] [] [] [] [] [] []]; vm_compute; intros H; try discriminate H;
    repeat split; discriminate.
Qed.

Lemma digit_facts (c : ascii) :
  is_digit c = true -> is_word c = true /\ c <> ":"%char /\ c <> ">"%char.
Proof.
  destruct c as [[] [] [] [] [] [] [] []]; vm_compute; intros H; try discriminate H;
    repeat split; discriminate.
Qed.


Lemma m_bind_char {B : Type} (x : ascii) (k : ascii -> matcher B) (s : text) :
  m_bind (m_char x) k s = match expect x s with Some r => k x r | None => [] end.
Proof.
  unfold m_bind, m_char, m_class, expect.
  destruct s as [|c r]; [reflexivity|].
  destruct (Ascii.eqb_spec x c) as [->|]; simpl; [now rewrite app_nil_r|reflexivity].
Qed.

Lemma flat_map_single {A B C : Type} (f : A -> B) (g : B -> list C) (l : list A) :
  flat_map g (flat_map (fun x => [f x]) l) = flat_map (fun x => g (f x)) l.
Proof.
  induction l as [|x l IH]; simpl; [reflexivity|]. now rewrite IH.
Qed.

Lemma m_bind_plus {B : Type} (p : ascii -> bool) (k : text -> matcher B) (s : text) :
  (forall c r m, p c = true -> k m (c :: r) = []) ->
  m_bind (m_plus p) k s
  = if is_nil (take_while p s) then [] else k (take_while p s) (drop_while p s).
Proof.
  intros Hk. unfold m_bind at 1, m_plus, m_bind at 1, m_class.
  destruct s as [|c r]; [reflexivity|]. simpl.
  destruct (p c) eqn:Hc; [|reflexivity]. simpl.
  rewrite !app_nil_r. unfold m_bind, m_ret. simpl.
  rewrite (flat_map_single (fun ar => (c :: fst ar, snd ar))). simpl.
  apply (flat_map_m_star p (fun m => k (c :: m))). intros; now apply Hk.
Qed.

Lemma m_bind_opt {A B : Type} (m : matcher A) (k : unit -> matcher B) (s : text) :
  m_bind (m_opt m) k s = flat_map (fun ar => k tt (snd ar)) (m s) ++ k tt s.
Proof.
  unfold m_opt, m_bind, m_ret. rewrite flat_map_app. simpl. rewrite app_nil_r.
  f_equal. now rewrite (flat_map_single (fun ar => (tt, snd ar))).
Qed.


Lemma expect_cons_neq (x c : ascii) (r : text) : x <> c -> expect x (c :: r) = None.
Proof.
  intros H. unfold expect. now destruct (Ascii.eqb_spec x c).
Qed.

Lemma expect_some (x : ascii) (s r : text) : expect x s = Some r -> s = x :: r.
Proof.
  destruct s as [|c s']; simpl; [discriminate|].
  destruct (Ascii.eqb_spec x c) as [->|]; congruence.
Qed.

Lemma value_pattern_hd {G : Type} (g : text -> G) (s : text) :
  hd_error ((g3 <~ m_star_lazy (fun _ => true) ;;
             _ <~ m_lookahead ((_ <~ m_char "<" ;; m_ret tt) <|> m_end) ;;
             m_ret (g g3)) s)
  = Some (g (take_while not_lt s), drop_while not_lt s).
Proof.
  unfold m_bind at 1.
  apply (hd_flat_map_m_star_lazy
           (fun m => _ <~ m_lookahead ((_ <~ m_char "<" ;; m_ret tt) <|> m_end) ;;
                     m_ret (g m))
           (fun m r => (g m, r))).
  - intros m c r Hc. unfold m_bind at 1, m_lookahead.
    rewrite m_bind_char, expect_cons_neq by congruence. reflexivity.
  - intros m r. reflexivity.
  - intros m. reflexivity.
Qed.

Lemma field_pattern_scan (s : text) : re_match field_pattern s = scan_field s.
Proof.
  unfold re_match, field_pattern, scan_field.
  rewrite m_bind_char. destruct (expect "<" s) as [s1|]; [|reflexivity].
  rewrite m_bind_plus.
  2:{ intros c r m Hc. rewrite m_bind_char, expect_cons_neq; [reflexivity|].
      intros <-. discriminate Hc. }
  rewrite m_bind_char.
  destruct (expect ":" (drop_while is_word s1)) as [s3|];
    [|now destruct (is_nil (take_while is_word s1))].
  destruct (is_nil (take_while is_word s1)); [reflexivity|]. cbn [orb].
  rewrite m_bind_plus.
  2:{ intros c r m Hc. rewrite m_bind_opt.
      rewrite !m_bind_char, !expect_cons_neq; [reflexivity| |];
        intros <-; discriminate Hc. }
  destruct (is_nil (take_while is_digit s3)); [reflexivity|].
  rewrite m_bind_opt, !m_bind_char. unfold scan_tag_end.
  set (g1 := take_while is_word s1). set (g2 := take_while is_digit s3).
  destruct (expect ">" (drop_while is_digit s3)) as [s5|] eqn:E.
  - apply expect_some in E. rewrite E, expect_cons_neq by discriminate.
    cbn [flat_map app]. apply (value_pattern_hd (fun g3 => (g1, g2, g3))).
  - rewrite app_nil_r.
    destruct (expect ":" (drop_while is_digit s3)) as [[|c r]|]; try reflexivity.
    unfold m_class. destruct (is_word c); [|reflexivity].
    cbn [flat_map snd]. rewrite app_nil_r, m_bind_char.
    destruct (expect ">" r) as [s5|]; [|reflexivity].
    apply (value_pattern_hd (fun g3 => (g1, g2, g3))).
Qed.

(* ------------------------------------------------------------------ *)
(** ** Enough fuel *)

Section Fuel.
Context {A : Type} (m : matcher A).
Hypothesis consuming :
  forall s a r, re_match m s = Some (a, r) -> length r < length s.

Lemma re_finditer_fuel_any (n : nat) :
  forall f1 f2 s, length s <= n -> n <= f1 -> n <= f2 ->
    re_finditer_fuel m f1 s = re_finditer_fuel m f2 s.
Proof.
  induction n as [|n IH]; intros f1 f2 s Hs H1 H2.
  - destruct s; [|simpl in Hs; lia]. now destruct f1, f2.
  - destruct f1 as [|f1]; [lia|]. destruct f2 as [|f2]; [lia|].
    destruct s as [|c r]; [reflexivity|]. simpl in *.
    destruct (re_match m (c :: r)) as [[a rest]|] eqn:E.
    + f_equal. apply consuming in E. simpl in E. apply IH; lia.
    + apply IH; lia.
Qed.

Lemma re_finditer_eq (s : text) :
  re_finditer m s =
  match s with
  | [] => []
  | _ :: r =>
      match re_match m s with
      | Some (a, rest) => a :: re_finditer m rest
      | None => re_finditer m r
      end
  end.
Proof.
  unfold re_finditer. destruct s as [|c r]; [reflexivity|].
  cbn [length re_finditer_fuel].
  destruct (re_match m (c :: r)) as [[a rest]|] eqn:E.
  - f_equal. apply consuming in E. simpl in E.
    apply (re_finditer_fuel_any (length rest)); lia.
  - reflexivity.
Qed.

Lemma re_split_fuel_any (n : nat) :
  forall f1 f2 s, length s <= n -> n <= f1 -> n <= f2 ->
    re_split_fuel m f1 s = re_split_fuel m f2 s.
Proof.
  induction n as [|n IH]; intros f1 f2 s Hs H1 H2.
  - destruct s; [|simpl in Hs; lia]. now destruct f1, f2.
  - destruct f1 as [|f1]; [lia|]. destruct f2 as [|f2]; [lia|].
    destruct s as [|c r]; [reflexivity|]. simpl in *.
    destruct (re_match m (c :: r)) as [[a rest]|] eqn:E.
    + f_equal. apply consuming in E. simpl in E. apply IH; lia.
    + f_equal. apply IH; lia.
Qed.

Lemma re_split_eq (s : text) :
  re_split m s =
  match s with
  | [] => [[]]
  | c :: r =>
      match re_match m s with
      | Some (_, rest) => [] :: re_split m rest
      | None => cons_head c (re_split m r)
      end
  end.
Proof.
  unfold re_split. destruct s as [|c r]; [reflexivity|].
  cbn [length re_split_fuel].
  destruct (re_match m (c :: r)) as [[a rest]|] eqn:E.
  - f_equal. apply consuming in E. simpl in E.
    apply (re_split_fuel_any (length rest)); lia.
  - reflexivity.
Qed.
End Fuel.

Lemma drop_while_length (p : ascii -> bool) (s : text) :
  length (drop_while p s) <= length s.
Proof.
  induction s as [|c r IH]; simpl; [lia|]. destruct (p c); simpl; lia.
Qed.

Lemma expect_length (x : ascii) (s r : text) :
  expect x s = Some r -> length s = S (length r).
Proof. intros H. apply expect_some in H. now subst. Qed.

Lemma scan_tag_end_length (s r : text) :
  scan_tag_end s = Some r -> length r < length s.
Proof.
  unfold scan_tag_end.
  destruct (expect ">" s) as [r'|] eqn:E1.
  - intros [= <-]. apply expect_length in E1. lia.
  - destruct (expect ":" s) as [[|c r']|] eqn:E2; try discriminate.
    destruct (is_word c); [|discriminate]. intros E3.
    apply expect_length in E2, E3. simpl in E2. lia.
Qed.

Lemma scan_field_length (s : text) a r :
  scan_field s = Some (a, r) -> length r < length s.
Proof.
  unfold scan_field.
  destruct (expect "<" s) as [s1|] eqn:E1; [|discriminate].
  destruct (expect ":" (drop_while is_word s1)) as [s3|] eqn:E2; [|discriminate].
  destruct (_ || _); [discriminate|].
  destruct (scan_tag_end (drop_while is_digit s3)) as [s5|] eqn:E3; [|discriminate].
  intros [= _ <-].
  apply expect_length in E1, E2. apply scan_tag_end_length in E3.
  pose proof (drop_while_length is_word s1).
  pose proof (drop_while_length is_digit s3).
  pose proof (drop_while_length not_lt s5). lia.
Qed.

Lemma field_pattern_consuming s a r :
  re_match field_pattern s = Some (a, r) -> length r < length s.
Proof. rewrite field_pattern_scan. apply scan_field_length. Qed.

Lemma finditer_field_eq (s : text) :
  re_finditer field_pattern s =
  match s with
  | [] => []
  | _ :: r =>
      match scan_field s with
      | Some (a, rest) => a :: re_finditer field_pattern rest
      | None => re_finditer field_pattern r
      end
  end.
Proof.
  rewrite (re_finditer_eq field_pattern field_pattern_consuming).
  destruct s; [reflexivity|]. now rewrite field_pattern_scan.
Qed.

Lemma m_lit_i_prefix (xs s : text) :
  m_lit_i xs s = match prefix_i xs s with Some r => [(tt, r)] | None => [] end.
Proof.
  revert s. induction xs as [|x xs IH]; intros s; [reflexivity|].
  cbn [m_lit_i prefix_i]. unfold m_bind, m_char_i, m_class.
  destruct s as [|c r]; [reflexivity|].
  destruct (Ascii.eqb _ _); [|reflexivity].
  cbn [flat_map fst snd]. now rewrite app_nil_r, IH.
Qed.

Lemma re_match_lit_i (xs s : text) :
  re_match (m_lit_i xs) s = option_map (pair tt) (prefix_i xs s).
Proof.
  unfold re_match. rewrite m_lit_i_prefix. now destruct (prefix_i xs s).
Qed.

Lemma prefix_i_length (xs s r : text) :
  prefix_i xs s = Some r -> length s = length xs + length r.
Proof.
  revert s. induction xs as [|x xs IH]; intros s; simpl.
  - now intros [= ->].
  - destruct s as [|c s']; [discriminate|].
    destruct (Ascii.eqb _ _); [|discriminate]. intros H. apply IH in H. simpl. lia.
Qed.

Lemma eor_consuming s a r :
  re_match eor_pattern s = Some (a, r) -> length r < length s.
Proof.
  unfold eor_pattern. rewrite re_match_lit_i.
  destruct (prefix_i _ s) eqn:E; [|discriminate]. intros [= _ <-].
  apply prefix_i_length in E. simpl in E. lia.
Qed.

Lemma split_eor_eq (s : text) :
  re_split eor_pattern s =
  match s with
  | [] => [[]]
  | c :: r =>
      match prefix_i "<EOR>" s with
      | Some rest => [] :: re_split eor_pattern rest
      | None => cons_head c (re_split eor_pattern r)
      end
  end.
Proof.
  rewrite (re_split_eq eor_pattern eor_consuming).
  destruct s; [reflexivity|]. unfold eor_pattern at 1. rewrite re_match_lit_i.
  now destruct (prefix_i _ _).
Qed.


Lemma re_search_lit_i (xs s : text) :
  re_search (m_lit_i xs) s = option_map (pair tt) (search_i xs s).
Proof.
  induction s as [|c r IH]; cbn [re_search search_i]; rewrite re_match_lit_i;
    destruct (prefix_i xs _); try reflexivity. exact IH.
Qed.

Lemma strip_header_eq (content : text) :
  strip_header content =
  match search_i "<EOH>" content with Some rest => rest | None => content end.
Proof.
  unfold strip_header, eoh_pattern. rewrite re_search_lit_i.
  now destruct (search_i _ _).
Qed.

(* ------------------------------------------------------------------ *)
(** ** Dictionaries *)

Lemma text_eqb_spec (a b : text) : reflect (a = b) (text_eqb a b).
Proof.
  unfold text_eqb. destruct (list_eq_dec ascii_dec a b); now constructor.
Qed.

Lemma text_eqb_refl (a : text) : text_eqb a a = true.
Proof. now destruct (text_eqb_spec a a). Qed.

Lemma text_eqb_neq (a b : text) : a <> b -> text_eqb a b = false.
Proof. now destruct (text_eqb_spec a b). Qed.

Lemma dict_get_set_same (d : dict) (k : text) (v : py_value) :
  dict_get (dict_set d k v) k = Some v.
Proof.
  induction d as [|[k' v'] d IH]; simpl.
  - now rewrite text_eqb_refl.
  - destruct (text_eqb k' k) eqn:E; simpl; now rewrite E.
Qed.

Lemma dict_get_set_other (d : dict) (k k' : text) (v : py_value) :
  k <> k' -> dict_get (dict_set d k v) k' = dict_get d k'.
Proof.
  intros Hne. induction d as [|[k0 v0] d IH]; simpl.
  - now rewrite text_eqb_neq.
  - destruct (text_eqb_spec k0 k) as [->|]; simpl.
    + now rewrite text_eqb_neq.
    + now rewrite IH.
Qed.

Lemma dict_set_not_nil (d : dict) (k : text) (v : py_value) :
  is_nil (dict_set d k v) = false.
Proof.
  destruct d as [|[k' v'] d]; simpl; [reflexivity|]. now destruct (text_eqb k' k).
Qed.

(* ------------------------------------------------------------------ *)
(** ** Only [ValueError] comes out of the conversions *)

Lemma py_int_exn (s : text) (e : exn) : py_int s = Raise e -> e = ValueError.
Proof.
  unfold py_int. destruct (split_sign _) as [neg s2].
  destruct (_ || _); congruence.
Qed.

Lemma remove_underscores_exn (s : text) :
  forall prev e, remove_underscores prev s = Raise e -> e = ValueError.
Proof.
  induction s as [|c r IH]; intros prev e; simpl.
  - destruct (Ascii.eqb prev "_"); congruence.
  - destruct (Ascii.eqb c "_").
    + destruct (is_digit prev); [apply IH|congruence].
    + destruct (_ && _); [congruence|].
      destruct (remove_underscores c r) eqn:E; simpl; [discriminate|].
      intros [= <-]. now apply IH in E.
Qed.

Lemma py_float_exn (s : text) (e : exn) : py_float s = Raise e -> e = ValueError.
Proof.
  unfold py_float.
  destruct (if contains _ _ then _ else _) as [s1|e1] eqn:E1; simpl.
  - destruct (split_sign _) as [neg s3]. unfold parse_decimal.
    destruct (match expect "." (drop_while is_digit s3) with Some r => _ | None => _ end)
      as [fpart s2].
    destruct (_ && _).
    + unfold parse_inf_or_nan. destruct (_ || _); [discriminate|].
      destruct (text_eqb _ _); congruence.
    + destruct (parse_exponent s2) as [ex s4]. destruct (is_nil s4); congruence.
  - intros [= <-]. destruct (contains _ _); [|discriminate].
    now apply remove_underscores_exn in E1.
Qed.

Lemma convert_numeric_exn (value : text) (e : exn) :
  convert_numeric value = Raise e -> e = ValueError.
Proof.
  unfold convert_numeric. destruct (contains _ _).
  - destruct (py_float value) eqn:E; simpl; [discriminate|].
    intros [= <-]. now apply py_float_exn in E.
  - destruct (py_int value) eqn:E; simpl; [discriminate|].
    intros [= <-]. now apply py_int_exn in E.
Qed.

Lemma numeric_value_ok (field_name value : text) :
  numeric_value field_name value = Ok (stored_value field_name value).
Proof.
  unfold numeric_value, stored_value, except_ValueError.
  destruct (is_numeric_field field_name); [|reflexivity].
  destruct (convert_numeric value) as [v|e] eqn:E; [reflexivity|].
  apply convert_numeric_exn in E. now subst.
Qed.

Lemma datetime_new_exn y m d hh mm ss e :
  datetime_new y m d hh mm ss = Raise e -> e = ValueError.
Proof. unfold datetime_new. destruct (_ && _); congruence. Qed.

Lemma strptime_exn (s : text) (f : format) (e : exn) :
  strptime s f = Raise e -> e = ValueError.
Proof.
  unfold strptime.
  destruct (re_match _ _) as [[[[[tY tm] td] [[tH tM] tS]] rest]|]; [|congruence].
  destruct (negb _); [congruence|].
  repeat match goal with
         | |- context [py_int ?t] =>
             let E := fresh "E" in
             destruct (py_int t) eqn:E; cbn [rbind];
             [|intros [= <-]; now apply py_int_exn in E]
         end.
  apply datetime_new_exn.
Qed.

(* ------------------------------------------------------------------ *)
(** ** The body of the loop *)


Lemma stored_value_str (field_name value : text) :
  is_numeric_field field_name = false ->
  stored_value field_name value = VStr value.
Proof. unfold stored_value. now intros ->. Qed.

Lemma date_step_other (doc : dict) (field_name : text) (v : py_value) :
  field_name <> "qso_date" -> date_step doc field_name v = Ok doc.
Proof. intros H. unfold date_step. now rewrite text_eqb_neq. Qed.

Lemma time_step_other (doc : dict) (field_name : text) (v : py_value) :
  field_name <> "time_on" -> time_step doc field_name v = Ok doc.
Proof. intros H. unfold time_step. now rewrite text_eqb_neq. Qed.

Lemma date_step_str (doc : dict) (field_name value : text) :
  date_step doc field_name (VStr value) = Ok doc
  \/ exists d, field_name = "qso_date" /\ length value = 8
               /\ strptime value fmt_Ymd = Ok d
               /\ date_step doc field_name (VStr value)
                  = Ok (dict_set doc "qso_datetime" (VDatetime d)).
Proof.
  unfold date_step.
  destruct (text_eqb_spec field_name "qso_date") as [->|]; [|now left].
  cbn [py_len rbind as_str].
  destruct (Nat.eqb_spec (length value) 8) as [H8|]; [|now left].
  destruct (strptime value fmt_Ymd) as [d|e] eqn:E; cbn [rbind except_ValueError].
  - right. now exists d.
  - left. apply strptime_exn in E. now subst.
Qed.

Lemma time_step_str (doc : dict) (field_name value : text) :
  date_is_str doc ->
  time_step doc field_name (VStr value) = Ok doc
  \/ exists d date_str,
       field_name = "time_on"
       /\ dict_get doc "qso_date" = Some (VStr date_str)
       /\ length date_str = 8 /\ 4 <= length value
       /\ strptime (date_str ++ slice_to (ljust value 6 "0") 6) fmt_YmdHMS = Ok d
       /\ time_step doc field_name (VStr value)
          = Ok (dict_set doc "qso_datetime" (VDatetime d)).
Proof.
  unfold time_step, date_is_str, dict_mem, dict_get_default.
  destruct (text_eqb_spec field_name "time_on") as [->|]; [|now left].
  destruct (dict_get doc "qso_date") as [[date_str| | |]|]; try easy; [|now left].
  intros _. cbn [andb py_len rbind as_str].
  destruct (Nat.eqb_spec (length date_str) 8) as [H8|]; [|now left].
  destruct (Nat.leb_spec 4 (length value)) as [H4|]; [|now left].
  destruct (strptime _ fmt_YmdHMS) as [d|e] eqn:E; cbn [rbind except_ValueError].
  - right. exists d, date_str. repeat split; auto.
  - left. apply strptime_exn in E. now subst.
Qed.

(** The document that a field leaves: the entry of the field, after a
    possible change of the derived datetime. *)
Lemma store_field_spec (doc : dict) (field_name value : text) :
  date_is_str doc ->
  exists doc2,
    store_field doc field_name value
    = Ok (dict_set doc2 field_name (stored_value field_name value))
    /\ (doc2 = doc
        \/ (exists d, field_name = "qso_date" /\ length value = 8
                      /\ strptime value fmt_Ymd = Ok d
                      /\ doc2 = dict_set doc "qso_datetime" (VDatetime d))
        \/ (exists d date_str,
              field_name = "time_on"
              /\ dict_get doc "qso_date" = Some (VStr date_str)
              /\ length date_str = 8 /\ 4 <= length value
              /\ strptime (date_str ++ slice_to (ljust value 6 "0") 6) fmt_YmdHMS
                 = Ok d
              /\ doc2 = dict_set doc "qso_datetime" (VDatetime d))).
Proof.
  intros Hdoc. unfold store_field. rewrite numeric_value_ok. cbn [rbind].
  destruct (text_eqb_spec field_name "qso_date") as [Hd|Hd].
  - subst. rewrite (stored_value_str "qso_date") by reflexivity.
    destruct (date_step_str doc "qso_date" value) as [E|(d & _ & H8 & Hp & E)];
      rewrite E; cbn [rbind].
    + rewrite time_step_other by discriminate. exists doc. auto.
    + rewrite time_step_other by discriminate. eexists. split; [reflexivity|].
      right. left. now exists d.
  - rewrite date_step_other by assumption. cbn [rbind].
    destruct (text_eqb_spec field_name "time_on") as [Ht|Ht].
    + subst. rewrite (stored_value_str "time_on") by reflexivity.
      destruct (time_step_str doc "time_on" value Hdoc)
        as [E|(d & ds & _ & Hg & H8 & H4 & Hp & E)]; rewrite E; cbn [rbind].
      * exists doc. auto.
      * eexists. split; [reflexivity|]. right. right. now exists d, ds.
    + rewrite time_step_other by assumption. cbn [rbind]. exists doc. auto.
Qed.

Lemma date_is_str_set (doc : dict) (k : text) (v : py_value) :
  date_is_str doc ->
  (k = "qso_date" -> exists s, v = VStr s) ->
  date_is_str (dict_set doc k v).
Proof.
  unfold date_is_str. intros Hdoc Hk.
  destruct (text_eqb_spec k "qso_date") as [->|Hne].
  - rewrite dict_get_set_same. destruct Hk as [s ->]; auto.
  - now rewrite dict_get_set_other.
Qed.

Lemma store_field_ok (doc : dict) (field_name value : text) :
  date_is_str doc ->
  exists doc', store_field doc field_name value = Ok doc'
               /\ date_is_str doc' /\ is_nil doc' = false.
Proof.
  intros Hdoc.
  destruct (store_field_spec doc field_name value Hdoc) as (doc2 & E & Hdoc2).
  eexists. split; [exact E|]. split; [|apply dict_set_not_nil].
  apply date_is_str_set.
  - destruct Hdoc2 as [->|[(d & _ & _ & _ & ->)|(d & ds & _ & _ & _ & _ & _ & ->)]];
      auto; apply date_is_str_set; auto; discriminate.
  - intros ->. exists value. now apply stored_value_str.
Qed.


(* ------------------------------------------------------------------ *)
(** ** [int] on a run of digits *)

Lemma is_digit_facts (c : ascii) :
  is_digit c = true ->
  (code c <? 128)%N = true /\ is_c_space c = false /\ is_space c = false
  /\ Ascii.eqb "+" c = false /\ Ascii.eqb "-" c = false
  /\ Ascii.eqb "_" c = false /\ Ascii.eqb c "_" = false
  /\ is_digit_or_underscore c = true /\ (code c <? 127)%N = true.
Proof.
  destruct c as [[] [] [] [] [] [] [] []]; vm_compute; intros H;
    try discriminate H; repeat split.
Qed.

Lemma take_while_all (p : ascii -> bool) (s : text) :
  forallb p s = true -> take_while p s = s /\ drop_while p s = [].
Proof.
  induction s as [|c r IH]; simpl; [auto|].
  destruct (p c); [|discriminate]. intros H. destruct (IH H) as [-> ->]. auto.
Qed.

Lemma filter_all {A : Type} (p : A -> bool) (l : list A) :
  forallb p l = true -> filter p l = l.
Proof.
  induction l as [|x l IH]; simpl; [auto|].
  destruct (p x); [|discriminate]. intros H. now rewrite IH.
Qed.

Lemma forallb_impl {A : Type} (p q : A -> bool) (l : list A) :
  (forall x, p x = true -> q x = true) -> forallb p l = true -> forallb q l = true.
Proof.
  intros H. induction l as [|x l IH]; simpl; [auto|].
  intros [Hx Hl]%andb_prop. now rewrite (H _ Hx), IH.
Qed.

Lemma digits_no_double_underscore (s : text) :
  forallb is_digit s = true -> double_underscore s = false.
Proof.
  induction s as [|c r IH]; simpl; [auto|].
  intros [Hc Hr]%andb_prop. apply is_digit_facts in Hc.
  destruct Hc as (_ & _ & _ & _ & _ & _ & -> & _). now rewrite IH.
Qed.

Lemma digits_not_ends_with_underscore (s : text) :
  forallb is_digit s = true -> ends_with_underscore s = false.
Proof.
  intros H. unfold ends_with_underscore, starts_with, expect.
  assert (Hr : forallb is_digit (rev s) = true).
  { rewrite forallb_forall in *. intros x Hx. apply H. now apply in_rev. }
  destruct (rev s) as [|c r]; [reflexivity|]. simpl in Hr.
  apply andb_prop in Hr. destruct Hr as [Hc _]. apply is_digit_facts in Hc.
  destruct Hc as (_ & _ & _ & _ & _ & -> & _). reflexivity.
Qed.

Lemma py_int_digits (g : text) :
  g <> [] -> forallb is_digit g = true ->
  py_int g = if (length g <=? int_max_str_digits)%nat
             then Ok (Z_of_digits g) else Raise ValueError.
Proof.
  intros Hne Hd. unfold py_int.
  assert (Ht : transform_decimal_and_space g = g).
  { unfold transform_decimal_and_space.
    rewrite (forallb_impl is_digit _ g); auto. intros x Hx. now apply is_digit_facts. }
  rewrite Ht. destruct g as [|c r]; [contradiction|].
  pose proof Hd as Hd'. simpl in Hd'. apply andb_prop in Hd'. destruct Hd' as [Hc Hr].
  destruct (is_digit_facts c Hc) as (_ & Hsp & _ & Hplus & Hminus & Hu & _ & _ & _).
  cbn [drop_while]. rewrite Hsp.
  unfold split_sign, expect. rewrite Hplus, Hminus.
  destruct (take_while_all is_digit_or_underscore (c :: r)) as [-> ->].
  { apply (forallb_impl is_digit); auto. intros x Hx. now apply is_digit_facts. }
  rewrite (filter_all is_digit (c :: r) Hd).
  unfold starts_with, expect. rewrite Hu.
  rewrite digits_no_double_underscore, digits_not_ends_with_underscore by assumption.
  cbn [orb is_nil drop_while negb].
  rewrite !orb_false_r.
  destruct (Nat.ltb_spec int_max_str_digits (length (c :: r)));
    destruct (Nat.leb_spec (length (c :: r)) int_max_str_digits); try lia; reflexivity.
Qed.

(* ------------------------------------------------------------------ *)
(** ** Markers *)

Lemma ci_lt (c : ascii) :
  Ascii.eqb (lower_char c) (lower_char "<") = true -> c = "<"%char.
Proof.
  destruct c as [[] [] [] [] [] [] [] []]; vm_compute; intros H;
    try discriminate H; reflexivity.
Qed.

Lemma ci_gt (c : ascii) :
  Ascii.eqb (lower_char c) (lower_char ">") = true -> c = ">"%char.
Proof.
  destruct c as [[] [] [] [] [] [] [] []]; vm_compute; intros H;
    try discriminate H; reflexivity.
Qed.


Lemma ci_letter (x c : ascii) :
  marker_letter x ->
  Ascii.eqb (lower_char c) (lower_char x) = true -> letter_like c.
Proof.
  intros [-> | [-> | [-> | ->]]];
    destruct c as [[] [] [] [] [] [] [] []]; vm_compute; intros H;
    try discriminate H; repeat split.
Qed.

(** A spelling of a marker: [<], three letters, [>]. *)
Lemma spells_inv (x y z : ascii) (m : text) :
  spells ["<"%char; x; y; z; ">"%char] m ->
  exists a b c, m = ["<"%char; a; b; c; ">"%char]
    /\ Ascii.eqb (lower_char a) (lower_char x) = true
    /\ Ascii.eqb (lower_char b) (lower_char y) = true
    /\ Ascii.eqb (lower_char c) (lower_char z) = true.
Proof.
  unfold spells. cbn [prefix_i].
  destruct m as [|c0 [|a [|b [|c [|c4 m]]]]]; try discriminate;
    repeat match goal with
           | |- context [if ?t then _ else _] =>
               let E := fresh "E" in destruct t eqn:E; try discriminate
           end.
  intros [= ->]. apply ci_lt in E. apply ci_gt in E3. subst.
  now exists a, b, c.
Qed.

Lemma spells_app (xs m t : text) : spells xs m -> prefix_i xs (m ++ t) = Some t.
Proof.
  unfold spells. revert m. induction xs as [|x xs IH]; intros m; simpl.
  - now intros [= ->].
  - destruct m as [|c m]; [discriminate|]. simpl.
    destruct (Ascii.eqb _ _); [apply IH|discriminate].
Qed.


(** A marker cannot start inside a text and end in the marker that
    follows it. *)
Lemma prefix_i_app_lt (xs a t : text) :
  no_lt xs = true -> prefix_i xs a = None ->
  prefix_i xs (a ++ "<"%char :: t) = None.
Proof.
  revert a. induction xs as [|x xs IH]; intros a Hxs; [discriminate|].
  unfold no_lt in Hxs. cbn [forallb] in Hxs.
  apply andb_prop in Hxs. destruct Hxs as [Hx Hxs].
  destruct a as [|c a]; cbn [prefix_i app].
  - intros _. apply negb_true_iff in Hx. now rewrite Hx.
  - destruct (Ascii.eqb (lower_char c) (lower_char x)); [now apply IH|reflexivity].
Qed.

Lemma prefix_i_marker_app (xs a m t : text) :
  xs = "<EOH>" \/ xs = "<EOR>" -> spells xs m -> a <> [] ->
  prefix_i xs a = None -> prefix_i xs (a ++ m ++ t) = None.
Proof.
  intros Hxs Hm Ha Hnone.
  assert (exists m', m = "<"%char :: m') as [m' ->].
  { destruct Hxs as [-> | ->]; apply spells_inv in Hm;
      destruct Hm as (x & y & z & -> & _); eauto. }
  destruct a as [|c a]; [contradiction|]. cbn [app].
  destruct Hxs as [-> | ->].
  - change (list_ascii_of_string "<EOH>")
      with ("<"%char :: list_ascii_of_string "EOH>") in *.
    cbn [prefix_i] in Hnone |- *.
    destruct (Ascii.eqb (lower_char c) (lower_char "<")); [|reflexivity].
    now apply (prefix_i_app_lt _ a (m' ++ t)).
  - change (list_ascii_of_string "<EOR>")
      with ("<"%char :: list_ascii_of_string "EOR>") in *.
    cbn [prefix_i] in Hnone |- *.
    destruct (Ascii.eqb (lower_char c) (lower_char "<")); [|reflexivity].
    now apply (prefix_i_app_lt _ a (m' ++ t)).
Qed.

Lemma free_of_head (xs s : text) : free_of xs s -> prefix_i xs s = None.
Proof. destruct s; simpl; tauto. Qed.

(** Splitting the body of a file gives back its segments. *)
Lemma split_free (record : text) :
  free_of "<EOR>" record -> re_split eor_pattern record = [record].
Proof.
  induction record as [|c r IH]; intros H; rewrite split_eor_eq; [reflexivity|].
  rewrite (free_of_head _ _ H). destruct H as [_ H]. now rewrite IH.
Qed.

Lemma split_app_marker (record m body : text) :
  free_of "<EOR>" record -> spells "<EOR>" m ->
  re_split eor_pattern (record ++ m ++ body)
  = record :: re_split eor_pattern body.
Proof.
  intros H Hm. induction record as [|c r IH]; rewrite split_eor_eq.
  - cbn [app]. rewrite (spells_app _ _ body Hm).
    destruct (m ++ body) eqn:E; [|reflexivity].
    apply spells_inv in Hm. destruct Hm as (x & y & z & -> & _). discriminate.
  - cbn [app]. change (c :: r ++ m ++ body) with ((c :: r) ++ m ++ body).
    rewrite prefix_i_marker_app; auto; try discriminate.
    + destruct H as [_ H]. cbn [app]. now rewrite IH.
    + now apply free_of_head.
Qed.

Lemma split_body (records : list text) (body : text) :
  body_of records body -> re_split eor_pattern body = records.
Proof.
  induction 1 as [record Hf|record m records body Hf Hm Hb IH].
  - now apply split_free.
  - rewrite split_app_marker by assumption. now rewrite IH.
Qed.

Lemma search_free (xs s : text) : free_of xs s -> search_i xs s = None.
Proof.
  induction s as [|c r IH]; simpl; intros [-> H]; [reflexivity|auto].
Qed.

Lemma search_i_head (xs s r : text) :
  prefix_i xs s = Some r -> search_i xs s = Some r.
Proof. intros H. destruct s; simpl; now rewrite H. Qed.

Lemma search_i_tail (xs : text) (c : ascii) (s : text) :
  prefix_i xs (c :: s) = None -> search_i xs (c :: s) = search_i xs s.
Proof. intros H. cbn [search_i]. now rewrite H. Qed.

Lemma search_app_marker (header m body : text) :
  free_of "<EOH>" header -> spells "<EOH>" m ->
  search_i "<EOH>" (header ++ m ++ body) = Some body.
Proof.
  intros H Hm. induction header as [|c r IH].
  - apply search_i_head. now apply (spells_app _ m body).
  - change ((c :: r) ++ m ++ body) with (c :: (r ++ m ++ body)).
    rewrite search_i_tail.
    + destruct H as [_ H]. now apply IH.
    + change (c :: r ++ m ++ body) with ((c :: r) ++ m ++ body).
      apply prefix_i_marker_app; auto; try discriminate.
      now apply free_of_head.
Qed.

Lemma strip_header_file (records : list text) (content : text) :
  file_of records content ->
  exists body, strip_header content = body /\ body_of records body.
Proof.
  intros [header m body recs Hh Hm Hb|body recs Hf Hb]; exists body;
    rewrite strip_header_eq.
  - now rewrite search_app_marker.
  - now rewrite search_free.
Qed.

(* ------------------------------------------------------------------ *)
(** ** The matches of the field pattern *)

Lemma take_while_forallb (p : ascii -> bool) (s : text) :
  forallb p (take_while p s) = true.
Proof.
  induction s as [|c r IH]; simpl; [reflexivity|].
  destruct (p c) eqn:E; simpl; [now rewrite E|reflexivity].
Qed.

Lemma is_nil_false {A : Type} (l : list A) : is_nil l = false -> l <> [].
Proof. destruct l; [discriminate|discriminate]. Qed.

Lemma scan_field_good (s : text) m r :
  scan_field s = Some (m, r) -> good_match m.
Proof.
  unfold scan_field.
  destruct (expect "<" s) as [s1|]; [|discriminate].
  destruct (expect ":" (drop_while is_word s1)) as [s3|]; [|discriminate].
  destruct (is_nil (take_while is_word s1)); [discriminate|].
  destruct (is_nil (take_while is_digit s3)) eqn:E; [discriminate|].
  destruct (scan_tag_end _) as [s5|]; [|discriminate].
  intros [= <- _]. split; cbn [fst snd].
  - now apply is_nil_false.
  - apply take_while_forallb.
Qed.

Lemma finditer_good (s : text) :
  Forall good_match (re_finditer field_pattern s).
Proof.
  remember (length s) as n eqn:Hn.
  revert s Hn. induction n as [n IH] using lt_wf_ind. intros s Hn.
  rewrite finditer_field_eq. destruct s as [|c r]; [constructor|].
  destruct (scan_field (c :: r)) as [[m rest]|] eqn:E.
  - constructor; [eapply scan_field_good; eauto|].
    apply scan_field_length in E. eapply IH; [|reflexivity]. lia.
  - eapply IH; [|reflexivity]. simpl in Hn. lia.
Qed.

Lemma process_match_eq (doc : dict) (m : text * text * text) :
  good_match m ->
  process_match doc m =
  if length_ok m
  then if has_value m then store_field doc (field_name_of m) (field_value m)
       else Ok doc
  else Raise ValueError.
Proof.
  destruct m as [[g1 g2] g3]. intros [Hne Hd]. cbn [fst snd] in *.
  unfold process_match, length_ok, has_value, field_value, field_name_of,
    declared_length. cbn [fst snd].
  rewrite py_int_digits by assumption.
  destruct (_ <=? _)%nat; cbn [rbind]; [|reflexivity].
  now destruct (is_nil _).
Qed.

(** The fields of a segment, taken in order, never fail when the
    declared lengths are within the limit, and leave a document that is
    empty exactly when no field has a value. *)
Lemma for_each_fields (ms : list (text * text * text)) :
  Forall good_match ms -> forallb length_ok ms = true ->
  forall doc, date_is_str doc ->
  exists doc', for_each process_match ms doc = Ok doc'
               /\ date_is_str doc'
               /\ is_nil doc' = is_nil doc && negb (existsb has_value ms).
Proof.
  induction 1 as [|m ms Hm Hms IH]; intros Hl doc Hdoc.
  - exists doc. cbn. now rewrite andb_true_r.
  - cbn [forallb] in Hl. apply andb_prop in Hl. destruct Hl as [Hl1 Hl2].
    cbn [for_each existsb]. rewrite process_match_eq, Hl1 by assumption.
    destruct (has_value m) eqn:Hv.
    + destruct (store_field_ok doc (field_name_of m) (field_value m) Hdoc)
        as (doc1 & -> & Hdoc1 & Hnil1). cbn [rbind].
      destruct (IH Hl2 doc1 Hdoc1) as (doc' & -> & Hdoc' & Hnil').
      exists doc'. repeat split; auto. rewrite Hnil', Hnil1. cbn.
      now rewrite andb_false_r.
    + cbn [rbind]. destruct (IH Hl2 doc Hdoc) as (doc' & -> & Hdoc' & Hnil').
      exists doc'. repeat split; auto.
Qed.

Lemma parse_record_ok (record : text) :
  lengths_ok record = true ->
  exists doc, parse_record (strip record) = Ok doc
              /\ is_nil doc = negb (nonempty_record record).
Proof.
  intros Hl. unfold parse_record.
  destruct (for_each_fields (fields_of record) (finditer_good _) Hl [] I)
    as (doc & E & _ & Hnil).
  exists doc. split; [exact E|]. exact Hnil.
Qed.

(* ------------------------------------------------------------------ *)
(** ** The loop over the segments *)

Lemma blank_no_record (record : text) :
  blank record = true -> nonempty_record record = false.
Proof.
  unfold blank, nonempty_record, fields_of.
  destruct (strip record); [reflexivity|discriminate].
Qed.

Lemma parse_records_count (utcnow : nat -> datetime) (records : list text) :
  forallb lengths_ok records = true ->
  forall k, exists docs,
    parse_records utcnow k records = Ok docs
    /\ length docs = length (filter nonempty_record records)
    /\ Forall emitted docs.
Proof.
  induction records as [|record rest IH]; intros Hl k.
  - exists []. repeat split; constructor.
  - cbn [forallb] in Hl. apply andb_prop in Hl. destruct Hl as [Hl1 Hl2].
    cbn [parse_records filter].
    destruct (is_nil (strip record)) eqn:Hb.
    + rewrite (blank_no_record record Hb). apply IH, Hl2.
    + destruct (parse_record_ok record Hl1) as (doc & -> & Hnil). cbn [rbind].
      rewrite Hnil. destruct (nonempty_record record); cbn [negb].
      * destruct (IH Hl2 (S k)) as (docs & -> & Hlen & Hall). cbn [rbind].
        eexists. split; [reflexivity|]. split; [cbn; now rewrite Hlen|].
        constructor; [|exact Hall]. split; [apply dict_set_not_nil|].
        unfold dict_mem. now rewrite dict_get_set_same.
      * apply IH, Hl2.
Qed.

Lemma parse_records_stamp (utcnow : nat -> datetime) (records : list text) :
  forall k docs, parse_records utcnow k records = Ok docs ->
  forall i doc, nth_error docs i = Some doc ->
    dict_get doc "imported_at" = Some (VDatetime (utcnow (k + i))).
Proof.
  induction records as [|record rest IH]; intros k docs; cbn [parse_records].
  - intros [= <-] [|i] doc; discriminate.
  - destruct (is_nil (strip record)); [apply IH|].
    destruct (parse_record (strip record)) as [doc0|e]; cbn [rbind]; [|discriminate].
    destruct (is_nil doc0); [apply IH|].
    destruct (parse_records utcnow (S k) rest) as [docs'|e] eqn:E; cbn [rbind];
      [|discriminate].
    intros [= <-] [|i] doc; cbn [nth_error].
    + intros [= <-]. now rewrite dict_get_set_same, Nat.add_0_r.
    + intros H. rewrite (IH _ _ E _ _ H). do 3 f_equal. lia.
Qed.


(* ------------------------------------------------------------------ *)
(** ** Texts up to the spelling of their markers *)

Lemma marker_eq_refl (s : text) : marker_eq s s.
Proof. induction s; now constructor. Qed.

Lemma marker_eq_app (a m m' b xs : text) :
  xs = "<EOH>" \/ xs = "<EOR>" -> spells xs m -> spells xs m' ->
  marker_eq (a ++ m ++ b) (a ++ m' ++ b).
Proof.
  intros Hxs Hm Hm'. induction a as [|c a IH]; cbn [app].
  - eapply me_marker; eauto. apply marker_eq_refl.
  - now constructor.
Qed.

Lemma ci_twin (x a a' : ascii) :
  marker_letter x ->
  Ascii.eqb (lower_char a) (lower_char x) = true ->
  Ascii.eqb (lower_char a') (lower_char x) = true -> twin a a'.
Proof.
  intros Hx Ha Ha'. split; [|split; eapply ci_letter; eassumption].
  apply Ascii.eqb_eq in Ha, Ha'. congruence.
Qed.

Lemma spells_twin (xs m m' : text) :
  xs = "<EOH>" \/ xs = "<EOR>" -> spells xs m -> spells xs m' ->
  exists a b d a' b' d',
    m = ["<"%char; a; b; d; ">"%char] /\ m' = ["<"%char; a'; b'; d'; ">"%char]
    /\ twin a a' /\ twin b b' /\ twin d d'.
Proof.
  intros Hxs Hm Hm'.
  assert (exists x y z, xs = ["<"%char; x; y; z; ">"%char]
                        /\ marker_letter x /\ marker_letter y /\ marker_letter z)
    as (x & y & z & -> & Hx & Hy & Hz).
  { destruct Hxs as [-> | ->]; do 3 eexists; (split; [reflexivity|]);
      unfold marker_letter; repeat split; auto 6. }
  apply spells_inv in Hm, Hm'.
  destruct Hm as (a & b & d & -> & Ha & Hb & Hd).
  destruct Hm' as (a' & b' & d' & -> & Ha' & Hb' & Hd').
  exists a, b, d, a', b', d'.
  split; [reflexivity|]. split; [reflexivity|].
  split; [|split];
    [apply (ci_twin x)|apply (ci_twin y)|apply (ci_twin z)]; assumption.
Qed.

(** How two related texts start. *)
Lemma marker_eq_inv (s u : text) :
  marker_eq s u ->
  match s with
  | [] => u = []
  | c :: t =>
      (exists t', u = c :: t' /\ marker_eq t t')
      \/ (exists a b d a' b' d' r r',
            c = "<"%char /\ t = a :: b :: d :: ">"%char :: r
            /\ u = "<"%char :: a' :: b' :: d' :: ">"%char :: r'
            /\ twin a a' /\ twin b b' /\ twin d d' /\ marker_eq r r'
            /\ (forall seg seg', marker_eq seg seg' ->
                  marker_eq ("<"%char :: a :: b :: d :: ">"%char :: seg)
                            ("<"%char :: a' :: b' :: d' :: ">"%char :: seg')))
  end.
Proof.
  intros H. pose proof H as H0. destruct H as [|c s s' H|xs m m' s s' Hxs Hm Hm' H].
  - reflexivity.
  - left. eauto.
  - destruct (spells_twin xs m m' Hxs Hm Hm')
      as (a & b & d & a' & b' & d' & -> & -> & Ha & Hb & Hd).
    right. exists a, b, d, a', b', d', s, s'. repeat (split; [tauto|]).
    intros seg seg' Hseg.
    apply (me_marker xs ["<"%char; a; b; d; ">"%char]
                     ["<"%char; a'; b'; d'; ">"%char] seg seg'); assumption.
Qed.

Lemma marker_eq_nil (u : text) : marker_eq [] u -> u = [].
Proof. intros H. now apply marker_eq_inv in H. Qed.

Lemma marker_eq_is_nil (s u : text) : marker_eq s u -> is_nil s = is_nil u.
Proof.
  intros H. apply marker_eq_inv in H. destruct s as [|c t]; [now subst|].
  destruct H as [(t' & -> & _)|(a & b & d & a' & b' & d' & r & r' & _ & _ & -> & _)];
    reflexivity.
Qed.

Lemma marker_eq_length (s u : text) : marker_eq s u -> length s = length u.
Proof.
  induction 1 as [|c s s' H IH|xs m m' s s' Hxs Hm Hm' H IH]; cbn; [reflexivity|lia|].
  destruct (spells_twin xs m m' Hxs Hm Hm')
    as (a & b & d & a' & b' & d' & -> & -> & _). cbn. lia.
Qed.

Lemma prefix_i_cons (x : ascii) (xs : text) (c : ascii) (r : text) :
  prefix_i (x :: xs) (c :: r)
  = if Ascii.eqb (lower_char c) (lower_char x) then prefix_i xs r else None.
Proof. reflexivity. Qed.

Lemma prefix_i_no_lt_rel (xs : text) :
  no_lt xs = true ->
  forall t t', marker_eq t t' -> rel_opt (prefix_i xs t) (prefix_i xs t').
Proof.
  induction xs as [|x xs IH]; intros Hxs t t' H; [exact H|].
  unfold no_lt in Hxs. cbn [forallb] in Hxs.
  apply andb_prop in Hxs. destruct Hxs as [Hx Hxs]. apply negb_true_iff in Hx.
  apply marker_eq_inv in H. destruct t as [|c r]; [now subst|].
  destruct H as [(r' & -> & H)
                |(a & b & d & a' & b' & d' & r0 & r0' & -> & _ & -> & _)];
    cbn [prefix_i].
  - destruct (Ascii.eqb (lower_char c) (lower_char x)); [now apply IH|exact I].
  - rewrite Hx. exact I.
Qed.

Lemma prefix_i_marker_rel (xs s u : text) :
  xs = "<EOH>" \/ xs = "<EOR>" -> marker_eq s u ->
  rel_opt (prefix_i xs s) (prefix_i xs u).
Proof.
  intros Hxs H.
  assert (exists x y z, xs = "<"%char :: [x; y; z; ">"%char]
                        /\ no_lt [x; y; z; ">"%char] = true)
    as (x & y & z & -> & Hno).
  { destruct Hxs as [-> | ->]; do 3 eexists; split; reflexivity. }
  apply marker_eq_inv in H. destruct s as [|c t]; [now subst|].
  destruct H as [(t' & -> & H)
                |(a & b & d & a' & b' & d' & r & r' & -> & -> & -> &
                  (Ea & _) & (Eb & _) & (Ed & _) & H & _)].
  - rewrite !prefix_i_cons.
    destruct (Ascii.eqb (lower_char c) (lower_char "<"));
      [now apply prefix_i_no_lt_rel|exact I].
  - cbn [prefix_i]. rewrite Ea, Eb, Ed.
    repeat match goal with
           | |- context [if ?t then _ else _] => destruct t
           end; try exact I. exact H.
Qed.

Lemma prefix_i_skip (xs : text) (c : ascii) (t : text) :
  xs = "<EOH>" \/ xs = "<EOR>" ->
  Ascii.eqb (lower_char c) (lower_char "<") = false ->
  prefix_i xs (c :: t) = None.
Proof.
  intros [-> | ->] H.
  - change (list_ascii_of_string "<EOH>")
      with ("<"%char :: list_ascii_of_string "EOH>").
    cbn [prefix_i]. now rewrite H.
  - change (list_ascii_of_string "<EOR>")
      with ("<"%char :: list_ascii_of_string "EOR>").
    cbn [prefix_i]. now rewrite H.
Qed.

Lemma gt_not_lt : Ascii.eqb (lower_char ">") (lower_char "<") = false.
Proof. reflexivity. Qed.

(** The characters of a marker after its [<] start no marker. *)
Lemma prefix_i_skip_letters (xs : text) (a b d : ascii) (r : text) :
  xs = "<EOH>" \/ xs = "<EOR>" ->
  letter_like a -> letter_like b -> letter_like d ->
  prefix_i xs (a :: b :: d :: ">"%char :: r) = None
  /\ prefix_i xs (b :: d :: ">"%char :: r) = None
  /\ prefix_i xs (d :: ">"%char :: r) = None
  /\ prefix_i xs (">"%char :: r) = None.
Proof.
  intros Hxs (_ & _ & _ & Ha) (_ & _ & _ & Hb) (_ & _ & _ & Hd).
  repeat split; apply prefix_i_skip; auto using gt_not_lt.
Qed.

Lemma search_rel (n : nat) :
  forall s u, length s <= n -> marker_eq s u ->
    rel_opt (search_i "<EOH>" s) (search_i "<EOH>" u).
Proof.
  induction n as [|n IH]; intros s u Hn H.
  - destruct s; [|cbn in Hn; lia]. apply marker_eq_nil in H. now subst.
  - pose proof (prefix_i_marker_rel "<EOH>" s u (or_introl eq_refl) H) as Hp.
    destruct (prefix_i "<EOH>" s) as [rest|] eqn:E1;
      destruct (prefix_i "<EOH>" u) as [rest'|] eqn:E2; try contradiction.
    + now rewrite (search_i_head _ _ _ E1), (search_i_head _ _ _ E2).
    + apply marker_eq_inv in H. destruct s as [|c t]; [now subst|].
      cbn [length] in Hn.
      destruct H as [(t' & -> & H)
                    |(a & b & d & a' & b' & d' & r & r' & -> & -> & -> &
                      (_ & Ha & Ha') & (_ & Hb & Hb') & (_ & Hd & Hd') & H & _)].
      * rewrite (search_i_tail _ _ _ E1), (search_i_tail _ _ _ E2).
        apply IH; [lia|exact H].
      * rewrite (search_i_tail _ _ _ E1), (search_i_tail _ _ _ E2).
        destruct (prefix_i_skip_letters "<EOH>" a b d r (or_introl eq_refl) Ha Hb Hd)
          as (P1 & P2 & P3 & P4).
        destruct (prefix_i_skip_letters "<EOH>" a' b' d' r' (or_introl eq_refl)
                    Ha' Hb' Hd') as (Q1 & Q2 & Q3 & Q4).
        rewrite !search_i_tail by assumption.
        apply IH; [cbn [length] in Hn; lia|exact H].
Qed.

Lemma strip_header_rel (s u : text) :
  marker_eq s u -> marker_eq (strip_header s) (strip_header u).
Proof.
  intros H. rewrite !strip_header_eq.
  pose proof (search_rel (length s) s u (le_n _) H) as Hs.
  destruct (search_i "<EOH>" s), (search_i "<EOH>" u); try contradiction; auto.
Qed.

Lemma cons_head_rel (c : ascii) (l l' : list text) :
  Forall2 marker_eq l l' -> Forall2 marker_eq (cons_head c l) (cons_head c l').
Proof.
  intros [|seg seg' l0 l0' H HF]; cbn.
  - constructor; [apply marker_eq_refl|constructor].
  - constructor; [now constructor|exact HF].
Qed.

Lemma split_skip (c : ascii) (t : text) :
  prefix_i "<EOR>" (c :: t) = None ->
  re_split eor_pattern (c :: t) = cons_head c (re_split eor_pattern t).
Proof. intros H. rewrite split_eor_eq at 1. now rewrite H. Qed.

Lemma split_rel (n : nat) :
  forall s u, length s <= n -> marker_eq s u ->
    Forall2 marker_eq (re_split eor_pattern s) (re_split eor_pattern u).
Proof.
  induction n as [|n IH]; intros s u Hn H.
  - destruct s; [|cbn in Hn; lia]. apply marker_eq_nil in H. subst.
    repeat constructor.
  - pose proof (prefix_i_marker_rel "<EOR>" s u (or_intror eq_refl) H) as Hp.
    pose proof H as H0.
    apply marker_eq_inv in H. destruct s as [|c t].
    { subst. repeat constructor. }
    cbn [length] in Hn.
    destruct (prefix_i "<EOR>" (c :: t)) as [rest|] eqn:E1.
    + assert (exists c' t', u = c' :: t') as (c' & t' & ->).
      { destruct H as [(t' & -> & _)|(a & b & d & a' & b' & d' & r & r' & _ & _ & -> & _)];
          eauto. }
      destruct (prefix_i "<EOR>" (c' :: t')) as [rest'|] eqn:E2; [|contradiction].
      rewrite (split_eor_eq (c :: t)), (split_eor_eq (c' :: t')), E1, E2.
      constructor; [constructor|].
      apply IH; [|exact Hp]. apply prefix_i_length in E1. cbn in E1. lia.
    + destruct H as [(t' & -> & H)
                    |(a & b & d & a' & b' & d' & r & r' & -> & -> & -> &
                      (_ & Ha & Ha') & (_ & Hb & Hb') & (_ & Hd & Hd') & H & Hmk)].
      * destruct (prefix_i "<EOR>" (c :: t')) eqn:E2; [contradiction|].
        rewrite !split_skip by assumption.
        apply cons_head_rel, IH; [lia|exact H].
      * destruct (prefix_i "<EOR>" ("<"%char :: a' :: b' :: d' :: ">"%char :: r'))
          eqn:E2; [contradiction|].
        destruct (prefix_i_skip_letters "<EOR>" a b d r (or_intror eq_refl) Ha Hb Hd)
          as (P1 & P2 & P3 & P4).
        destruct (prefix_i_skip_letters "<EOR>" a' b' d' r' (or_intror eq_refl)
                    Ha' Hb' Hd') as (Q1 & Q2 & Q3 & Q4).
        rewrite !split_skip by assumption.
        assert (HF : Forall2 marker_eq (re_split eor_pattern r)
                                      (re_split eor_pattern r')).
        { apply IH; [cbn [length] in Hn; lia|exact H]. }
        destruct HF as [|seg seg' l l' Hseg HF]; cbn [cons_head].
        -- constructor; [apply Hmk; constructor|constructor].
        -- constructor; [now apply Hmk|exact HF].
Qed.

Lemma drop_while_rel (p : ascii -> bool) (s u : text) :
  p "<"%char = false -> marker_eq s u ->
  take_while p s = take_while p u /\ marker_eq (drop_while p s) (drop_while p u).
Proof.
  intros Hp H. induction H as [|c s s' H IH|xs m m' s s' Hxs Hm Hm' H IH].
  - split; constructor.
  - cbn [take_while drop_while]. destruct (p c).
    + destruct IH as [-> IH]. auto.
    + split; [reflexivity|now constructor].
  - destruct (spells_twin xs m m' Hxs Hm Hm')
      as (a & b & d & a' & b' & d' & Em & Em' & _).
    pose proof (me_marker xs m m' s s' Hxs Hm Hm' H) as HM.
    subst m m'. cbn [app take_while drop_while] in *. rewrite Hp. auto.
Qed.

Lemma drop_while_end_keep (p : ascii -> bool) (c : ascii) (r : text) :
  p c = false -> drop_while_end p (c :: r) = c :: drop_while_end p r.
Proof. intros H. cbn. rewrite H. now destruct (drop_while_end p r). Qed.

Lemma drop_while_end_rel (s u : text) :
  marker_eq s u ->
  marker_eq (drop_while_end is_space s) (drop_while_end is_space u).
Proof.
  intros H. induction H as [|c s s' H IH|xs m m' s s' Hxs Hm Hm' H IH].
  - constructor.
  - cbn [drop_while_end].
    pose proof (marker_eq_is_nil _ _ IH) as Hnil.
    destruct (drop_while_end is_space s) as [|x r];
      destruct (drop_while_end is_space s') as [|x' r']; try discriminate.
    + apply marker_eq_refl.
    + now constructor.
  - destruct (spells_twin xs m m' Hxs Hm Hm')
      as (a & b & d & a' & b' & d' & Em & Em' &
          (_ & (_ & Ha & _) & (_ & Ha' & _)) & (_ & (_ & Hb & _) & (_ & Hb' & _))
          & (_ & (_ & Hd & _) & (_ & Hd' & _))).
    pose proof (me_marker xs m m' _ _ Hxs Hm Hm' IH) as HM.
    subst m m'. cbn [app] in *.
    rewrite !drop_while_end_keep by (assumption || reflexivity). exact HM.
Qed.

Lemma strip_rel (s u : text) : marker_eq s u -> marker_eq (strip s) (strip u).
Proof.
  intros H. unfold strip. apply drop_while_end_rel.
  now apply drop_while_rel.
Qed.

Lemma expect_rel (x : ascii) (s u : text) :
  x <> "<"%char -> marker_eq s u -> rel_opt (expect x s) (expect x u).
Proof.
  intros Hx H. apply marker_eq_inv in H. destruct s as [|c t]; [now subst|].
  destruct H as [(t' & -> & H)
                |(a & b & d & a' & b' & d' & r & r' & -> & _ & -> & _)]; cbn [expect].
  - destruct (Ascii.eqb x c); [exact H|exact I].
  - destruct (Ascii.eqb_spec x "<"); [contradiction|exact I].
Qed.

Lemma scan_tag_end_rel (s u : text) :
  marker_eq s u -> rel_opt (scan_tag_end s) (scan_tag_end u).
Proof.
  intros H. unfold scan_tag_end.
  pose proof (expect_rel ">" s u ltac:(discriminate) H) as H1.
  destruct (expect ">" s), (expect ">" u); try contradiction; [exact H1|].
  pose proof (expect_rel ":" s u ltac:(discriminate) H) as H2.
  destruct (expect ":" s) as [w|], (expect ":" u) as [w'|]; try contradiction;
    [|exact I].
  apply marker_eq_inv in H2. destruct w as [|c r]; [now subst|].
  destruct H2 as [(r' & -> & H2)
                 |(a & b & d & a' & b' & d' & r0 & r0' & -> & _ & -> & _)].
  - destruct (is_word c); [|exact I]. now apply expect_rel.
  - exact I.
Qed.

(** The field read at the head of two related texts: the same groups,
    related remainders. *)
Lemma scan_field_rel (s u : text) :
  marker_eq s u ->
  match scan_field s, scan_field u with
  | Some (m, rest), Some (m', rest') => m = m' /\ marker_eq rest rest'
  | None, None => True
  | _, _ => False
  end.
Proof.
  intros H. apply marker_eq_inv in H. destruct s as [|c t]; [now subst|].
  destruct H as [(t' & -> & H)
                |(a & b & d & a' & b' & d' & r & r' & -> & -> & -> &
                  (_ & (Ha & _) & (Ha' & _)) & (_ & (Hb & _) & (Hb' & _))
                  & (_ & (Hd & _) & (Hd' & _)) & _)].
  - unfold scan_field. cbn [expect]. destruct (Ascii.eqb "<" c); [|exact I].
    destruct (drop_while_rel is_word t t' eq_refl H) as [<- H1].
    pose proof (expect_rel ":" _ _ ltac:(discriminate) H1) as H2.
    destruct (expect ":" (drop_while is_word t)) as [s3|],
             (expect ":" (drop_while is_word t')) as [s3'|]; try contradiction;
      [|exact I].
    destruct (drop_while_rel is_digit s3 s3' eq_refl H2) as [<- H3].
    destruct (_ || _); [exact I|].
    pose proof (scan_tag_end_rel _ _ H3) as H4.
    destruct (scan_tag_end (drop_while is_digit s3)) as [s5|],
             (scan_tag_end (drop_while is_digit s3')) as [s5'|]; try contradiction;
      [|exact I].
    destruct (drop_while_rel not_lt s5 s5' eq_refl H4) as [<- H5]. auto.
  - unfold scan_field. cbn [expect Ascii.eqb Bool.eqb].
    cbn [take_while drop_while]. rewrite Ha, Hb, Hd, Ha', Hb', Hd'.
    cbn. exact I.
Qed.

Lemma scan_field_skip (c : ascii) (t : text) :
  Ascii.eqb "<" c = false -> scan_field (c :: t) = None.
Proof. intros H. unfold scan_field. cbn [expect]. now rewrite H. Qed.

Lemma finditer_skip (c : ascii) (t : text) :
  scan_field (c :: t) = None ->
  re_finditer field_pattern (c :: t) = re_finditer field_pattern t.
Proof. intros H. rewrite finditer_field_eq at 1. now rewrite H. Qed.

Lemma finditer_rel (n : nat) :
  forall s u, length s <= n -> marker_eq s u ->
    re_finditer field_pattern s = re_finditer field_pattern u.
Proof.
  induction n as [|n IH]; intros s u Hn H.
  - destruct s; [|cbn in Hn; lia]. apply marker_eq_nil in H. now subst.
  - pose proof (scan_field_rel s u H) as Hs.
    apply marker_eq_inv in H. destruct s as [|c t]; [now subst|].
    cbn [length] in Hn.
    destruct (scan_field (c :: t)) as [[m rest]|] eqn:E1.
    + assert (exists c' t', u = c' :: t') as (c' & t' & ->).
      { destruct H as [(t' & -> & _)|(a & b & d & a' & b' & d' & r & r' & _ & _ & -> & _)];
          eauto. }
      destruct (scan_field (c' :: t')) as [[m' rest']|] eqn:E2; [|contradiction].
      destruct Hs as [<- Hs].
      rewrite (finditer_field_eq (c :: t)), (finditer_field_eq (c' :: t')), E1, E2.
      f_equal. apply IH; [|exact Hs]. apply scan_field_length in E1. cbn in E1. lia.
    + destruct H as [(t' & -> & H)
                    |(a & b & d & a' & b' & d' & r & r' & -> & -> & -> &
                      (_ & Ha & Ha') & (_ & Hb & Hb') & (_ & Hd & Hd') & H & _)].
      * destruct (scan_field (c :: t')) as [[? ?]|] eqn:E2; [contradiction|].
        rewrite !finditer_skip by assumption. apply IH; [lia|exact H].
      * destruct (scan_field ("<"%char :: a' :: b' :: d' :: ">"%char :: r'))
          as [[? ?]|] eqn:E2; [contradiction|].
        destruct Ha as (_ & _ & Ha & _), Hb as (_ & _ & Hb & _),
                 Hd as (_ & _ & Hd & _), Ha' as (_ & _ & Ha' & _),
                 Hb' as (_ & _ & Hb' & _), Hd' as (_ & _ & Hd' & _).
        rewrite !finditer_skip
          by (assumption || (apply scan_field_skip; (assumption || reflexivity))).
        apply IH; [cbn [length] in Hn; lia|exact H].
Qed.

Lemma parse_records_rel (utcnow : nat -> datetime) (records records' : list text) :
  Forall2 marker_eq records records' ->
  forall k, parse_records utcnow k records = parse_records utcnow k records'.
Proof.
  induction 1 as [|record record' rest rest' H HF IH]; intros k; [reflexivity|].
  cbn [parse_records]. apply strip_rel in H.
  rewrite (marker_eq_is_nil _ _ H). unfold parse_record.
  rewrite (finditer_rel (length (strip record)) _ _ (le_n _) H).
  destruct (is_nil (strip record')); [apply IH|].
  destruct (for_each _ _ _); cbn [rbind]; [|reflexivity].
  destruct (is_nil a); [apply IH|]. now rewrite IH.
Qed.

Lemma parse_adif_rel (utcnow : nat -> datetime) (s u : text) :
  marker_eq s u -> parse_adif utcnow s = parse_adif utcnow u.
Proof.
  intros H. unfold parse_adif. apply parse_records_rel.
  apply (split_rel (length (strip_header s))); [apply le_n|].
  now apply strip_header_rel.
Qed.

(* ================================================================== *)
(** * The claims *)

(* ------------------------------------------------------------------ *)
(** ** The batches of the loader *)

Lemma ceil_div_0 (d : nat) : 0 < d -> ceil_div 0 d = 0.
Proof. intros H. unfold ceil_div. apply Nat.div_small. lia. Qed.

Lemma ceil_div_step (n d : nat) :
  0 < d -> 0 < n -> ceil_div n d = S (ceil_div (n - d) d).
Proof.
  intros Hd Hn. unfold ceil_div.
  destruct (Nat.lt_ge_cases n d) as [H|H].
  - replace (n - d) with 0 by lia. rewrite (Nat.div_small (0 + d - 1)) by lia.
    replace (n + d - 1) with ((n - 1) + 1 * d) by lia.
    rewrite Nat.div_add by lia. rewrite Nat.div_small by lia. reflexivity.
  - replace (n + d - 1) with ((n - d + d - 1) + 1 * d) by lia.
    rewrite Nat.div_add by lia. lia.
Qed.

Lemma ceil_div_bound (n d : nat) : 0 < d -> n <= ceil_div n d * d.
Proof.
  intros Hd. unfold ceil_div.
  pose proof (Nat.div_mod_eq (n + d - 1) d) as E.
  pose proof (Nat.mod_upper_bound (n + d - 1) d ltac:(lia)) as B. nia.
Qed.

Lemma range_fuel_closed (step stop : nat) :
  0 < step ->
  forall fuel start, stop - start <= fuel ->
    range_fuel fuel start stop step
    = map (fun j => start + j * step) (seq 0 (ceil_div (stop - start) step)).
Proof.
  intros Hs. induction fuel as [|fuel IH]; intros start Hf.
  - replace (stop - start) with 0 by lia. now rewrite ceil_div_0.
  - cbn [range_fuel]. destruct (Nat.ltb_spec start stop) as [H|H].
    + rewrite (ceil_div_step (stop - start) step) by lia.
      cbn [seq map]. rewrite Nat.add_0_r. f_equal.
      rewrite IH by lia. rewrite <- seq_shift, map_map.
      replace (stop - (start + step)) with (stop - start - step) by lia.
      apply map_ext. intros j. lia.
    + replace (stop - start) with 0 by lia. now rewrite ceil_div_0.
Qed.

Lemma py_range_closed (stop step : nat) :
  0 < step ->
  py_range 0 stop step = map (fun j => j * step) (seq 0 (ceil_div stop step)).
Proof.
  intros Hs. unfold py_range. rewrite range_fuel_closed by lia.
  now rewrite Nat.sub_0_r.
Qed.

Lemma firstn_plus {A : Type} (a b : nat) (l : list A) :
  firstn (a + b) l = firstn a l ++ firstn b (skipn a l).
Proof.
  revert l. induction a as [|a IH]; intros l; [reflexivity|].
  destruct l as [|x l]; cbn; [now rewrite firstn_nil|]. now rewrite IH.
Qed.

Lemma slice_length {A : Type} (l : list A) (i step : nat) :
  length (slice l i (i + step)) = Nat.min step (length l - i).
Proof.
  unfold slice. replace (i + step - i) with step by lia.
  now rewrite length_firstn, length_skipn.
Qed.

Lemma concat_slices {A : Type} (l : list A) (step k : nat) :
  concat (map (fun j => slice l (j * step) (j * step + step)) (seq 0 k))
  = firstn (k * step) l.
Proof.
  induction k as [|k IH]; [reflexivity|].
  rewrite seq_S, map_app, concat_app, IH. cbn [map concat plus].
  rewrite app_nil_r. unfold slice.
  replace (k * step + step - k * step) with step by lia.
  replace (S k * step) with (k * step + step) by lia.
  now rewrite firstn_plus.
Qed.

Section LoaderProps.
Context {Store Id : Type}.
Variable insert_many : Store -> list dict -> Store * result (list Id).
Hypothesis Hack : acknowledges insert_many.

Variable records : list dict.
Let total := length records.

(** From the [j0]-th batch on, with the documents of the batches before
    it already counted, [k] more batches are written one after the
    other. *)
Lemma insert_batches_from (k : nat) :
  forall j0 collection,
    (forall j, j < j0 + k -> j * batch_size < total) ->
    exists tr collection',
      insert_batches insert_many records total
        (map (fun j => j * batch_size) (seq j0 k)) collection
        (Nat.min (j0 * batch_size) total)
      = (tr, collection', Ok (Nat.min ((j0 + k) * batch_size) total))
      /\ inserts tr
         = map (fun j => slice records (j * batch_size) (j * batch_size + batch_size))
               (seq j0 k)
      /\ printed tr
         = map (fun j => progress_line
                           (Nat.min (j * batch_size + batch_size) total) total)
               (seq j0 k).
Proof.
  induction k as [|k IH]; intros j0 collection Hlt.
  - exists [], collection. rewrite Nat.add_0_r. repeat split.
  - cbn [seq map insert_batches].
    set (batch := slice records (j0 * batch_size) (j0 * batch_size + batch_size)).
    pose proof (Hlt j0 ltac:(lia)) as Hj0.
    assert (Hbl : length batch = Nat.min batch_size (total - j0 * batch_size)).
    { apply slice_length. }
    assert (Hne : batch <> []).
    { intros E. rewrite E in Hbl. unfold batch_size in *. cbn [length] in Hbl. lia. }
    destruct (Hack collection batch Hne) as (ids & Eids & Hlen).
    destruct (insert_many collection batch) as [collection1 r]. cbn in Eids.
    subst r.
    assert (Hinv : Nat.min (j0 * batch_size) total + length ids
                   = Nat.min (S j0 * batch_size) total).
    { rewrite Hlen, Hbl. unfold batch_size in *. lia. }
    rewrite Hinv.
    destruct (IH (S j0) collection1) as (tr & collection' & -> & Hins & Hpr).
    { intros j Hj. apply Hlt. lia. }
    eexists. eexists. split.
    + replace (j0 + S k) with (S j0 + k) by lia. reflexivity.
    + cbn [inserts printed]. rewrite Hins, Hpr. split; [reflexivity|].
      f_equal. f_equal. unfold batch_size. lia.
Qed.
End LoaderProps.

Lemma ceil_div_lt (n d j : nat) : 0 < d -> j < ceil_div n d -> j * d < n.
Proof.
  intros Hd Hj. unfold ceil_div in Hj.
  assert (H : S j * d <= n + d - 1).
  { etransitivity; [apply Nat.mul_le_mono_r, Hj|].
    rewrite Nat.mul_comm. apply Nat.Div0.mul_div_le. }
  nia.
Qed.

Lemma inserts_app (tr tr' : list event) : inserts (tr ++ tr') = inserts tr ++ inserts tr'.
Proof.
  induction tr as [|[line|batch|] tr IH]; cbn; rewrite ?IH; reflexivity.
Qed.

Lemma printed_app (tr tr' : list event) : printed (tr ++ tr') = printed tr ++ printed tr'.
Proof.
  induction tr as [|[line|batch|] tr IH]; cbn; rewrite ?IH; reflexivity.
Qed.

Lemma list_insert_many_acknowledges : acknowledges list_insert_many.
Proof.
  intros collection batch _. eexists. split; [reflexivity|apply length_seq].
Qed.

(** C2.  Against a store that acknowledges its writes, the loader turns
    [N > 0] parsed records into [ceil(N / 100)] calls of insert-many, on
    the consecutive slices [records[100 j : 100 j + 100]], which put end to
    end are the records and whose sizes sum to [N]; after each batch it
    prints the count so far and at the end the total.  For [N = 250] the
    batches have 100, 100 and 50 records and the last count printed is
    250. *)
Theorem C2_batches {Store Id : Type}
    (insert_many : Store -> list dict -> Store * result (list Id))
    (records : list dict) (collection : Store) :
  acknowledges insert_many ->
  0 < length records ->
  exists tr collection',
    load insert_many records collection = (tr, collection', Ok tt)
    /\ inserts tr
       = map (fun j => slice records (j * 100) (j * 100 + 100))
             (seq 0 (ceil_div (length records) 100))
    /\ length (inserts tr) = ceil_div (length records) 100
    /\ concat (inserts tr) = records
    /\ list_sum (map (@length dict) (inserts tr)) = length records
    /\ printed tr
       = found_line (length records)
         :: map (fun j => progress_line (Nat.min (j * 100 + 100) (length records))
                                        (length records))
                (seq 0 (ceil_div (length records) 100))
         ++ [success_line (length records)]
    /\ (length records = 250 ->
        map (@length dict) (inserts tr) = [100; 100; 50]
        /\ printed tr = [found_line 250; progress_line 100 250;
                         progress_line 200 250; progress_line 250 250;
                         success_line 250]).
Proof.
  intros Hack Hpos. unfold load.
  destruct (Nat.ltb_spec 0 (length records)) as [_|]; [|lia].
  rewrite py_range_closed by (unfold batch_size; lia).
  set (k := ceil_div (length records) batch_size).
  destruct (insert_batches_from insert_many Hack records k 0 collection)
    as (tr & collection' & E & Hins & Hpr).
  { intros j Hj. apply ceil_div_lt; [unfold batch_size; lia|exact Hj]. }
  change (Nat.min (0 * batch_size) (length records)) with 0 in E.
  rewrite E. cbn [plus] in *.
  assert (Hfin : Nat.min (k * batch_size) (length records) = length records).
  { pose proof (ceil_div_bound (length records) batch_size
                  ltac:(unfold batch_size; lia)). fold k in H. lia. }
  rewrite Hfin.
  assert (Hcat : concat (inserts tr) = records).
  { rewrite Hins, concat_slices. apply firstn_all2.
    pose proof (ceil_div_bound (length records) batch_size
                  ltac:(unfold batch_size; lia)). fold k in H. lia. }
  assert (Hins' : inserts (Print (found_line (length records))
                           :: tr ++ [Print (success_line (length records)); Close])
                  = inserts tr).
  { cbn [inserts]. rewrite inserts_app. cbn. apply app_nil_r. }
  assert (Hpr' : printed (Print (found_line (length records))
                          :: tr ++ [Print (success_line (length records)); Close])
                 = found_line (length records)
                   :: printed tr ++ [success_line (length records)]).
  { cbn [printed]. now rewrite printed_app. }
  eexists. eexists. split; [reflexivity|].
  rewrite Hins', Hpr'.
  split; [exact Hins|]. split; [now rewrite Hins, length_map, length_seq|].
  split; [exact Hcat|].
  split; [now rewrite <- length_concat, Hcat|].
  split; [now rewrite Hpr|].
  intros H250. rewrite Hpr, Hins. unfold k. rewrite H250.
  change (ceil_div 250 batch_size) with 3. cbn [seq map app].
  rewrite !slice_length, H250. split; reflexivity.
Qed.

Lemma C2_batches_witness :
  acknowledges list_insert_many
  /\ 0 < length (sample_records 250)
  /\ exists tr collection',
       load list_insert_many (sample_records 250) [] = (tr, collection', Ok tt)
       /\ map (@length dict) (inserts tr) = [100; 100; 50].
Proof.
  split; [exact list_insert_many_acknowledges|].
  split; [vm_compute; lia|].
  destruct (C2_batches list_insert_many (sample_records 250) []
              list_insert_many_acknowledges ltac:(vm_compute; lia))
    as (tr & collection' & E & _ & _ & _ & _ & _ & H250).
  exists tr, collection'. split; [exact E|]. apply H250. reflexivity.
Defined.


(** C8.  When no record is parsed the run writes nothing: it prints the
    count, zero, and the message that no records were found, which is not
    the message of a successful import, and closes the connection. *)
Theorem C8_no_records {Store Id : Type}
    (insert_many : Store -> list dict -> Store * result (list Id))
    (utcnow : nat -> datetime) (content : text) (collection : Store) :
  parse_adif utcnow content = Ok [] ->
  main insert_many utcnow content collection
  = ([Print parsing_line; Print (found_line 0); Print no_records_line; Close],
     collection, Ok tt)
  /\ inserts (fst (fst (main insert_many utcnow content collection))) = []
  /\ In no_records_line
        (printed (fst (fst (main insert_many utcnow content collection))))
  /\ (forall n, ~ In (success_line n)
                     (printed (fst (fst (main insert_many utcnow content collection)))))
  /\ snd (fst (main insert_many utcnow content collection)) = collection.
Proof.
  intros H. unfold main. rewrite H. cbn [load length Nat.ltb Nat.leb fst snd inserts printed].
  repeat split.
  - cbn. auto.
  - intros n [E|[E|[E|[]]]]; discriminate E.
Qed.

Lemma C8_no_records_witness :
  parse_adif sample_clock "ADIF export <eoh>  <eor> " = Ok []
  /\ inserts (fst (fst (main list_insert_many sample_clock
                             "ADIF export <eoh>  <eor> " []))) = [].
Proof.
  split; [vm_compute; reflexivity|].
  apply (C8_no_records list_insert_many sample_clock "ADIF export <eoh>  <eor> " []).
  vm_compute. reflexivity.
Defined.

(** C9.  In every record that the parser emits, [imported_at] holds the
    reading of the clock taken when the record was emitted, whatever the
    source said under that name: the [k]-th record holds the [k]-th
    reading. *)
Theorem C9_imported_at (utcnow : nat -> datetime) (content : text)
    (docs : list dict) (k : nat) (doc : dict) :
  parse_adif utcnow content = Ok docs ->
  nth_error docs k = Some doc ->
  dict_get doc "imported_at" = Some (VDatetime (utcnow k)).
Proof.
  unfold parse_adif. intros H Hk.
  exact (parse_records_stamp utcnow _ 0 docs H k doc Hk).
Qed.

Lemma C9_imported_at_witness :
  parse_adif sample_clock "<Imported_At:3>abc<call:4>W1AW<eor><IMPORTED_AT:1>x"
  = Ok [[("imported_at" : text, VDatetime (sample_clock 0));
         ("call" : text, VStr "W1AW")];
        [("imported_at" : text, VDatetime (sample_clock 1))]]
  /\ dict_get [("imported_at" : text, VDatetime (sample_clock 1))] "imported_at"
     = Some (VDatetime (sample_clock 1)).
Proof.
  split; [vm_compute; reflexivity|].
  apply (C9_imported_at sample_clock
           "<Imported_At:3>abc<call:4>W1AW<eor><IMPORTED_AT:1>x"
           [[("imported_at" : text, VDatetime (sample_clock 0));
             ("call" : text, VStr "W1AW")];
            [("imported_at" : text, VDatetime (sample_clock 1))]] 1).
  - vm_compute. reflexivity.
  - reflexivity.
Defined.

(** C10.  A [time_on] field with a value is stored as a text under its
    own name, and touches at most one other entry, [qso_datetime]: that
    entry changes only when the document already holds an eight character
    [qso_date] and the time has at least four characters, and keeps
    what it had when either condition fails. *)
Theorem C10_time_on_frame (doc : dict) (value : text) :
  date_is_str doc ->
  exists doc',
    store_field doc "time_on" value = Ok doc'
    /\ dict_get doc' "time_on" = Some (VStr value)
    /\ (dict_get doc' "qso_datetime" <> dict_get doc "qso_datetime" ->
        exists date_str,
          dict_get doc "qso_date" = Some (VStr date_str)
          /\ length date_str = 8 /\ 4 <= length value)
    /\ ((forall date_str, dict_get doc "qso_date" = Some (VStr date_str) ->
                          length date_str <> 8)
        \/ length value < 4 ->
        dict_get doc' "qso_datetime" = dict_get doc "qso_datetime")
    /\ (forall k : text, k <> "time_on" -> k <> "qso_datetime" ->
                         dict_get doc' k = dict_get doc k).
Proof.
  intros Hdoc.
  destruct (store_field_spec doc "time_on" value Hdoc) as (doc2 & E & Hdoc2).
  rewrite (stored_value_str "time_on") in E by reflexivity.
  eexists. split; [exact E|]. split; [apply dict_get_set_same|].
  assert (Hcases :
            doc2 = doc
            \/ exists d date_str,
                 dict_get doc "qso_date" = Some (VStr date_str)
                 /\ length date_str = 8 /\ 4 <= length value
                 /\ doc2 = dict_set doc "qso_datetime" (VDatetime d)).
  { destruct Hdoc2 as [->|[(d & Hf & _)|(d & ds & _ & Hg & H8 & H4 & _ & ->)]].
    - now left.
    - discriminate Hf.
    - right. now exists d, ds. }
  split; [|split].
  - rewrite dict_get_set_other by discriminate. intros Hne.
    destruct Hcases as [->|(d & ds & Hg & H8 & H4 & _)]; [contradiction|].
    now exists ds.
  - rewrite dict_get_set_other by discriminate. intros Hfail.
    destruct Hcases as [->|(d & ds & Hg & H8 & H4 & _)]; [reflexivity|].
    destruct Hfail as [Hfail|Hfail]; [now apply Hfail in Hg|lia].
  - intros k Hk1 Hk2.
    rewrite dict_get_set_other by (intros Ek; apply Hk1; now symmetry).
    destruct Hcases as [->|(d & ds & _ & _ & _ & ->)]; [reflexivity|].
    rewrite dict_get_set_other; [reflexivity|]. intros Ek; apply Hk2; now symmetry.
Qed.

Lemma C10_time_on_frame_witness :
  date_is_str [("qso_date" : text, VStr "2024011")]
  /\ exists doc',
       store_field [("qso_date" : text, VStr "2024011")] "time_on" "1430" = Ok doc'
       /\ dict_get doc' "time_on" = Some (VStr "1430")
       /\ dict_get doc' "qso_datetime" = None.
Proof.
  split; [exact I|].
  destruct (C10_time_on_frame [("qso_date" : text, VStr "2024011")] "1430" I)
    as (doc' & E & Ht & _ & Hkeep & _).
  exists doc'. split; [exact E|]. split; [exact Ht|].
  rewrite Hkeep; [reflexivity|]. left. intros ds [= <-]. discriminate.
Defined.

(** C5.  A field of the numeric set with a value is stored as the
    floating-point number that [float] reads when the value holds a point,
    and as the integer that [int] reads otherwise; when the conversion
    raises, the value is stored as the text it is, and the field raises
    nothing.  [freq] = "14.250" is stored as the double 14.25 (57/4) and
    [freq] = "garbled" as the text. *)
Theorem C5_numeric_coercion (utcnow : nat -> datetime) :
  numeric_fields
  = [ "freq" : text; "freq_rx" : text; "tx_pwr" : text; "distance" : text;
      "cqz" : text; "ituz" : text; "dxcc" : text;
      "my_cq_zone" : text; "my_dxcc" : text; "my_itu_zone" : text ]
  /\ (forall (doc : dict) (field_name value : text),
         In field_name numeric_fields ->
         store_field doc field_name value
         = Ok (dict_set doc field_name
                 (if contains "." value
                  then match py_float value with
                       | Ok f => VFloat f
                       | Raise _ => VStr value
                       end
                  else match py_int value with
                       | Ok n => VInt n
                       | Raise _ => VStr value
                       end)))
  /\ (exists f,
         parse_adif utcnow "<freq:6>14.250"
         = Ok [[("freq" : text, VFloat f);
                ("imported_at" : text, VDatetime (utcnow 0))]]
         /\ float_is f 57 4)
  /\ parse_adif utcnow "<freq:7>garbled"
     = Ok [[("freq" : text, VStr "garbled");
            ("imported_at" : text, VDatetime (utcnow 0))]].
Proof.
  split; [reflexivity|]. split; [|split].
  - intros doc field_name value Hin.
    assert (Hnum : is_numeric_field field_name = true).
    { unfold is_numeric_field. apply existsb_exists. exists field_name.
      split; [exact Hin|apply text_eqb_refl]. }
    assert (Hd : field_name <> "qso_date") by (intros ->; discriminate Hnum).
    assert (Ht : field_name <> "time_on") by (intros ->; discriminate Hnum).
    unfold store_field. rewrite numeric_value_ok. cbn [rbind].
    rewrite date_step_other by assumption. cbn [rbind].
    rewrite time_step_other by assumption. cbn [rbind].
    unfold stored_value, convert_numeric. rewrite Hnum.
    destruct (contains "." value).
    + now destruct (py_float value).
    + now destruct (py_int value).
  - eexists. split; [vm_compute; reflexivity|]. vm_compute. reflexivity.
  - vm_compute. reflexivity.
Qed.

Lemma C5_numeric_coercion_witness :
  In ("dxcc" : text) numeric_fields
  /\ store_field [] "dxcc" "291" = Ok [("dxcc" : text, VInt 291)]
  /\ store_field [] "dxcc" "2x1" = Ok [("dxcc" : text, VStr "2x1")].
Proof.
  split; [vm_compute; tauto|].
  destruct (C5_numeric_coercion sample_clock) as (_ & H & _).
  split.
  - rewrite (H [] "dxcc" "291"); [reflexivity|vm_compute; tauto].
  - rewrite (H [] "dxcc" "2x1"); [reflexivity|vm_compute; tauto].
Defined.

(** C7.  The two markers are read without regard to case: a text and the
    text with one occurrence of a marker spelled otherwise give the same
    records, and after a header that holds no marker every spelling of
    the end-of-header marker leaves the same body. *)
Theorem C7_marker_case (utcnow : nat -> datetime) (xs a m m' b : text) :
  xs = "<EOH>" \/ xs = "<EOR>" ->
  spells xs m -> spells xs m' ->
  parse_adif utcnow (a ++ m ++ b) = parse_adif utcnow (a ++ m' ++ b)
  /\ (xs = "<EOH>" -> free_of "<EOH>" a ->
      strip_header (a ++ m ++ b) = b /\ strip_header (a ++ m' ++ b) = b)
  /\ spells "<EOH>" "<eoh>" /\ spells "<EOH>" "<EOH>" /\ spells "<EOH>" "<EoH>"
  /\ spells "<EOR>" "<eor>" /\ spells "<EOR>" "<EOR>" /\ spells "<EOR>" "<Eor>".
Proof.
  intros Hxs Hm Hm'. split; [|split].
  - apply parse_adif_rel. now apply (marker_eq_app a m m' b xs).
  - intros -> Ha. rewrite !strip_header_eq, !search_app_marker by assumption. auto.
  - repeat split.
Qed.

Lemma C7_marker_case_witness :
  spells "<EOH>" "<EOH>" /\ spells "<EOH>" "<eoh>"
  /\ parse_adif sample_clock ("ADIF export " ++ "<EOH>" ++ "<call:4>W1AW<EOR>")
     = parse_adif sample_clock ("ADIF export " ++ "<eoh>" ++ "<call:4>W1AW<EOR>").
Proof.
  split; [reflexivity|]. split; [reflexivity|].
  apply (C7_marker_case sample_clock "<EOH>" "ADIF export " "<EOH>" "<eoh>"
           "<call:4>W1AW<EOR>" (or_introl eq_refl) eq_refl eq_refl).
Defined.

(* ------------------------------------------------------------------ *)
(** ** What the fields of a record leave in the document *)

Lemma for_each_app {A S : Type} (body : S -> A -> result S) (l1 l2 : list A) (s : S) :
  for_each body (l1 ++ l2) s
  = rbind (for_each body l1 s) (fun s' => for_each body l2 s').
Proof.
  revert s. induction l1 as [|x l1 IH]; intros s; [reflexivity|].
  cbn [app for_each]. destruct (body s x); cbn [rbind]; [apply IH|reflexivity].
Qed.

Lemma stored_value_VStr (field_name value s : text) :
  stored_value field_name value = VStr s -> s = value.
Proof.
  unfold stored_value. destruct (is_numeric_field field_name); [|congruence].
  unfold convert_numeric. destruct (contains "." value).
  - destruct (py_float value); cbn [rbind]; congruence.
  - destruct (py_int value); cbn [rbind]; congruence.
Qed.

(** One step of the loop, when it does not raise. *)
Lemma process_match_step (doc doc' : dict) (m : text * text * text) :
  good_match m -> date_is_str doc -> process_match doc m = Ok doc' ->
  length_ok m = true
  /\ date_is_str doc'
  /\ ((has_value m = false /\ doc' = doc)
      \/ (has_value m = true
          /\ exists doc2,
               doc' = dict_set doc2 (field_name_of m)
                        (stored_value (field_name_of m) (field_value m))
               /\ (doc2 = doc
                   \/ exists d, doc2 = dict_set doc "qso_datetime" (VDatetime d)))).
Proof.
  intros Hm Hdoc. rewrite process_match_eq by assumption.
  destruct (length_ok m); [|discriminate].
  destruct (has_value m) eqn:Hv.
  - destruct (store_field_ok doc (field_name_of m) (field_value m) Hdoc)
      as (doc1 & E1 & Hdoc1 & _).
    destruct (store_field_spec doc (field_name_of m) (field_value m) Hdoc)
      as (doc2 & E2 & Hdoc2).
    rewrite E2. intros [= <-]. rewrite E2 in E1. injection E1 as <-.
    split; [reflexivity|]. split; [exact Hdoc1|]. right. split; [reflexivity|].
    exists doc2. split; [reflexivity|].
    destruct Hdoc2 as [->|[(d & _ & _ & _ & ->)|(d & ds & _ & _ & _ & _ & _ & ->)]];
      eauto.
  - intros [= <-]. auto.
Qed.

(** Every text in the document was there at the start or is the value
    of one of the fields. *)
Lemma for_each_strings (ms : list (text * text * text)) :
  Forall good_match ms ->
  forall doc0 doc, date_is_str doc0 ->
    for_each process_match ms doc0 = Ok doc ->
    forall (k s : text), dict_get doc k = Some (VStr s) ->
      dict_get doc0 k = Some (VStr s)
      \/ exists m, In m ms /\ length_ok m = true /\ field_name_of m = k
                   /\ s = field_value m.
Proof.
  induction 1 as [|m ms Hm Hms IH]; intros doc0 doc Hdoc0 E k s Hk.
  - injection E as <-. now left.
  - cbn [for_each] in E.
    destruct (process_match doc0 m) as [doc1|e] eqn:E1; cbn [rbind] in E;
      [|discriminate].
    destruct (process_match_step doc0 doc1 m Hm Hdoc0 E1) as (Hl & Hdoc1 & Hstep).
    destruct (IH doc1 doc Hdoc1 E k s Hk) as [H1|(m' & Hin & Hl' & Hn & Hs)].
    2:{ right. exists m'. split; [now right|auto]. }
    destruct Hstep as [[_ ->]|(Hv & doc2 & -> & Hdoc2)]; [now left|].
    destruct (text_eqb_spec (field_name_of m) k) as [Ek|Ek].
    + subst k. rewrite dict_get_set_same in H1. injection H1 as H1.
      apply stored_value_VStr in H1. right. exists m.
      split; [now left|]. auto.
    + rewrite dict_get_set_other in H1 by assumption.
      destruct Hdoc2 as [->|(d & ->)]; [now left|].
      destruct (text_eqb_spec "qso_datetime" k) as [Eq|Eq].
      * subst k. rewrite dict_get_set_same in H1. discriminate.
      * rewrite dict_get_set_other in H1 by assumption. now left.
Qed.

(** An entry that no later field writes stays as it is. *)
Lemma for_each_frame (ms : list (text * text * text)) (k : text) :
  Forall good_match ms ->
  k <> "qso_datetime" ->
  (forall m, In m ms -> has_value m = true -> field_name_of m <> k) ->
  forall doc0 doc, date_is_str doc0 ->
    for_each process_match ms doc0 = Ok doc ->
    dict_get doc k = dict_get doc0 k.
Proof.
  intros HF Hk. induction HF as [|m ms Hm Hms IH]; intros Hlater doc0 doc Hdoc0 E.
  - now injection E as <-.
  - cbn [for_each] in E.
    destruct (process_match doc0 m) as [doc1|e] eqn:E1; cbn [rbind] in E;
      [|discriminate].
    destruct (process_match_step doc0 doc1 m Hm Hdoc0 E1) as (Hl & Hdoc1 & Hstep).
    rewrite (IH (fun m' Hin => Hlater m' (or_intror Hin)) doc1 doc Hdoc1 E).
    destruct Hstep as [[_ ->]|(Hv & doc2 & -> & Hdoc2)]; [reflexivity|].
    rewrite dict_get_set_other by (apply Hlater; [now left|exact Hv]).
    destruct Hdoc2 as [->|(d & ->)]; [reflexivity|].
    rewrite dict_get_set_other; [reflexivity|]. intros Eq. apply Hk. now symmetry.
Qed.

Lemma strip_length (s : text) : length (strip s) <= length s.
Proof.
  unfold strip. transitivity (length (drop_while is_space s)).
  - generalize (drop_while is_space s). intros t.
    induction t as [|c r IH]; [reflexivity|]. cbn [drop_while_end].
    destruct (drop_while_end is_space r); [destruct (is_space c)|]; cbn in *; lia.
  - apply drop_while_length.
Qed.

Lemma digit_value_nonneg (c : ascii) : is_digit c = true -> (0 <= digit_value c)%Z.
Proof.
  destruct c as [[] [] [] [] [] [] [] []]; intros H; try discriminate H;
    vm_compute; discriminate.
Qed.

Lemma Z_of_digits_nonneg (ds : text) :
  forallb is_digit ds = true -> (0 <= Z_of_digits ds)%Z.
Proof.
  unfold Z_of_digits. intros Hd.
  assert (G : forall acc, (0 <= acc)%Z ->
              (0 <= fold_left (fun a c => 10 * a + digit_value c) ds acc)%Z).
  { induction ds as [|c r IH]; intros acc Hacc; [exact Hacc|].
    cbn in Hd. apply andb_prop in Hd. destruct Hd as [Hc Hr]. cbn [fold_left].
    apply IH; [exact Hr|]. pose proof (digit_value_nonneg c Hc). lia. }
  apply G. lia.
Qed.

Lemma field_value_length (m : text * text * text) :
  length (field_value m) <= declared_length m.
Proof.
  unfold field_value, slice_to. etransitivity; [apply strip_length|].
  rewrite length_firstn. lia.
Qed.

(** C3.  Every text that the parser stores comes from a field of the
    record with that name, and is the raw value of the field cut to the
    declared length [L] and then trimmed; so it has at most [L]
    characters, however long the raw value is. *)
Theorem C3_truncation (record : text) (doc : dict) :
  parse_record record = Ok doc ->
  (forall k s : text, dict_get doc k = Some (VStr s) ->
     exists g1 g2 g3 L,
       In (g1, g2, g3) (re_finditer field_pattern record)
       /\ lower g1 = k
       /\ py_int g2 = Ok (Z.of_nat L)
       /\ s = strip (slice_to g3 L)
       /\ length s <= L)
  /\ (forall (raw : text) (L : nat), length (strip (slice_to raw L)) <= L).
Proof.
  intros E. split.
  2:{ intros raw n. etransitivity; [apply strip_length|].
      unfold slice_to. rewrite length_firstn. lia. }
  intros k s Hk. unfold parse_record in E.
  destruct (for_each_strings _ (finditer_good record) [] doc I E k s Hk)
    as [H0|([[g1 g2] g3] & Hin & Hl & Hn & Hs)]; [discriminate H0|].
  exists g1, g2, g3, (declared_length (g1, g2, g3)).
  split; [exact Hin|]. split; [exact Hn|].
  pose proof (finditer_good record) as HF. rewrite Forall_forall in HF.
  destruct (HF _ Hin) as [Hne Hd]. cbn [fst snd] in Hne, Hd.
  split; [|split].
  - rewrite py_int_digits by assumption. unfold length_ok in Hl. cbn [fst snd] in Hl.
    rewrite Hl. unfold declared_length. cbn [fst snd]. f_equal.
    rewrite Z2Nat.id; [reflexivity|]. now apply Z_of_digits_nonneg.
  - exact Hs.
  - subst s. apply (field_value_length (g1, g2, g3)).
Qed.

Lemma C3_truncation_witness :
  parse_record "<Call:2>W1AW <name:6>  Brian Keating"
  = Ok [("call" : text, VStr "W1"); ("name" : text, VStr "Bria")]
  /\ exists g1 g2 g3 L,
       In (g1, g2, g3)
          (re_finditer field_pattern "<Call:2>W1AW <name:6>  Brian Keating")
       /\ lower g1 = "name"
       /\ py_int g2 = Ok (Z.of_nat L)
       /\ ("Bria" : text) = strip (slice_to g3 L)
       /\ length ("Bria" : text) <= L.
Proof.
  split; [vm_compute; reflexivity|].
  destruct (C3_truncation "<Call:2>W1AW <name:6>  Brian Keating"
              [("call" : text, VStr "W1"); ("name" : text, VStr "Bria")]
              ltac:(vm_compute; reflexivity)) as [H _].
  apply (H "name" "Bria"). vm_compute. reflexivity.
Defined.

Lemma for_each_date_is_str (ms : list (text * text * text)) :
  Forall good_match ms ->
  forall doc0 doc, date_is_str doc0 ->
    for_each process_match ms doc0 = Ok doc -> date_is_str doc.
Proof.
  induction 1 as [|m ms Hm Hms IH]; intros doc0 doc Hdoc0 E.
  - now injection E as <-.
  - cbn [for_each] in E.
    destruct (process_match doc0 m) as [doc1|e] eqn:E1; cbn [rbind] in E;
      [|discriminate].
    destruct (process_match_step doc0 doc1 m Hm Hdoc0 E1) as (_ & Hdoc1 & _).
    exact (IH doc1 doc Hdoc1 E).
Qed.

(** C6 (as amended).  In a record whose declared lengths [int] reads,
    take the last field of a given name that has a value: when the name
    is neither [qso_datetime] nor [imported_at], the emitted record holds
    under that name the value of that field, after the numeric
    conversion. *)
Theorem C6_last_occurrence_wins (utcnow : nat -> datetime) (k0 : nat)
    (record : text) (ms1 ms2 : list (text * text * text))
    (m : text * text * text) :
  lengths_ok record = true ->
  fields_of record = ms1 ++ m :: ms2 ->
  has_value m = true ->
  (forall m', In m' ms2 -> has_value m' = true ->
              field_name_of m' <> field_name_of m) ->
  field_name_of m <> "qso_datetime" ->
  field_name_of m <> "imported_at" ->
  exists doc,
    parse_records utcnow k0 [record] = Ok [doc]
    /\ dict_get doc (field_name_of m)
       = Some (stored_value (field_name_of m) (field_value m)).
Proof.
  intros Hl Hfields Hv Hlast Hq Hi.
  pose proof (finditer_good (strip record)) as HF. fold (fields_of record) in HF.
  destruct (for_each_fields (fields_of record) HF Hl [] I) as (doc & E & _ & Hnil).
  assert (Hex : existsb has_value (fields_of record) = true).
  { apply existsb_exists. exists m. split; [|exact Hv].
    rewrite Hfields. apply in_or_app. right. now left. }
  rewrite Hex in Hnil. cbn in Hnil.
  assert (Hrec : is_nil (strip record) = false).
  { unfold fields_of in Hfields. destruct (strip record); [|reflexivity].
    destruct ms1; discriminate Hfields. }
  exists (dict_set doc "imported_at" (VDatetime (utcnow k0))).
  split.
  - cbn [parse_records]. rewrite Hrec. unfold parse_record.
    fold (fields_of record). rewrite E. cbn [rbind]. now rewrite Hnil.
  - rewrite dict_get_set_other by (intros Ek; apply Hi; now symmetry).
    rewrite Hfields in E, HF. rewrite for_each_app in E.
    apply Forall_app in HF. destruct HF as [HF1 HF2].
    inversion HF2 as [|? ? Hm HF3]; subst.
    destruct (for_each process_match ms1 []) as [doc_a|e] eqn:Ea; cbn [rbind] in E;
      [|discriminate].
    pose proof (for_each_date_is_str ms1 HF1 [] doc_a I Ea) as Hdoc_a.
    cbn [for_each] in E.
    destruct (process_match doc_a m) as [doc_b|e] eqn:Eb; cbn [rbind] in E;
      [|discriminate].
    destruct (process_match_step doc_a doc_b m Hm Hdoc_a Eb)
      as (_ & Hdoc_b & [[Hv' _]|(_ & doc2 & -> & _)]); [congruence|].
    rewrite (for_each_frame ms2 (field_name_of m) HF3 Hq Hlast _ doc Hdoc_b E).
    apply dict_get_set_same.
Qed.

Lemma C6_last_occurrence_wins_witness :
  lengths_ok "<call:4>W1AW<dxcc:3>291<CALL:4>K1AB<band:3>20m<call:0>" = true
  /\ exists doc,
       parse_records sample_clock 0
         ["<call:4>W1AW<dxcc:3>291<CALL:4>K1AB<band:3>20m<call:0>" : text] = Ok [doc]
       /\ dict_get doc "call" = Some (VStr "K1AB").
Proof.
  split; [vm_compute; reflexivity|].
  apply (C6_last_occurrence_wins sample_clock 0
           "<call:4>W1AW<dxcc:3>291<CALL:4>K1AB<band:3>20m<call:0>"
           [("call" : text, "4" : text, "W1AW" : text);
            ("dxcc" : text, "3" : text, "291" : text)]
           [("band" : text, "3" : text, "20m" : text);
            ("call" : text, "0" : text, [] : text)]
           ("CALL" : text, "4" : text, "K1AB" : text)).
  - vm_compute. reflexivity.
  - vm_compute. reflexivity.
  - vm_compute. reflexivity.
  - intros m' [<-|[<-|[]]] Hv; [discriminate|discriminate Hv].
  - discriminate.
  - discriminate.
Defined.

(** C6, the claim as written fails for the two keys that the parser
    fills itself: the last [imported_at] field of the record says "b" and
    the emitted record holds the clock; the last [qso_datetime] field says
    "b" and the emitted record holds the datetime of the date field that
    follows. *)
Lemma C6_counterexample :
  (exists doc,
      parse_adif sample_clock "<imported_at:1>a<imported_at:1>b" = Ok [doc]
      /\ dict_get doc "imported_at" = Some (VDatetime (sample_clock 0))
      /\ dict_get doc "imported_at" <> Some (VStr "b"))
  /\ (exists doc,
         parse_adif sample_clock
           "<qso_datetime:1>a<qso_datetime:1>b<qso_date:8>20240115" = Ok [doc]
         /\ dict_get doc "qso_datetime"
            = Some (VDatetime (mk_datetime 2024 1 15 0 0 0 0))
         /\ dict_get doc "qso_datetime" <> Some (VStr "b")).
Proof.
  split; eexists; (split; [vm_compute; reflexivity|]);
    (split; [vm_compute; reflexivity|vm_compute; discriminate]).
Qed.

(* ================================================================== *)
(** * Further properties of the parser and of the loader *)

(** X1.  Whatever stands before the first end-of-header marker is thrown
    away with the marker: two files with the same body give the same
    records whatever their headers say, and a file without the marker is
    read as a body from its first character. *)
Theorem X1_header_discarded (utcnow : nat -> datetime)
    (header header' m m' body : text) :
  free_of "<EOH>" header -> free_of "<EOH>" header' ->
  spells "<EOH>" m -> spells "<EOH>" m' ->
  parse_adif utcnow (header ++ m ++ body) = parse_adif utcnow (header' ++ m' ++ body)
  /\ strip_header (header ++ m ++ body) = body
  /\ strip_header header = header
  /\ (free_of "<EOH>" body ->
      parse_adif utcnow (header ++ m ++ body) = parse_adif utcnow body).
Proof.
  intros Hh Hh' Hm Hm'.
  assert (E : strip_header (header ++ m ++ body) = body).
  { now rewrite strip_header_eq, search_app_marker. }
  assert (E' : strip_header (header' ++ m' ++ body) = body).
  { now rewrite strip_header_eq, search_app_marker. }
  split; [|split; [|split]].
  - unfold parse_adif. now rewrite E, E'.
  - exact E.
  - now rewrite strip_header_eq, search_free.
  - intros Hb. unfold parse_adif. rewrite E.
    now rewrite (strip_header_eq body), search_free.
Qed.

Lemma X1_header_discarded_witness :
  free_of "<EOH>" "<call:4>W1AW<eor>" /\ free_of "<EOH>" "" /\ spells "<EOH>" "<eoh>"
  /\ parse_adif sample_clock ("<call:4>W1AW<eor>" ++ "<eoh>" ++ "<call:4>K1AB")
     = Ok [[("call" : text, VStr "K1AB");
            ("imported_at" : text, VDatetime (sample_clock 0))]].
Proof.
  assert (H1 : free_of "<EOH>" "<call:4>W1AW<eor>") by (vm_compute; repeat split).
  assert (H2 : free_of "<EOH>" "") by (vm_compute; repeat split).
  split; [exact H1|]. split; [exact H2|]. split; [reflexivity|].
  destruct (X1_header_discarded sample_clock "<call:4>W1AW<eor>" "" "<eoh>" "<eoh>"
              "<call:4>K1AB" H1 H2 eq_refl eq_refl) as (-> & _).
  vm_compute. reflexivity.
Defined.

Lemma for_each_exn (ms : list (text * text * text)) :
  Forall good_match ms ->
  forall doc e, date_is_str doc ->
    for_each process_match ms doc = Raise e ->
    e = ValueError /\ forallb length_ok ms = false.
Proof.
  induction 1 as [|m ms Hm Hms IH]; intros doc e Hdoc E; [discriminate E|].
  cbn [for_each forallb] in *. rewrite process_match_eq in E by assumption.
  destruct (length_ok m); [|now injection E as <-].
  destruct (has_value m).
  - destruct (store_field_ok doc (field_name_of m) (field_value m) Hdoc)
      as (doc1 & E1 & Hdoc1 & _).
    rewrite E1 in E. cbn [rbind] in E. exact (IH doc1 e Hdoc1 E).
  - cbn [rbind] in E. exact (IH doc e Hdoc E).
Qed.

Lemma parse_records_exn (utcnow : nat -> datetime) (records : list text) :
  forall k e, parse_records utcnow k records = Raise e ->
    e = ValueError
    /\ exists record, In record records /\ lengths_ok record = false.
Proof.
  induction records as [|record rest IH]; intros k e E; [discriminate E|].
  cbn [parse_records] in E.
  assert (Hrest : forall k', parse_records utcnow k' rest = Raise e ->
                    e = ValueError
                    /\ exists r, In r (record :: rest) /\ lengths_ok r = false).
  { intros k' E'. destruct (IH k' e E') as (-> & r & Hin & Hr).
    split; [reflexivity|]. exists r. split; [now right|exact Hr]. }
  destruct (is_nil (strip record)); [now apply (Hrest k)|].
  destruct (parse_record (strip record)) as [doc|e0] eqn:Ep; cbn [rbind] in E.
  - destruct (is_nil doc); [now apply (Hrest k)|].
    destruct (parse_records utcnow (S k) rest) as [docs|e1] eqn:Er; cbn [rbind] in E;
      [discriminate E|].
    injection E as <-. now apply (Hrest (S k)).
  - injection E as <-. unfold parse_record in Ep.
    destruct (for_each_exn _ (finditer_good (strip record)) [] e0 I Ep) as [-> Hl].
    split; [reflexivity|]. exists record. split; [now left|exact Hl].
Qed.

(** X3.  The parser raises nothing but [ValueError], and that only for a
    declared length that [int] refuses, more than 4300 digits: no field
    can make [len] or a [str] method meet a number.  When every declared
    length is within the limit the parser returns its records. *)
Theorem X3_raises_only_on_length (utcnow : nat -> datetime) (content : text) :
  (forallb lengths_ok (segments content) = true ->
   exists docs, parse_adif utcnow content = Ok docs)
  /\ (forall e, parse_adif utcnow content = Raise e ->
        e = ValueError
        /\ exists record g1 g2 g3,
             In record (segments content)
             /\ In (g1, g2, g3) (fields_of record)
             /\ int_max_str_digits < length g2).
Proof.
  unfold parse_adif. fold (segments content). split.
  - intros Hl. destruct (parse_records_count utcnow (segments content) Hl 0)
      as (docs & E & _). now exists docs.
  - intros e E. destruct (parse_records_exn utcnow _ 0 e E) as (-> & record & Hin & Hl).
    split; [reflexivity|]. unfold lengths_ok in Hl.
    assert (Hex : exists m, In m (fields_of record) /\ length_ok m = false).
    { clear -Hl. induction (fields_of record) as [|m ms IH]; [discriminate Hl|].
      cbn [forallb] in Hl. destruct (length_ok m) eqn:Hm.
      - destruct (IH Hl) as (m' & Hin & Hm'). exists m'. split; [now right|exact Hm'].
      - exists m. split; [now left|exact Hm]. }
    destruct Hex as ([[g1 g2] g3] & Hm & Hlen).
    exists record, g1, g2, g3. split; [exact Hin|]. split; [exact Hm|].
    unfold length_ok in Hlen. cbn [fst snd] in Hlen.
    now apply Nat.leb_gt in Hlen.
Qed.

Lemma X3_raises_only_on_length_witness :
  forallb lengths_ok (segments "<call:4>W1AW<eor><dxcc:3>291") = true
  /\ (exists docs, parse_adif sample_clock "<call:4>W1AW<eor><dxcc:3>291" = Ok docs)
  /\ parse_adif sample_clock
       ("<call:4>W1AW<eor><a:" ++ repeat "1"%char 4301 ++ ">x")
     = Raise ValueError.
Proof.
  split; [vm_compute; reflexivity|]. split.
  - apply (X3_raises_only_on_length sample_clock "<call:4>W1AW<eor><dxcc:3>291").
    vm_compute. reflexivity.
  - vm_compute. reflexivity.
Defined.

(* ------------------------------------------------------------------ *)
(** ** Where the entries of a document come from *)

Lemma stored_value_cases (field_name value : text) :
  stored_value field_name value = VStr value
  \/ (is_numeric_field field_name = true
      /\ ((exists n, stored_value field_name value = VInt n)
          \/ (exists f, stored_value field_name value = VFloat f))).
Proof.
  unfold stored_value. destruct (is_numeric_field field_name); [|now left].
  unfold convert_numeric. destruct (contains "." value).
  - destruct (py_float value); cbn [rbind]; [|now left]. right. eauto.
  - destruct (py_int value); cbn [rbind]; [|now left]. right. eauto.
Qed.

(** Every entry was there at the start, or is the value of a field of
    that name, or is a derived datetime. *)
Lemma for_each_origin (ms : list (text * text * text)) :
  Forall good_match ms ->
  forall doc0 doc, date_is_str doc0 ->
    for_each process_match ms doc0 = Ok doc ->
    forall (k : text) (v : py_value), dict_get doc k = Some v ->
      dict_get doc0 k = Some v
      \/ (exists m, In m ms /\ has_value m = true /\ field_name_of m = k
                    /\ v = stored_value k (field_value m))
      \/ (k = "qso_datetime" /\ exists d, v = VDatetime d).
Proof.
  induction 1 as [|m ms Hm Hms IH]; intros doc0 doc Hdoc0 E k v Hk.
  - injection E as <-. now left.
  - cbn [for_each] in E.
    destruct (process_match doc0 m) as [doc1|e] eqn:E1; cbn [rbind] in E;
      [|discriminate].
    destruct (process_match_step doc0 doc1 m Hm Hdoc0 E1) as (Hl & Hdoc1 & Hstep).
    destruct (IH doc1 doc Hdoc1 E k v Hk)
      as [H1|[(m' & Hin & Hv' & Hn & Hs)|Hq]].
    2:{ right. left. exists m'. split; [now right|auto]. }
    2:{ right. now right. }
    destruct Hstep as [[_ ->]|(Hv & doc2 & -> & Hdoc2)]; [now left|].
    destruct (text_eqb_spec (field_name_of m) k) as [Ek|Ek].
    + subst k. rewrite dict_get_set_same in H1. injection H1 as <-.
      right. left. exists m. split; [now left|auto].
    + rewrite dict_get_set_other in H1 by assumption.
      destruct Hdoc2 as [->|(d & ->)]; [now left|].
      destruct (text_eqb_spec "qso_datetime" k) as [Eq|Eq].
      * subst k. rewrite dict_get_set_same in H1. injection H1 as <-.
        right. right. split; [reflexivity|now exists d].
      * rewrite dict_get_set_other in H1 by assumption. now left.
Qed.

(** Every emitted record is the document of one segment with the stamp
    of the clock. *)
Lemma parse_records_docs (utcnow : nat -> datetime) (records : list text) :
  forall k docs, parse_records utcnow k records = Ok docs ->
    Forall (fun doc => exists record doc0 j,
                In record records
                /\ parse_record (strip record) = Ok doc0
                /\ doc = dict_set doc0 "imported_at" (VDatetime (utcnow j))) docs.
Proof.
  induction records as [|record rest IH]; intros k docs E; cbn [parse_records] in E.
  - injection E as <-. constructor.
  - assert (Hrest : forall k' docs', parse_records utcnow k' rest = Ok docs' ->
              Forall (fun doc => exists r doc0 j,
                          In r (record :: rest)
                          /\ parse_record (strip r) = Ok doc0
                          /\ doc = dict_set doc0 "imported_at" (VDatetime (utcnow j)))
                     docs').
    { intros k' docs' E'. eapply Forall_impl; [|exact (IH k' docs' E')].
      intros doc (r & doc0 & j & Hin & Hp & Hd). exists r, doc0, j.
      split; [now right|auto]. }
    destruct (is_nil (strip record)); [now apply (Hrest k)|].
    destruct (parse_record (strip record)) as [doc0|e] eqn:Ep; cbn [rbind] in E;
      [|discriminate].
    destruct (is_nil doc0); [now apply (Hrest k)|].
    destruct (parse_records utcnow (S k) rest) as [docs'|e] eqn:Er; cbn [rbind] in E;
      [|discriminate].
    injection E as <-. constructor; [|now apply (Hrest (S k))].
    exists record, doc0, k. split; [now left|auto].
Qed.

Lemma drop_while_head (p : ascii -> bool) (s : text) :
  match drop_while p s with
  | [] => True
  | c :: _ => p c = false
  end.
Proof.
  induction s as [|c r IH]; cbn; [exact I|].
  destruct (p c) eqn:E; [exact IH|exact E].
Qed.

Lemma drop_while_end_last (p : ascii -> bool) (s : text) :
  match rev (drop_while_end p s) with
  | [] => True
  | c :: _ => p c = false
  end.
Proof.
  induction s as [|c r IH]; cbn [drop_while_end]; [exact I|].
  destruct (drop_while_end p r) as [|x r'] eqn:E.
  - destruct (p c) eqn:Ec; [exact I|exact Ec].
  - change (rev (c :: x :: r')) with (rev (x :: r') ++ [c]).
    destruct (rev (x :: r')) as [|y t] eqn:Er; [|exact IH].
    apply (f_equal (@length _)) in Er. rewrite length_rev in Er. discriminate Er.
Qed.

Lemma strip_trimmed (s : text) : trimmed (strip s).
Proof.
  unfold trimmed, strip. split; [|apply drop_while_end_last].
  pose proof (drop_while_head is_space s) as H.
  destruct (drop_while is_space s) as [|c r]; [exact I|].
  now rewrite drop_while_end_keep.
Qed.

Lemma forallb_drop_while (q p : ascii -> bool) (s : text) :
  forallb q s = true -> forallb q (drop_while p s) = true.
Proof.
  induction s as [|c r IH]; cbn; [auto|].
  intros H. destruct (p c); [|exact H].
  apply andb_prop in H. now apply IH.
Qed.

Lemma forallb_drop_while_end (q p : ascii -> bool) (s : text) :
  forallb q s = true -> forallb q (drop_while_end p s) = true.
Proof.
  induction s as [|c r IH]; cbn [drop_while_end forallb]; [auto|].
  intros H. apply andb_prop in H. destruct H as [Hc Hr]. specialize (IH Hr).
  destruct (drop_while_end p r) as [|x r'].
  - destruct (p c); cbn; [reflexivity|now rewrite Hc].
  - cbn [forallb] in *. now rewrite Hc, IH.
Qed.

Lemma forallb_firstn (q : ascii -> bool) (n : nat) (s : text) :
  forallb q s = true -> forallb q (firstn n s) = true.
Proof.
  revert s. induction n as [|n IH]; intros s; [reflexivity|].
  destruct s as [|c r]; cbn; [auto|].
  intros H. apply andb_prop in H. destruct H as [-> Hr]. now apply IH.
Qed.

Lemma scan_field_value (s : text) g1 g2 g3 r :
  scan_field s = Some ((g1, g2, g3), r) -> forallb not_lt g3 = true.
Proof.
  unfold scan_field.
  destruct (expect "<" s) as [s1|]; [|discriminate].
  destruct (expect ":" (drop_while is_word s1)) as [s3|]; [|discriminate].
  destruct (_ || _); [discriminate|].
  destruct (scan_tag_end _) as [s5|]; [|discriminate].
  intros [= _ _ <- _]. apply take_while_forallb.
Qed.

Lemma finditer_values (s : text) :
  Forall (fun m => forallb not_lt (snd m) = true) (re_finditer field_pattern s).
Proof.
  remember (length s) as n eqn:Hn.
  revert s Hn. induction n as [n IH] using lt_wf_ind. intros s Hn.
  rewrite finditer_field_eq. destruct s as [|c r]; [constructor|].
  destruct (scan_field (c :: r)) as [[[[g1 g2] g3] rest]|] eqn:E.
  - constructor; [eapply scan_field_value; eauto|].
    apply scan_field_length in E. eapply IH; [|reflexivity]. lia.
  - eapply IH; [|reflexivity]. simpl in Hn. lia.
Qed.

(** X4.  A text that a record holds is never empty, has no space at
    either end, and holds no [<]: a value stops at the next [<] whatever
    its declared length says. *)
Theorem X4_stored_texts (utcnow : nat -> datetime) (content : text)
    (docs : list dict) (doc : dict) (k s : text) :
  parse_adif utcnow content = Ok docs ->
  In doc docs ->
  dict_get doc k = Some (VStr s) ->
  s <> [] /\ trimmed s /\ ~ In "<"%char s.
Proof.
  intros E Hin Hk. unfold parse_adif in E.
  pose proof (parse_records_docs utcnow _ 0 docs E) as HF.
  rewrite Forall_forall in HF.
  destruct (HF doc Hin) as (record & doc0 & j & _ & Ep & ->).
  destruct (text_eqb_spec "imported_at" k) as [Ek|Ek].
  { subst k. rewrite dict_get_set_same in Hk. discriminate Hk. }
  rewrite dict_get_set_other in Hk by assumption.
  unfold parse_record in Ep.
  destruct (for_each_origin _ (finditer_good (strip record)) [] doc0 I Ep k _ Hk)
    as [H0|[(m & Hm & Hv & Hn & Hs)|(_ & d & Hd)]];
    [discriminate H0| |discriminate Hd].
  symmetry in Hs. apply stored_value_VStr in Hs. subst s.
  split; [|split].
  - unfold has_value in Hv. destruct (field_value m); [discriminate Hv|discriminate].
  - apply strip_trimmed.
  - pose proof (finditer_values (strip record)) as HV. rewrite Forall_forall in HV.
    specialize (HV m Hm).
    assert (Hall : forallb not_lt (field_value m) = true).
    { unfold field_value, strip, slice_to.
      now apply forallb_drop_while_end, forallb_drop_while, forallb_firstn. }
    intros Hlt. rewrite forallb_forall in Hall. apply Hall in Hlt. discriminate Hlt.
Qed.

Lemma X4_stored_texts_witness :
  parse_adif sample_clock "<comment:9>  a<b  <call:4>W1AW"
  = Ok [[("comment" : text, VStr "a"); ("call" : text, VStr "W1AW");
         ("imported_at" : text, VDatetime (sample_clock 0))]]
  /\ ("a" : text) <> [] /\ trimmed "a" /\ ~ In "<"%char ("a" : text).
Proof.
  split; [vm_compute; reflexivity|].
  apply (X4_stored_texts sample_clock "<comment:9>  a<b  <call:4>W1AW"
           [[("comment" : text, VStr "a"); ("call" : text, VStr "W1AW");
             ("imported_at" : text, VDatetime (sample_clock 0))]]
           [("comment" : text, VStr "a"); ("call" : text, VStr "W1AW");
             ("imported_at" : text, VDatetime (sample_clock 0))] "comment").
  - vm_compute. reflexivity.
  - now left.
  - vm_compute. reflexivity.
Defined.

(** X6.  What a key holds depends on its name: an integer or a float
    only under one of the ten numeric names, a datetime only under
    [qso_datetime] and [imported_at], a text anywhere else. *)
Theorem X6_entry_types (utcnow : nat -> datetime) (content : text)
    (docs : list dict) (doc : dict) (k : text) (v : py_value) :
  parse_adif utcnow content = Ok docs ->
  In doc docs ->
  dict_get doc k = Some v ->
  well_typed_entry k v
  /\ (~ In k numeric_fields -> k <> "qso_datetime" -> k <> "imported_at" ->
      exists s, v = VStr s).
Proof.
  intros E Hin Hk.
  assert (H : well_typed_entry k v).
  { unfold parse_adif in E.
    pose proof (parse_records_docs utcnow _ 0 docs E) as HF.
    rewrite Forall_forall in HF.
    destruct (HF doc Hin) as (record & doc0 & j & _ & Ep & ->).
    destruct (text_eqb_spec "imported_at" k) as [Ek|Ek].
    { subst k. rewrite dict_get_set_same in Hk. injection Hk as <-. now right. }
    rewrite dict_get_set_other in Hk by assumption.
    unfold parse_record in Ep.
    destruct (for_each_origin _ (finditer_good (strip record)) [] doc0 I Ep k _ Hk)
      as [H0|[(m & Hm & Hv & Hn & ->)|(-> & d & ->)]];
      [discriminate H0| |now left].
    destruct (stored_value_cases k (field_value m))
      as [->|(Hnum & [(n & ->)|(f & ->)])]; [exact I| |];
      unfold is_numeric_field in Hnum; apply existsb_exists in Hnum;
      destruct Hnum as (x & Hx & Ex); destruct (text_eqb_spec k x);
      try discriminate Ex; now subst. }
  split; [exact H|]. intros Hn Hq Hi.
  destruct v as [s|n|f|d]; cbn in H; [now exists s|contradiction|contradiction|].
  destruct H; contradiction.
Qed.

Lemma X6_entry_types_witness :
  parse_adif sample_clock "<call:3>123<dxcc:3>291"
  = Ok [[("call" : text, VStr "123"); ("dxcc" : text, VInt 291);
         ("imported_at" : text, VDatetime (sample_clock 0))]]
  /\ well_typed_entry "call" (VStr "123")
  /\ exists s, VStr "123" = VStr s.
Proof.
  split; [vm_compute; reflexivity|].
  destruct (X6_entry_types sample_clock "<call:3>123<dxcc:3>291"
              [[("call" : text, VStr "123"); ("dxcc" : text, VInt 291);
                ("imported_at" : text, VDatetime (sample_clock 0))]]
              [("call" : text, VStr "123"); ("dxcc" : text, VInt 291);
                ("imported_at" : text, VDatetime (sample_clock 0))]
              "call" (VStr "123")
              ltac:(vm_compute; reflexivity) ltac:(now left)
              ltac:(vm_compute; reflexivity)) as [H1 H2].
  split; [exact H1|]. apply H2.
  - vm_compute. intuition discriminate.
  - discriminate.
  - discriminate.
Defined.

(* ------------------------------------------------------------------ *)
(** ** The forms of a tag *)

Lemma take_drop_while_app (p : ascii -> bool) (l : text) (c : ascii) (r : text) :
  forallb p l = true -> p c = false ->
  take_while p (l ++ c :: r) = l /\ drop_while p (l ++ c :: r) = c :: r.
Proof.
  intros Hl Hc. induction l as [|x l IH]; cbn [app take_while drop_while forallb] in *.
  - now rewrite Hc.
  - apply andb_prop in Hl. destruct Hl as [Hx Hl]. rewrite Hx.
    destruct (IH Hl) as [-> ->]. now split.
Qed.

Lemma scan_field_tag (name digits : text) (c : ascii) (rest : text) :
  name <> [] -> forallb is_word name = true ->
  digits <> [] -> forallb is_digit digits = true ->
  is_digit c = false ->
  scan_field ("<"%char :: name ++ ":"%char :: digits ++ c :: rest)
  = match scan_tag_end (c :: rest) with
    | Some s5 => Some ((name, digits, take_while not_lt s5), drop_while not_lt s5)
    | None => None
    end.
Proof.
  intros Hn Hw Hd Hds Hc. unfold scan_field. cbn [expect].
  rewrite Ascii.eqb_refl.
  destruct (take_drop_while_app is_word name ":" (digits ++ c :: rest) Hw eq_refl)
    as [-> ->].
  cbn [expect]. rewrite Ascii.eqb_refl.
  destruct (take_drop_while_app is_digit digits c rest Hds Hc) as [-> ->].
  destruct name; [contradiction|]. destruct digits; [contradiction|].
  reflexivity.
Qed.

(** X2.  A tag is read with or without a type hint, and the hint plays
    no part in what is stored: [<name:digits>] and [<name:digits:c>] give
    the same name, length and value, the value running to the next [<] or
    to the end of the segment.  A hint of two characters makes the tag
    unreadable. *)
Theorem X2_tag_forms (name digits v : text) (c : ascii) :
  name <> [] -> forallb is_word name = true ->
  digits <> [] -> forallb is_digit digits = true ->
  is_word c = true ->
  re_match field_pattern (tag name digits [] ++ v)
  = Some ((name, digits, take_while not_lt v), drop_while not_lt v)
  /\ re_match field_pattern (tag name digits [":"%char; c] ++ v)
     = Some ((name, digits, take_while not_lt v), drop_while not_lt v)
  /\ (forall c2, c2 <> ">"%char ->
      re_match field_pattern (tag name digits [":"%char; c; c2] ++ v) = None).
Proof.
  intros Hn Hw Hd Hds Hc. rewrite !field_pattern_scan. unfold tag.
  split; [|split; [|intros c2 Hc2; rewrite field_pattern_scan]].
  - cbn [app]. rewrite <- !app_assoc. cbn [app]. rewrite <- !app_assoc. cbn [app].
    now rewrite scan_field_tag.
  - cbn [app]. rewrite <- !app_assoc. cbn [app]. rewrite <- !app_assoc. cbn [app].
    rewrite scan_field_tag by auto.
    unfold scan_tag_end. cbn [expect]. cbn [Ascii.eqb Bool.eqb]. rewrite Hc.
    reflexivity.
  - cbn [app]. rewrite <- !app_assoc. cbn [app]. rewrite <- !app_assoc. cbn [app].
    rewrite scan_field_tag by auto.
    unfold scan_tag_end. cbn [expect]. cbn [Ascii.eqb Bool.eqb]. rewrite Hc.
    cbn [expect]. destruct (Ascii.eqb_spec ">" c2) as [E|E]; [now subst|reflexivity].
Qed.

Lemma X2_tag_forms_witness :
  re_match field_pattern (tag "call" "4" [] ++ "W1AW<band:3>20m")
  = Some (("call" : text, "4" : text, "W1AW" : text), "<band:3>20m" : text)
  /\ re_match field_pattern (tag "call" "4" [":"%char; "S"%char] ++ "W1AW<band:3>20m")
     = Some (("call" : text, "4" : text, "W1AW" : text), "<band:3>20m" : text).
Proof.
  destruct (X2_tag_forms "call" "4" "W1AW<band:3>20m" "S"
              ltac:(discriminate) ltac:(reflexivity)
              ltac:(discriminate) ltac:(reflexivity) ltac:(reflexivity))
    as (H1 & H2 & _).
  split; [exact H1|exact H2].
Defined.

(* ------------------------------------------------------------------ *)
(** ** What the date field does to a document *)

(** X9.  A date field replaces the date of the document and touches
    nothing but the date and the derived datetime.  The datetime is set,
    to the date that [strptime] reads, exactly when the value has eight
    characters and [strptime] reads it; otherwise it stays what it was,
    so a date that cannot be read leaves the datetime of an earlier date
    standing beside the new date. *)
Theorem X9_qso_date_frame (doc : dict) (value : text) :
  exists doc',
    store_field doc "qso_date" value = Ok doc'
    /\ dict_get doc' "qso_date" = Some (VStr value)
    /\ (forall d, length value = 8 -> strptime value fmt_Ymd = Ok d ->
                  dict_get doc' "qso_datetime" = Some (VDatetime d))
    /\ (length value <> 8 \/ (exists e, strptime value fmt_Ymd = Raise e) ->
        dict_get doc' "qso_datetime" = dict_get doc "qso_datetime")
    /\ (forall k : text, k <> "qso_date" -> k <> "qso_datetime" ->
                         dict_get doc' k = dict_get doc k).
Proof.
  unfold store_field.
  change (numeric_value "qso_date" value) with (Ok (VStr value)). cbn [rbind].
  unfold date_step. rewrite text_eqb_refl. cbn [py_len rbind as_str].
  assert (Hq : ("qso_datetime" : text) <> "qso_date") by discriminate.
  destruct (Nat.eqb_spec (length value) 8) as [H8|H8].
  - destruct (strptime value fmt_Ymd) as [d|e] eqn:E;
      cbn [rbind except_ValueError].
    + rewrite time_step_other by discriminate. cbn [rbind].
      eexists. split; [reflexivity|]. split; [apply dict_get_set_same|].
      split; [|split].
      * intros d' _ [= <-].
        rewrite dict_get_set_other by (intros Ek; now apply Hq).
        apply dict_get_set_same.
      * intros [H|(e & He)]; [contradiction|discriminate He].
      * intros k Hk1 Hk2.
        rewrite dict_get_set_other by (intros Ek; apply Hk1; now symmetry).
        apply dict_get_set_other. intros Ek. apply Hk2. now symmetry.
    + apply strptime_exn in E. subst e. cbn [except_ValueError rbind].
      rewrite time_step_other by discriminate. cbn [rbind].
      eexists. split; [reflexivity|]. split; [apply dict_get_set_same|].
      split; [|split].
      * intros d' _ H. discriminate H.
      * intros _. apply dict_get_set_other. intros Ek. now apply Hq.
      * intros k Hk1 Hk2. apply dict_get_set_other. intros Ek. apply Hk1.
        now symmetry.
  - cbn [rbind]. rewrite time_step_other by discriminate. cbn [rbind].
    eexists. split; [reflexivity|]. split; [apply dict_get_set_same|].
    split; [|split].
    + intros d' H. contradiction.
    + intros _. apply dict_get_set_other. intros Ek. now apply Hq.
    + intros k Hk1 Hk2. apply dict_get_set_other. intros Ek. apply Hk1.
      now symmetry.
Qed.

(* ------------------------------------------------------------------ *)
(** ** The keys of a document *)









(* ------------------------------------------------------------------ *)
(** ** The derived datetime is a date of the calendar *)

Lemma datetime_new_valid (y m d hh mm ss : Z) (dt : datetime) :
  datetime_new y m d hh mm ss = Ok dt ->
  valid_datetime dt /\ hour dt = hh /\ minute dt = mm /\ second dt = ss.
Proof.
  unfold datetime_new.
  destruct (_ && _) eqn:E; [|discriminate]. intros [= <-].
  repeat (apply andb_prop in E; destruct E as [E ?]).
  repeat match goal with H : (_ <=? _)%Z = true |- _ => apply Z.leb_le in H end.
  unfold valid_datetime. cbn [year month day hour minute second microsecond].
  repeat split; assumption.
Qed.

Lemma strptime_valid (s : text) (f : format) (d : datetime) :
  strptime s f = Ok d -> valid_datetime d.
Proof.
  unfold strptime.
  destruct (re_match _ _) as [[[[[tY tm] td] [[tH tM] tS]] rest]|]; [|discriminate].
  destruct (negb _); [discriminate|].
  repeat match goal with
         | |- context [py_int ?t] => destruct (py_int t); cbn [rbind]; [|discriminate]
         end.
  intros H. now apply datetime_new_valid in H.
Qed.

Lemma hd_bind_ret {A B : Type} (m : matcher A) (f : A -> B) (s : text)
    (x : B) (r : text) :
  re_match (a <~ m ;; m_ret (f a)) s = Some (x, r) -> exists a, x = f a.
Proof.
  unfold re_match, m_bind, m_ret.
  destruct (m s) as [|[a r'] l]; cbn; [discriminate|].
  intros [= <- _]. now exists a.
Qed.

Lemma strptime_midnight (s : text) (d : datetime) :
  strptime s fmt_Ymd = Ok d -> midnight d.
Proof.
  unfold strptime.
  destruct (re_match _ _) as [[x rest]|] eqn:E; [|discriminate].
  cbn [format_regex] in E. apply hd_bind_ret in E. destruct E as ([[tY tm] td] & ->).
  destruct (negb _); [discriminate|].
  destruct (py_int tY); cbn [rbind]; [|discriminate].
  destruct (py_int tm); cbn [rbind]; [|discriminate].
  destruct (py_int td); cbn [rbind]; [|discriminate].
  change (py_int ["0"%char]) with (Ok 0%Z). cbn [rbind].
  intros H. apply datetime_new_valid in H.
  destruct H as ((_ & _ & _ & _ & _ & _ & Hus) & Hh & Hm & Hs).
  unfold midnight. auto.
Qed.

Lemma store_field_valid (doc : dict) (field_name value : text) (doc' : dict) :
  date_is_str doc ->
  (forall d, dict_get doc "qso_datetime" = Some (VDatetime d) -> valid_datetime d) ->
  store_field doc field_name value = Ok doc' ->
  forall d, dict_get doc' "qso_datetime" = Some (VDatetime d) -> valid_datetime d.
Proof.
  intros Hdoc HP E d Hd.
  destruct (store_field_spec doc field_name value Hdoc) as (doc2 & E2 & Hdoc2).
  rewrite E2 in E. injection E as <-.
  destruct (text_eqb_spec field_name "qso_datetime") as [->|Ek].
  { rewrite dict_get_set_same in Hd. injection Hd as Hd.
    rewrite stored_value_str in Hd by reflexivity. discriminate Hd. }
  rewrite dict_get_set_other in Hd by assumption.
  destruct Hdoc2 as [->|[(d0 & _ & _ & Hs & ->)|(d0 & ds & _ & _ & _ & _ & Hs & ->)]].
  - now apply HP.
  - rewrite dict_get_set_same in Hd. injection Hd as <-. now apply strptime_valid in Hs.
  - rewrite dict_get_set_same in Hd. injection Hd as <-. now apply strptime_valid in Hs.
Qed.

Lemma for_each_valid (ms : list (text * text * text)) :
  Forall good_match ms ->
  forall doc0 doc, date_is_str doc0 ->
    (forall d, dict_get doc0 "qso_datetime" = Some (VDatetime d) -> valid_datetime d) ->
    for_each process_match ms doc0 = Ok doc ->
    forall d, dict_get doc "qso_datetime" = Some (VDatetime d) -> valid_datetime d.
Proof.
  induction 1 as [|m ms Hm Hms IH]; intros doc0 doc Hdoc0 HP E.
  - now injection E as <-.
  - cbn [for_each] in E.
    destruct (process_match doc0 m) as [doc1|e] eqn:E1; cbn [rbind] in E;
      [|discriminate].
    destruct (process_match_step doc0 doc1 m Hm Hdoc0 E1) as (_ & Hdoc1 & _).
    apply (IH doc1 doc Hdoc1); [|exact E].
    rewrite process_match_eq in E1 by assumption.
    destruct (length_ok m); [|discriminate].
    destruct (has_value m); [|now injection E1 as <-].
    now apply (store_field_valid doc0 (field_name_of m) (field_value m)).
Qed.

(** X12.  A datetime under [qso_datetime] is a date and time of the
    calendar: a date such as the 30th of February, or a time such as
    25:00, is never stored as a datetime.  The datetime that a date field
    derives is the start of that day. *)
Theorem X12_datetime_of_calendar (utcnow : nat -> datetime) (content : text)
    (docs : list dict) (doc : dict) (d : datetime) :
  parse_adif utcnow content = Ok docs ->
  In doc docs ->
  dict_get doc "qso_datetime" = Some (VDatetime d) ->
  valid_datetime d
  /\ (forall (doc0 doc1 : dict) (value : text),
        store_field doc0 "qso_date" value = Ok doc1 ->
        dict_get doc1 "qso_datetime" <> dict_get doc0 "qso_datetime" ->
        exists d1, dict_get doc1 "qso_datetime" = Some (VDatetime d1)
                   /\ midnight d1 /\ length value = 8).
Proof.
  intros E Hin Hd. split.
  - unfold parse_adif in E.
    pose proof (parse_records_docs utcnow _ 0 docs E) as HF.
    rewrite Forall_forall in HF.
    destruct (HF doc Hin) as (record & doc0 & j & _ & Ep & ->).
    rewrite dict_get_set_other in Hd by discriminate.
    unfold parse_record in Ep.
    apply (for_each_valid _ (finditer_good (strip record)) [] doc0 I); auto.
    intros d0 H0. discriminate H0.
  - intros doc0 doc1 value. unfold store_field.
    change (numeric_value "qso_date" value) with (Ok (VStr value)). cbn [rbind].
    destruct (date_step_str doc0 "qso_date" value) as [->|(d1 & _ & H8 & Hs & ->)];
      cbn [rbind]; rewrite time_step_other by discriminate; cbn [rbind];
      intros [= <-]; rewrite dict_get_set_other by discriminate.
    + intros H. now contradiction H.
    + intros _. exists d1. rewrite dict_get_set_same.
      split; [reflexivity|]. split; [now apply strptime_midnight in Hs|exact H8].
Qed.

Lemma X12_datetime_of_calendar_witness :
  parse_adif sample_clock "<qso_date:8>20240229<time_on:4>2359"
  = Ok [[("qso_datetime" : text, VDatetime (mk_datetime 2024 2 29 23 59 0 0));
         ("qso_date" : text, VStr "20240229"); ("time_on" : text, VStr "2359");
         ("imported_at" : text, VDatetime (sample_clock 0))]]
  /\ valid_datetime (mk_datetime 2024 2 29 23 59 0 0)
  /\ parse_adif sample_clock "<qso_date:8>20230229<time_on:4>2359"
     = Ok [[("qso_date" : text, VStr "20230229"); ("time_on" : text, VStr "2359");
            ("imported_at" : text, VDatetime (sample_clock 0))]].
Proof.
  assert (E : parse_adif sample_clock "<qso_date:8>20240229<time_on:4>2359"
              = Ok [[("qso_datetime" : text,
                      VDatetime (mk_datetime 2024 2 29 23 59 0 0));
                     ("qso_date" : text, VStr "20240229");
                     ("time_on" : text, VStr "2359");
                     ("imported_at" : text, VDatetime (sample_clock 0))]])
    by (vm_compute; reflexivity).
  split; [exact E|]. split; [|vm_compute; reflexivity].
  exact (proj1 (X12_datetime_of_calendar sample_clock _ _ _
                  (mk_datetime 2024 2 29 23 59 0 0) E (or_introl eq_refl) eq_refl)).
Defined.

(* ------------------------------------------------------------------ *)
(** ** A run that the parser ends *)

Lemma for_each_ok_lengths (ms : list (text * text * text)) :
  Forall good_match ms ->
  forall doc doc', date_is_str doc ->
    for_each process_match ms doc = Ok doc' -> forallb length_ok ms = true.
Proof.
  induction 1 as [|m ms Hm Hms IH]; intros doc doc' Hdoc E; [reflexivity|].
  cbn [for_each forallb] in *.
  destruct (process_match doc m) as [doc1|e] eqn:E1; cbn [rbind] in E;
    [|discriminate].
  destruct (process_match_step doc doc1 m Hm Hdoc E1) as (Hl & Hdoc1 & _).
  rewrite Hl. exact (IH doc1 doc' Hdoc1 E).
Qed.

Lemma fields_of_blank (record : text) :
  is_nil (strip record) = true -> fields_of record = [].
Proof.
  unfold fields_of. destruct (strip record); [|discriminate].
  intros _. now rewrite finditer_field_eq.
Qed.

Lemma parse_record_lengths (record : text) (doc : dict) :
  parse_record (strip record) = Ok doc -> lengths_ok record = true.
Proof.
  unfold parse_record. intros E.
  exact (for_each_ok_lengths _ (finditer_good (strip record)) [] doc I E).
Qed.

Lemma parse_records_ok_lengths (utcnow : nat -> datetime) (records : list text) :
  forall k docs, parse_records utcnow k records = Ok docs ->
    forallb lengths_ok records = true.
Proof.
  induction records as [|record rest IH]; intros k docs E; [reflexivity|].
  cbn [parse_records forallb] in *.
  destruct (is_nil (strip record)) eqn:Hb.
  - unfold lengths_ok at 1. rewrite (fields_of_blank record Hb). cbn [forallb andb].
    exact (IH k docs E).
  - destruct (parse_record (strip record)) as [doc0|e] eqn:Ep; cbn [rbind] in E;
      [|discriminate].
    rewrite (parse_record_lengths record doc0 Ep). cbn [andb].
    destruct (is_nil doc0); [exact (IH k docs E)|].
    destruct (parse_records utcnow (S k) rest) as [docs'|e] eqn:Er; cbn [rbind] in E;
      [|discriminate].
    exact (IH (S k) docs' Er).
Qed.

(** X11.  One declared length beyond what [int] reads, in a field of a
    segment of the body, ends the run before the store is touched: the
    records are all parsed before the first write, so nothing is written,
    nothing more is printed than the first line, and the connection is
    left open.  The segments are those of the text after the first
    end-of-header marker: a length in the header is dropped with the
    header and is never read. *)
Theorem X11_length_error_aborts {Store Id : Type}
    (insert_many : Store -> list dict -> Store * result (list Id))
    (utcnow : nat -> datetime) (content : text) (collection : Store) :
  forallb lengths_ok (segments content) = false ->
  parse_adif utcnow content = Raise ValueError
  /\ main insert_many utcnow content collection
     = ([Print parsing_line], collection, Raise ValueError)
  /\ (forall header m body : text,
        free_of "<EOH>" header -> spells "<EOH>" m ->
        segments (header ++ m ++ body) = re_split eor_pattern body).
Proof.
  intros Hl.
  assert (E : parse_adif utcnow content = Raise ValueError).
  { destruct (parse_adif utcnow content) as [docs|e] eqn:E.
    - unfold parse_adif in E. fold (segments content) in E.
      apply parse_records_ok_lengths in E. congruence.
    - unfold parse_adif in E. apply parse_records_exn in E. now destruct E as [-> _]. }
  split; [exact E|]. split; [unfold main; now rewrite E|].
  intros header m body Hh Hm. unfold segments.
  now rewrite strip_header_eq, search_app_marker.
Qed.

Lemma X11_length_error_aborts_witness :
  forallb lengths_ok
    (segments ("<call:4>W1AW<eor><a:" ++ repeat "1"%char 4301 ++ ">x")) = false
  /\ main list_insert_many sample_clock
       ("<call:4>W1AW<eor><a:" ++ repeat "1"%char 4301 ++ ">x") []
     = ([Print parsing_line], [], Raise ValueError)
  /\ parse_adif sample_clock
       (("<a:" ++ repeat "1"%char 4301 ++ ">x") ++ "<eoh>" ++ "<call:4>W1AW")
     = Ok [[("call" : text, VStr "W1AW");
            ("imported_at" : text, VDatetime (sample_clock 0))]].
Proof.
  split; [vm_compute; reflexivity|].
  split; [|vm_compute; reflexivity].
  apply (X11_length_error_aborts list_insert_many sample_clock
           ("<call:4>W1AW<eor><a:" ++ repeat "1"%char 4301 ++ ">x") []).
  vm_compute. reflexivity.
Defined.

(* ------------------------------------------------------------------ *)
(** ** The records in the order of the file *)

Lemma parse_records_closed (utcnow : nat -> datetime) (records : list text) :
  forall k docs, parse_records utcnow k records = Ok docs ->
    docs = stamped utcnow k (map document_of (filter nonempty_record records)).
Proof.
  induction records as [|record rest IH]; intros k docs E;
    cbn [parse_records filter] in *.
  - now injection E as <-.
  - destruct (is_nil (strip record)) eqn:Hb.
    { rewrite (blank_no_record record Hb). exact (IH k docs E). }
    destruct (parse_record (strip record)) as [doc0|e] eqn:Ep; cbn [rbind] in E;
      [|discriminate].
    destruct (parse_record_ok record (parse_record_lengths record doc0 Ep))
      as (doc & Ep' & Hnil).
    rewrite Ep in Ep'. injection Ep' as <-. rewrite Hnil in E.
    destruct (nonempty_record record); cbn [negb] in E; [|exact (IH k docs E)].
    destruct (parse_records utcnow (S k) rest) as [docs'|e] eqn:Er; cbn [rbind] in E;
      [|discriminate].
    injection E as <-. cbn [map stamped]. unfold document_of at 1. rewrite Ep.
    f_equal. exact (IH (S k) docs' Er).
Qed.

Lemma stamped_length (utcnow : nat -> datetime) (docs : list dict) :
  forall k, length (stamped utcnow k docs) = length docs.
Proof. induction docs as [|d r IH]; intros k; cbn; [reflexivity|now rewrite IH]. Qed.

Lemma stamped_nth (utcnow : nat -> datetime) (docs : list dict) :
  forall k i doc, nth_error docs i = Some doc ->
    nth_error (stamped utcnow k docs) i
    = Some (dict_set doc "imported_at" (VDatetime (utcnow (k + i)))).
Proof.
  induction docs as [|d r IH]; intros k [|i] doc H; try discriminate H;
    cbn [stamped nth_error] in *.
  - injection H as <-. now rewrite Nat.add_0_r.
  - rewrite (IH (S k) i doc H). do 4 f_equal. lia.
Qed.

(** X7.  The records come out in the order of the file, one for each
    segment that holds a field with a value, and each is the document of
    its own segment with the stamp added: nothing is carried from one
    record to the next. *)
Theorem X7_records_in_file_order (utcnow : nat -> datetime) (content : text)
    (docs : list dict) :
  parse_adif utcnow content = Ok docs ->
  docs = stamped utcnow 0
           (map document_of (filter nonempty_record (segments content)))
  /\ forall i record,
       nth_error (filter nonempty_record (segments content)) i = Some record ->
       nth_error docs i
       = Some (dict_set (document_of record) "imported_at"
                 (VDatetime (utcnow i))).
Proof.
  intros E. unfold parse_adif in E. fold (segments content) in E.
  apply parse_records_closed in E. split; [exact E|].
  intros i record Hi. rewrite E.
  apply (stamped_nth utcnow _ 0 i (document_of record)).
  now rewrite nth_error_map, Hi.
Qed.

Lemma X7_records_in_file_order_witness :
  parse_adif sample_clock "<call:4>W1AW<eor> <eor><x:0><eor><call:4>K1AB"
  = Ok [[("call" : text, VStr "W1AW");
         ("imported_at" : text, VDatetime (sample_clock 0))];
        [("call" : text, VStr "K1AB");
         ("imported_at" : text, VDatetime (sample_clock 1))]]
  /\ [[("call" : text, VStr "W1AW");
         ("imported_at" : text, VDatetime (sample_clock 0))];
        [("call" : text, VStr "K1AB");
         ("imported_at" : text, VDatetime (sample_clock 1))]]
     = stamped sample_clock 0
         (map document_of
            (filter nonempty_record
               (segments "<call:4>W1AW<eor> <eor><x:0><eor><call:4>K1AB"))).
Proof.
  assert (E : parse_adif sample_clock "<call:4>W1AW<eor> <eor><x:0><eor><call:4>K1AB"
              = Ok [[("call" : text, VStr "W1AW");
                     ("imported_at" : text, VDatetime (sample_clock 0))];
                    [("call" : text, VStr "K1AB");
                     ("imported_at" : text, VDatetime (sample_clock 1))]])
    by (vm_compute; reflexivity).
  split; [exact E|].
  exact (proj1 (X7_records_in_file_order sample_clock _ _ E)).
Defined.

(* ------------------------------------------------------------------ *)
(** ** Logs put end to end *)

Lemma prefix_i_app (xs s r t : text) :
  prefix_i xs s = Some r -> prefix_i xs (s ++ t) = Some (r ++ t).
Proof.
  revert s. induction xs as [|x xs IH]; intros s; cbn [prefix_i].
  - now intros [= ->].
  - destruct s as [|c s]; [discriminate|]. cbn [app].
    destruct (Ascii.eqb _ _); [apply IH|discriminate].
Qed.

Lemma prefix_i_lt_app (xs a t : text) :
  xs = "<EOH>" \/ xs = "<EOR>" -> a <> [] ->
  prefix_i xs a = None -> prefix_i xs (a ++ "<"%char :: t) = None.
Proof.
  intros Hxs Ha Hnone. destruct a as [|c a]; [contradiction|]. cbn [app].
  destruct Hxs as [-> | ->].
  - change (list_ascii_of_string "<EOH>")
      with ("<"%char :: list_ascii_of_string "EOH>") in *.
    cbn [prefix_i] in Hnone |- *.
    destruct (Ascii.eqb (lower_char c) (lower_char "<")); [|reflexivity].
    now apply (prefix_i_app_lt _ a t).
  - change (list_ascii_of_string "<EOR>")
      with ("<"%char :: list_ascii_of_string "EOR>") in *.
    cbn [prefix_i] in Hnone |- *.
    destruct (Ascii.eqb (lower_char c) (lower_char "<")); [|reflexivity].
    now apply (prefix_i_app_lt _ a t).
Qed.

Lemma split_not_nil (s : text) : re_split eor_pattern s <> [].
Proof.
  rewrite split_eor_eq. destruct s as [|c r]; [discriminate|].
  destruct (prefix_i _ _); [discriminate|].
  unfold cons_head. destruct (re_split eor_pattern r); discriminate.
Qed.

Lemma cons_head_app (c : ascii) (l l' : list text) :
  l <> [] -> cons_head c (l ++ l') = cons_head c l ++ l'.
Proof. destruct l; [contradiction|reflexivity]. Qed.

(** Splitting distributes over a marker. *)
Lemma split_app (m t : text) :
  spells "<EOR>" m ->
  forall s, re_split eor_pattern (s ++ m ++ t)
            = re_split eor_pattern s ++ re_split eor_pattern t.
Proof.
  intros Hm s. remember (length s) as n eqn:Hn.
  revert s Hn. induction n as [n IH] using lt_wf_ind. intros s Hn.
  rewrite (split_eor_eq (s ++ m ++ t)), (split_eor_eq s).
  destruct s as [|c r].
  - cbn [app]. rewrite (spells_app _ m t Hm).
    destruct (m ++ t) eqn:E; [|reflexivity].
    apply spells_inv in Hm. destruct Hm as (x & y & z & -> & _). discriminate.
  - cbn [app]. change (c :: r ++ m ++ t) with ((c :: r) ++ m ++ t).
    destruct (prefix_i "<EOR>" (c :: r)) as [rest|] eqn:Ep.
    + rewrite (prefix_i_app _ _ _ (m ++ t) Ep). cbn [app]. f_equal.
      apply prefix_i_length in Ep. apply (IH (length rest)); [|reflexivity].
      subst n. simpl in Ep. simpl. lia.
    + rewrite prefix_i_marker_app; auto; [|discriminate].
      rewrite (IH (length r)); [|subst n; cbn [length]; lia|reflexivity].
      apply cons_head_app, split_not_nil.
Qed.

Lemma spells_eor_no_eoh (m b : text) :
  spells "<EOR>" m -> free_of "<EOH>" b -> search_i "<EOH>" (m ++ b) = None.
Proof.
  intros Hm Hb. apply spells_inv in Hm.
  destruct Hm as (x & y & z & -> & Hx & Hy & Hz).
  apply Ascii.eqb_eq in Hx, Hy, Hz.
  change (list_ascii_of_string "<EOH>")
    with ["<"%char; "E"%char; "O"%char; "H"%char; ">"%char].
  cbn [app search_i prefix_i]. rewrite Hx, Hy, Hz.
  change (lower_char "<") with "<"%char. change (lower_char ">") with ">"%char.
  change (lower_char "E") with "e"%char. change (lower_char "O") with "o"%char.
  change (lower_char "R") with "r"%char. change (lower_char "H") with "h"%char.
  cbn [Ascii.eqb Bool.eqb].
  now apply search_free in Hb.
Qed.

Lemma search_app_eor (a m b : text) :
  spells "<EOR>" m -> free_of "<EOH>" b ->
  search_i "<EOH>" (a ++ m ++ b)
  = match search_i "<EOH>" a with
    | Some r => Some (r ++ m ++ b)
    | None => None
    end.
Proof.
  intros Hm Hb. induction a as [|c r IH].
  - cbn [app]. now rewrite spells_eor_no_eoh.
  - change ((c :: r) ++ m ++ b) with (c :: (r ++ m ++ b)).
    destruct (prefix_i "<EOH>" (c :: r)) as [rest|] eqn:Ep.
    + rewrite (search_i_head _ _ _ Ep).
      apply search_i_head.
      change (c :: r ++ m ++ b) with ((c :: r) ++ m ++ b).
      now apply prefix_i_app.
    + rewrite (search_i_tail _ c r Ep).
      rewrite search_i_tail; [exact IH|].
      change (c :: r ++ m ++ b) with ((c :: r) ++ m ++ b).
      assert (exists m', m = "<"%char :: m') as [m' ->].
      { apply spells_inv in Hm. destruct Hm as (x & y & z & -> & _). eauto. }
      apply (prefix_i_lt_app "<EOH>" (c :: r) (m' ++ b)); auto. discriminate.
Qed.

Lemma strip_header_app_eor (a m b : text) :
  spells "<EOR>" m -> free_of "<EOH>" b ->
  strip_header (a ++ m ++ b) = strip_header a ++ m ++ b.
Proof.
  intros Hm Hb. rewrite !strip_header_eq, search_app_eor by assumption.
  now destruct (search_i "<EOH>" a).
Qed.

Lemma parse_records_shift (utcnow : nat -> datetime) (n : nat) (records : list text) :
  forall k, parse_records utcnow (n + k) records
            = parse_records (fun j => utcnow (n + j)) k records.
Proof.
  induction records as [|record rest IH]; intros k; cbn [parse_records];
    [reflexivity|].
  destruct (is_nil (strip record)); [apply IH|].
  destruct (parse_record (strip record)) as [doc|e]; cbn [rbind]; [|reflexivity].
  destruct (is_nil doc); [apply IH|].
  now rewrite <- IH, Nat.add_succ_r.
Qed.

Lemma parse_records_app (utcnow : nat -> datetime) (l1 l2 : list text) :
  forall k, parse_records utcnow k (l1 ++ l2)
            = (d1 <- parse_records utcnow k l1 ;;
               d2 <- parse_records utcnow (length d1 + k) l2 ;;
               Ok (d1 ++ d2)%list).
Proof.
  induction l1 as [|record rest IH]; intros k; cbn [app parse_records rbind].
  - cbn [length plus app]. now destruct (parse_records utcnow k l2).
  - destruct (is_nil (strip record)); [apply IH|].
    destruct (parse_record (strip record)) as [doc|e]; cbn [rbind]; [|reflexivity].
    destruct (is_nil doc); [apply IH|].
    rewrite IH. destruct (parse_records utcnow (S k) rest) as [d1|e]; cbn [rbind];
      [|reflexivity].
    cbn [length]. rewrite Nat.add_succ_r. cbn [plus].
    now destruct (parse_records utcnow (S (length d1 + k)) l2).
Qed.

(** X8.  Two logs put end to end with a marker between them give the
    records of the first followed by the records of the second, the
    clock running on; the second log must have no header of its own,
    since everything before the first end-of-header marker is dropped.
    So a marker after the last record changes nothing. *)
Theorem X8_logs_end_to_end (utcnow : nat -> datetime) (a m b : text) :
  spells "<EOR>" m -> free_of "<EOH>" b ->
  parse_adif utcnow (a ++ m ++ b)
  = (d1 <- parse_adif utcnow a ;;
     d2 <- parse_adif (fun j => utcnow (length d1 + j)) b ;;
     Ok (d1 ++ d2)%list)
  /\ parse_adif utcnow (a ++ m) = parse_adif utcnow a.
Proof.
  intros Hm Hb.
  assert (H : forall b', free_of "<EOH>" b' ->
            parse_adif utcnow (a ++ m ++ b')
            = (d1 <- parse_adif utcnow a ;;
               d2 <- parse_adif (fun j => utcnow (length d1 + j)) b' ;;
               Ok (d1 ++ d2)%list)).
  { intros b' Hb'. unfold parse_adif.
    rewrite strip_header_app_eor, split_app, parse_records_app by assumption.
    destruct (parse_records utcnow 0 (re_split eor_pattern (strip_header a)))
      as [d1|e]; cbn [rbind]; [|reflexivity].
    rewrite (strip_header_eq b'), (search_free _ _ Hb').
    now rewrite parse_records_shift. }
  split; [now apply H|].
  rewrite <- (app_nil_r m), (H []) by (cbn; auto).
  destruct (parse_adif utcnow a) as [d1|e]; cbn [rbind]; [|reflexivity].
  change (parse_adif (fun j => utcnow (length d1 + j)) []) with (@Ok (list dict) []).
  cbn [rbind]. now rewrite app_nil_r.
Qed.

Lemma X8_logs_end_to_end_witness :
  spells "<EOR>" "<eor>" /\ free_of "<EOH>" "<call:4>K1AB<EOR>"
  /\ parse_adif sample_clock ("hdr<eoh><call:4>W1AW" ++ "<eor>" ++ "<call:4>K1AB<EOR>")
     = Ok [[("call" : text, VStr "W1AW");
            ("imported_at" : text, VDatetime (sample_clock 0))];
           [("call" : text, VStr "K1AB");
            ("imported_at" : text, VDatetime (sample_clock 1))]].
Proof.
  assert (H2 : free_of "<EOH>" "<call:4>K1AB<EOR>") by (vm_compute; repeat split).
  split; [reflexivity|]. split; [exact H2|].
  rewrite (proj1 (X8_logs_end_to_end sample_clock "hdr<eoh><call:4>W1AW" "<eor>"
                    "<call:4>K1AB<EOR>" eq_refl H2)).
  vm_compute. reflexivity.
Defined.

(* ------------------------------------------------------------------ *)
(** ** Whole numbers under the numeric names *)

Lemma digits_no_point (value : text) :
  forallb is_digit value = true -> contains "." value = false.
Proof.
  unfold contains. induction value as [|c r IH]; cbn [forallb existsb];
    [reflexivity|].
  intros H. apply andb_prop in H. destruct H as [Hc Hr]. rewrite (IH Hr).
  destruct (Ascii.eqb_spec "." c) as [<-|]; [discriminate Hc|reflexivity].
Qed.

Lemma numeric_field_facts (field_name : text) :
  In field_name numeric_fields ->
  is_numeric_field field_name = true
  /\ field_name <> "qso_date" /\ field_name <> "time_on".
Proof.
  unfold numeric_fields. cbn [In].
  intros H; repeat destruct H as [<-|H]; try contradiction;
    (split; [reflexivity|split; discriminate]).
Qed.

(** X13.  Under a numeric name a value made of digits is stored as the
    integer it writes, whatever its leading zeros, as long as it has at
    most 4300 digits; a longer one stays the text it was. *)
Theorem X13_integer_fields (doc : dict) (field_name value : text) :
  In field_name numeric_fields ->
  value <> [] -> forallb is_digit value = true ->
  store_field doc field_name value
  = Ok (dict_set doc field_name
          (if (length value <=? int_max_str_digits)%nat
           then VInt (Z_of_digits value) else VStr value)).
Proof.
  intros Hin Hne Hd. destruct (numeric_field_facts field_name Hin) as (Hnum & Hq & Ht).
  unfold store_field. rewrite numeric_value_ok. cbn [rbind].
  rewrite date_step_other by assumption. cbn [rbind].
  rewrite time_step_other by assumption. cbn [rbind].
  do 2 f_equal. unfold stored_value, convert_numeric.
  rewrite Hnum, (digits_no_point value Hd), (py_int_digits value Hne Hd).
  now destruct (_ <=? _)%nat.
Qed.

Lemma X13_integer_fields_witness :
  store_field [] "dxcc" "0291" = Ok [("dxcc" : text, VInt 291)].
Proof.
  apply (X13_integer_fields [] "dxcc" "0291").
  - vm_compute. tauto.
  - discriminate.
  - reflexivity.
Defined.

(* ------------------------------------------------------------------ *)
(** ** The time is read from six characters *)

Lemma normal_time_length (value : text) :
  length (slice_to (ljust value 6 "0") 6) = 6.
Proof.
  unfold slice_to, ljust. rewrite length_firstn, length_app, repeat_length. lia.
Qed.

Lemma normal_time_idem (value : text) :
  slice_to (ljust (slice_to (ljust value 6 "0") 6) 6 "0") 6
  = slice_to (ljust value 6 "0") 6.
Proof.
  pose proof (normal_time_length value) as H.
  set (t := slice_to (ljust value 6 "0") 6) in *.
  unfold ljust at 1. rewrite H. cbn [Nat.sub repeat]. rewrite app_nil_r.
  unfold slice_to at 1. apply firstn_all2. lia.
Qed.

Lemma time_step_padding (doc : dict) (value : text) :
  4 <= length value ->
  time_step doc "time_on" (VStr value)
  = time_step doc "time_on" (VStr (slice_to (ljust value 6 "0") 6)).
Proof.
  intros H4. unfold time_step.
  destruct (_ && _); [|reflexivity].
  destruct (dict_get_default doc "qso_date" (VStr "")) as [ds| | |];
    cbn [py_len rbind as_str]; try reflexivity.
  destruct (length ds =? 8)%nat; [|reflexivity].
  rewrite normal_time_length, normal_time_idem.
  destruct (Nat.leb_spec 4 (length value)) as [_|]; [reflexivity|lia].
Qed.

(* ------------------------------------------------------------------ *)
(** ** A text without tags *)

Lemma prefix_i_no_lt (xs s : text) :
  xs = "<EOH>" \/ xs = "<EOR>" -> forallb not_lt s = true -> prefix_i xs s = None.
Proof.
  intros Hxs Hs. destruct s as [|c r].
  - now destruct Hxs as [-> | ->].
  - cbn [forallb] in Hs. apply andb_prop in Hs. destruct Hs as [Hc _].
    assert (Hne : Ascii.eqb (lower_char c) (lower_char "<") = false).
    { destruct (Ascii.eqb (lower_char c) (lower_char "<")) eqn:E; [|reflexivity].
      apply ci_lt in E. subst c. discriminate Hc. }
    destruct Hxs as [-> | ->].
    + change (list_ascii_of_string "<EOH>")
        with ("<"%char :: list_ascii_of_string "EOH>").
      now rewrite prefix_i_cons, Hne.
    + change (list_ascii_of_string "<EOR>")
        with ("<"%char :: list_ascii_of_string "EOR>").
      now rewrite prefix_i_cons, Hne.
Qed.

Lemma free_of_no_lt (xs s : text) :
  xs = "<EOH>" \/ xs = "<EOR>" -> forallb not_lt s = true -> free_of xs s.
Proof.
  intros Hxs. induction s as [|c r IH]; intros Hs.
  - split; [now apply prefix_i_no_lt|exact I].
  - split; [now apply prefix_i_no_lt|].
    cbn [forallb] in Hs. apply andb_prop in Hs. now apply IH.
Qed.

Lemma finditer_no_lt (s : text) :
  forallb not_lt s = true -> re_finditer field_pattern s = [].
Proof.
  induction s as [|c r IH]; intros Hs; rewrite finditer_field_eq; [reflexivity|].
  cbn [forallb] in Hs. apply andb_prop in Hs. destruct Hs as [Hc Hr].
  unfold scan_field. rewrite expect_cons_neq; [now apply IH|].
  intros <-. discriminate Hc.
Qed.

(** X15.  A text without a single [<] holds no marker and no field: the
    parser returns no record and raises nothing, so a file that is not a
    log is imported as an empty one. *)
Theorem X15_text_without_tags (utcnow : nat -> datetime) (content : text) :
  forallb not_lt content = true ->
  segments content = [content]
  /\ parse_adif utcnow content = Ok [].
Proof.
  intros Hs.
  assert (E : segments content = [content]).
  { unfold segments. rewrite strip_header_eq.
    rewrite (search_free _ _ (free_of_no_lt "<EOH>" content (or_introl eq_refl) Hs)).
    apply split_free. now apply free_of_no_lt; [right|]. }
  split; [exact E|]. unfold parse_adif. fold (segments content). rewrite E.
  cbn [parse_records]. destruct (is_nil (strip content)); [reflexivity|].
  unfold parse_record. rewrite finditer_no_lt; [reflexivity|].
  unfold strip. now apply forallb_drop_while_end, forallb_drop_while.
Qed.

Lemma X15_text_without_tags_witness :
  parse_adif sample_clock "call W1AW, band 20m, 2024-01-15 14:30" = Ok [].
Proof.
  apply (X15_text_without_tags sample_clock "call W1AW, band 20m, 2024-01-15 14:30").
  reflexivity.
Defined.

(* ------------------------------------------------------------------ *)
(** ** The loader against any store *)



Section LoaderAnyStore.
Context {Store Id : Type}.
Variable insert_many : Store -> list dict -> Store * result (list Id).
Variable records : list dict.


End LoaderAnyStore.



Lemma concat_all_slices {A : Type} (l : list A) :
  concat (map (fun j => slice l (j * 100) (j * 100 + 100))
              (seq 0 (ceil_div (length l) 100))) = l.
Proof.
  rewrite concat_slices. apply firstn_all2.
  apply ceil_div_bound. lia.
Qed.



(* ------------------------------------------------------------------ *)
(** ** A run against a store that keeps what it is given *)

Lemma insert_batches_list_store (records : list dict) (total : nat)
    (offsets : list nat) :
  forall collection inserted,
    exists tr n,
      insert_batches list_insert_many records total offsets collection inserted
      = (tr,
         collection
         ++ concat (map (fun i => slice records i (i + batch_size)) offsets),
         Ok n).
Proof.
  induction offsets as [|i rest IH]; intros collection inserted;
    cbn [insert_batches map concat].
  - exists [], inserted. now rewrite app_nil_r.
  - unfold list_insert_many at 1.
    destruct (IH (collection ++ slice records i (i + batch_size))
                 (inserted
                  + length (seq (length collection)
                              (length (slice records i (i + batch_size))))))
      as (tr & n & ->).
    eexists. exists n. now rewrite app_assoc.
Qed.

(** X16.  Against a store that keeps what it is given, a run adds to the
    collection the records of the file, each once and in the order of the
    file, after what the collection held, and ends normally. *)
Theorem X16_run_appends_records (utcnow : nat -> datetime) (content : text)
    (collection docs : list dict) :
  parse_adif utcnow content = Ok docs ->
  exists tr,
    main list_insert_many utcnow content collection
    = (tr, collection ++ docs, Ok tt)
    /\ last tr Close = Close.
Proof.
  intros E. unfold main. rewrite E. unfold load.
  destruct (Nat.ltb_spec 0 (length docs)) as [Hpos|Hzero].
  - destruct (insert_batches_list_store docs (length docs)
                (py_range 0 (length docs) batch_size) collection 0)
      as (tr & n & ->).
    rewrite py_range_closed by (unfold batch_size; lia).
    rewrite map_map. unfold batch_size. rewrite concat_all_slices.
    eexists. split; [reflexivity|].
    change (Print parsing_line
            :: Print (found_line (length docs))
               :: tr ++ [Print (success_line n); Close])
      with ((Print parsing_line :: Print (found_line (length docs)) :: tr)
            ++ [Print (success_line n); Close]).
    change [Print (success_line n); Close]
      with ([Print (success_line n)] ++ [Close]).
    now rewrite app_assoc, last_last.
  - destruct docs; [|cbn [length] in Hzero; lia].
    rewrite app_nil_r. eexists. split; reflexivity.
Qed.

Lemma X16_run_appends_records_witness :
  exists tr,
    main list_insert_many sample_clock "<call:4>W1AW<eor><call:4>K1AB<eor>"
      [[("call" : text, VStr "N0CALL")]]
    = (tr,
       [[("call" : text, VStr "N0CALL")];
        [("call" : text, VStr "W1AW");
         ("imported_at" : text, VDatetime (sample_clock 0))];
        [("call" : text, VStr "K1AB");
         ("imported_at" : text, VDatetime (sample_clock 1))]],
       Ok tt).
Proof.
  destruct (X16_run_appends_records sample_clock "<call:4>W1AW<eor><call:4>K1AB<eor>"
              [[("call" : text, VStr "N0CALL")]]
              [[("call" : text, VStr "W1AW");
                ("imported_at" : text, VDatetime (sample_clock 0))];
               [("call" : text, VStr "K1AB");
                ("imported_at" : text, VDatetime (sample_clock 1))]]
              ltac:(vm_compute; reflexivity)) as (tr & E & _).
  exists tr. exact E.
Defined.

(* ------------------------------------------------------------------ *)
(** ** [strptime] on dates and times written with all their digits *)

Lemma is_digit_cases (c : ascii) :
  is_digit c = true ->
  In c ["0"; "1"; "2"; "3"; "4"; "5"; "6"; "7"; "8"; "9"]%char.
Proof.
  destruct c as [b0 b1 b2 b3 b4 b5 b6 b7].
  destruct b0, b1, b2, b3, b4, b5, b6, b7; vm_compute; intros H;
    try discriminate H; auto 12.
Qed.

Lemma digits_in_facts (n : nat) (lo hi : Z) (t : text) :
  digits_in n lo hi t = true ->
  length t = n /\ forallb is_digit t = true.
Proof.
  unfold digits_in. intros H.
  repeat (apply andb_prop in H; destruct H as [H ?]).
  split; [now apply Nat.eqb_eq|assumption].
Qed.

Lemma py_int_short (t : text) (n : nat) :
  length t = n -> 0 < n <= 4 -> forallb is_digit t = true ->
  py_int t = Ok (Z_of_digits t).
Proof.
  intros Hn Hb Hd. rewrite py_int_digits; [|destruct t; [cbn in Hn; lia|discriminate]|exact Hd].
  destruct (Nat.leb_spec (length t) int_max_str_digits) as [_|H]; [reflexivity|].
  exfalso. rewrite Hn in H. apply Nat.lt_le_incl in H.
  assert (H5 : 5 <= n).
  { etransitivity; [|exact H]. unfold int_max_str_digits. do 5 apply le_n_S.
    apply Nat.le_0_l. }
  lia.
Qed.

Lemma hd_bind {A B : Type} (m : matcher A) (k : A -> matcher B) (s : text)
    (a : A) (rest : text) (r : B * text) :
  hd_error (m s) = Some (a, rest) ->
  hd_error (k a rest) = Some r ->
  hd_error ((x <~ m ;; k x) s) = Some r.
Proof.
  unfold m_bind. destruct (m s) as [|[a' rest'] l]; [discriminate|].
  intros [= -> ->] H. cbn [flat_map fst snd].
  destruct (k a rest); [discriminate H|exact H].
Qed.

Ltac two_digits H :=
  let Ha := fresh "Ha" in
  let Hb := fresh "Hb" in
  match type of H with
  | digits_in _ _ _ ?t = true =>
      destruct t as [|?a [|?b [|? ?]]]; try discriminate H;
      pose proof (proj2 (digits_in_facts _ _ _ _ H)) as Ha;
      cbn [forallb] in Ha; apply andb_prop in Ha; destruct Ha as [Ha Hb];
      apply andb_prop in Hb; destruct Hb as [Hb _];
      apply is_digit_cases in Ha; apply is_digit_cases in Hb;
      cbn [In] in Ha, Hb;
      repeat (destruct Ha as [<-|Ha]); try contradiction;
      repeat (destruct Hb as [<-|Hb]); try contradiction;
      vm_compute in H; try discriminate H; vm_compute; reflexivity
  end.

Lemma re_Y_four (t rest : text) :
  digits_in 4 0 9999 t = true -> hd_error (re_Y (t ++ rest)) = Some (t, rest).
Proof.
  intros H. destruct (digits_in_facts _ _ _ _ H) as [Hl Hd].
  destruct t as [|a [|b [|c [|d [|? ?]]]]]; try discriminate Hl.
  cbn [forallb] in Hd.
  repeat (apply andb_prop in Hd; let H := fresh "H" in destruct Hd as [H Hd]).
  unfold re_Y, m_bind, m_class, m_ret. cbn [app].
  rewrite H0. cbn [flat_map fst snd app]. rewrite H1. cbn [flat_map fst snd app].
  rewrite H2. cbn [flat_map fst snd app]. rewrite H3. reflexivity.
Qed.

Lemma re_m_two (t rest : text) :
  digits_in 2 1 12 t = true -> hd_error (re_m (t ++ rest)) = Some (t, rest).
Proof. intros H. two_digits H. Qed.

Lemma re_d_two (t rest : text) :
  digits_in 2 1 31 t = true -> hd_error (re_d (t ++ rest)) = Some (t, rest).
Proof. intros H. two_digits H. Qed.

Lemma re_H_two (t rest : text) :
  digits_in 2 0 23 t = true -> hd_error (re_H (t ++ rest)) = Some (t, rest).
Proof. intros H. two_digits H. Qed.

Lemma re_M_two (t rest : text) :
  digits_in 2 0 59 t = true -> hd_error (re_M (t ++ rest)) = Some (t, rest).
Proof. intros H. two_digits H. Qed.

Lemma re_S_two (t rest : text) :
  digits_in 2 0 61 t = true -> hd_error (re_S (t ++ rest)) = Some (t, rest).
Proof. intros H. two_digits H. Qed.

Lemma re_date_digits (y m d rest : text) :
  digits_in 4 0 9999 y = true -> digits_in 2 1 12 m = true ->
  digits_in 2 1 31 d = true ->
  hd_error (re_date (y ++ m ++ d ++ rest)) = Some ((y, m, d), rest).
Proof.
  intros Hy Hm Hd. unfold re_date.
  eapply hd_bind; [now apply re_Y_four|].
  eapply hd_bind; [now apply re_m_two|].
  eapply hd_bind; [now apply re_d_two|]. reflexivity.
Qed.

Lemma re_time_digits (hh mm ss rest : text) :
  digits_in 2 0 23 hh = true -> digits_in 2 0 59 mm = true ->
  digits_in 2 0 61 ss = true ->
  hd_error (re_time (hh ++ mm ++ ss ++ rest)) = Some ((hh, mm, ss), rest).
Proof.
  intros Hh Hm Hs. unfold re_time.
  eapply hd_bind; [now apply re_H_two|].
  eapply hd_bind; [now apply re_M_two|].
  eapply hd_bind; [now apply re_S_two|]. reflexivity.
Qed.

Lemma py_int_digits_in (n : nat) (lo hi : Z) (t : text) :
  0 < n <= 4 -> digits_in n lo hi t = true -> py_int t = Ok (Z_of_digits t).
Proof.
  intros Hn H. destruct (digits_in_facts _ _ _ _ H) as [Hl Hd].
  now apply (py_int_short t n).
Qed.

(** A date and a time written with all their digits are read field by
    field. *)
Lemma strptime_YmdHMS (y m d hh mm ss : text) :
  digits_in 4 0 9999 y = true -> digits_in 2 1 12 m = true ->
  digits_in 2 1 31 d = true -> digits_in 2 0 23 hh = true ->
  digits_in 2 0 59 mm = true -> digits_in 2 0 61 ss = true ->
  strptime (y ++ m ++ d ++ hh ++ mm ++ ss) fmt_YmdHMS
  = datetime_new (Z_of_digits y) (Z_of_digits m) (Z_of_digits d)
      (Z_of_digits hh) (Z_of_digits mm) (Z_of_digits ss).
Proof.
  intros Hy Hm Hd Hh Hn Hs. unfold strptime, re_match.
  assert (E : hd_error (format_regex fmt_YmdHMS
                          (y ++ m ++ d ++ hh ++ mm ++ ss ++ []))
              = Some (((y, m, d), (hh, mm, ss)), [])).
  { cbn [format_regex].
    eapply hd_bind; [now apply re_date_digits|].
    eapply hd_bind; [now apply re_time_digits|reflexivity]. }
  rewrite app_nil_r in E. rewrite E. cbn [is_nil negb].
  assert (H4 : 0 < 4 <= 4) by (split; [apply Nat.lt_0_succ|apply le_n]).
  assert (H2 : 0 < 2 <= 4) by (split; [apply Nat.lt_0_succ|do 2 apply le_S; apply le_n]).
  rewrite (py_int_digits_in 4 _ _ y H4 Hy), (py_int_digits_in 2 _ _ m H2 Hm),
    (py_int_digits_in 2 _ _ d H2 Hd), (py_int_digits_in 2 _ _ hh H2 Hh),
    (py_int_digits_in 2 _ _ mm H2 Hn), (py_int_digits_in 2 _ _ ss H2 Hs).
  reflexivity.
Qed.

Lemma digits_in_length (n : nat) (lo hi : Z) (t : text) :
  digits_in n lo hi t = true -> length t = n.
Proof. intros H. now apply digits_in_facts in H. Qed.

(** X14.  Only the first six characters of a time count for the derived
    datetime, and a time of four or five characters is read as if it were
    filled up with zeros on the right: the datetime is the one that the
    six-character time gives.  When the stored date and the six
    characters are written with all their digits, that datetime has the
    year, month and day of the date and the hour, minute and second of
    the six characters, if these make a date and time of the calendar;
    if they do not, the entry stays what it was. *)
Theorem X14_time_on_padding (doc : dict) (value : text) :
  date_is_str doc -> 4 <= length value ->
  exists doc1 doc2,
    store_field doc "time_on" value = Ok doc1
    /\ store_field doc "time_on" (slice_to (ljust value 6 "0") 6) = Ok doc2
    /\ dict_get doc1 "qso_datetime" = dict_get doc2 "qso_datetime"
    /\ length (slice_to (ljust value 6 "0") 6) = 6
    /\ (forall y m d hh mm ss : text,
          dict_get doc "qso_date" = Some (VStr (y ++ m ++ d)%list) ->
          slice_to (ljust value 6 "0") 6 = (hh ++ mm ++ ss)%list ->
          digits_in 4 0 9999 y = true -> digits_in 2 1 12 m = true ->
          digits_in 2 1 31 d = true -> digits_in 2 0 23 hh = true ->
          digits_in 2 0 59 mm = true -> digits_in 2 0 61 ss = true ->
          dict_get doc1 "qso_datetime"
          = match datetime_new (Z_of_digits y) (Z_of_digits m) (Z_of_digits d)
                    (Z_of_digits hh) (Z_of_digits mm) (Z_of_digits ss) with
            | Ok dt => Some (VDatetime dt)
            | Raise _ => dict_get doc "qso_datetime"
            end).
Proof.
  intros Hdoc H4. unfold store_field.
  change (numeric_value "time_on" value) with (Ok (VStr value)).
  change (numeric_value "time_on" (slice_to (ljust value 6 "0") 6))
    with (Ok (VStr (slice_to (ljust value 6 "0") 6))).
  cbn [rbind]. rewrite !date_step_other by discriminate. cbn [rbind].
  rewrite <- (time_step_padding doc value H4).
  assert (exists docT, time_step doc "time_on" (VStr value) = Ok docT) as [docT ET].
  { destruct (time_step_str doc "time_on" value Hdoc)
      as [->|(d & ds & _ & _ & _ & _ & _ & ->)]; eauto. }
  rewrite ET. cbn [rbind]. eexists. eexists.
  split; [reflexivity|]. split; [reflexivity|].
  split; [now rewrite !dict_get_set_other by discriminate|].
  split; [apply normal_time_length|].
  intros y m d hh mm ss Hdate Hsix Hy Hm Hd Hh Hn Hs.
  rewrite dict_get_set_other by discriminate.
  revert ET. unfold time_step, dict_mem, dict_get_default.
  rewrite Hdate, text_eqb_refl. cbn [andb py_len rbind as_str].
  rewrite !length_app, (digits_in_length _ _ _ _ Hy), (digits_in_length _ _ _ _ Hm),
    (digits_in_length _ _ _ _ Hd).
  cbn [plus Nat.eqb].
  destruct (Nat.leb_spec 4 (length value)) as [_|]; [|lia].
  rewrite Hsix, <- !app_assoc.
  rewrite (strptime_YmdHMS y m d hh mm ss Hy Hm Hd Hh Hn Hs).
  destruct (datetime_new _ _ _ _ _ _) as [dt|e] eqn:E; cbn [rbind except_ValueError].
  - intros [= <-]. apply dict_get_set_same.
  - apply datetime_new_exn in E. subst e. cbn [except_ValueError].
    now intros [= <-].
Qed.

Lemma X14_time_on_padding_witness :
  date_is_str [("qso_date" : text, VStr "20240115")]
  /\ exists doc1 doc2,
       store_field [("qso_date" : text, VStr "20240115")] "time_on" "14305"
       = Ok doc1
       /\ store_field [("qso_date" : text, VStr "20240115")] "time_on" "143050"
          = Ok doc2
       /\ dict_get doc1 "qso_datetime" = dict_get doc2 "qso_datetime"
       /\ dict_get doc1 "qso_datetime"
          = Some (VDatetime (mk_datetime 2024 1 15 14 30 50 0)).
Proof.
  split; [exact I|].
  destruct (X14_time_on_padding [("qso_date" : text, VStr "20240115")] "14305" I
              ltac:(cbn; lia)) as (doc1 & doc2 & E1 & E2 & H & _ & Hv).
  exists doc1, doc2. split; [exact E1|]. split; [exact E2|]. split; [exact H|].
  exact (Hv "2024" "01" "15" "14" "30" "50" eq_refl eq_refl
            eq_refl eq_refl eq_refl eq_refl eq_refl eq_refl).
Defined.

(* ------------------------------------------------------------------ *)
(** ** A record holds the fields of its segment *)

Lemma dict_mem_set (d : dict) (k : text) (v : py_value) (k' : text) :
  dict_mem k' (dict_set d k v) = true <-> k' = k \/ dict_mem k' d = true.
Proof.
  unfold dict_mem. destruct (text_eqb_spec k k') as [->|Hne].
  - rewrite dict_get_set_same. split; auto.
  - rewrite dict_get_set_other by assumption. split; [auto|].
    intros [->|H]; [contradiction|exact H].
Qed.

Lemma for_each_keys (ms : list (text * text * text)) :
  Forall good_match ms ->
  forall doc0 doc, date_is_str doc0 ->
    for_each process_match ms doc0 = Ok doc ->
    (forall k, dict_mem k doc0 = true -> dict_mem k doc = true)
    /\ (forall m, In m ms -> has_value m = true ->
                  dict_mem (field_name_of m) doc = true).
Proof.
  induction 1 as [|m ms Hm Hms IH]; intros doc0 doc Hdoc0 E.
  - injection E as <-. split; [auto|intros m []].
  - cbn [for_each] in E.
    destruct (process_match doc0 m) as [doc1|e] eqn:E1; cbn [rbind] in E;
      [|discriminate].
    destruct (process_match_step doc0 doc1 m Hm Hdoc0 E1) as (_ & Hdoc1 & Hstep).
    destruct (IH doc1 doc Hdoc1 E) as [Hkeep Hnew].
    assert (Hmono : forall k, dict_mem k doc0 = true -> dict_mem k doc1 = true).
    { intros k Hk.
      destruct Hstep as [[_ ->]|(_ & doc2 & -> & [->|(d & ->)])]; [exact Hk| |];
        repeat (apply dict_mem_set; right); exact Hk. }
    split; [intros k Hk; apply Hkeep, Hmono, Hk|].
    intros m' [<-|Hin] Hv; [|now apply Hnew].
    apply Hkeep.
    destruct Hstep as [[Hv' _]|(_ & doc2 & -> & _)]; [congruence|].
    apply dict_mem_set. now left.
Qed.

Lemma document_holds (utcnow : nat -> datetime) (record : text) (j : nat) :
  lengths_ok record = true -> nonempty_record record = true ->
  holds_fields_of record
    (dict_set (document_of record) "imported_at" (VDatetime (utcnow j))).
Proof.
  intros Hl Hne.
  destruct (parse_record_ok record Hl) as (doc & E & _).
  unfold document_of. rewrite E. unfold parse_record in E.
  change (re_finditer field_pattern (strip record)) with (fields_of record) in E.
  pose proof (finditer_good (strip record)) as Hg.
  change (re_finditer field_pattern (strip record)) with (fields_of record) in Hg.
  destruct (for_each_keys _ Hg [] doc I E) as [_ Hnew].
  split; [|split].
  - unfold nonempty_record in Hne. apply existsb_exists in Hne.
    destruct Hne as (m & Hin & Hv). now exists m.
  - intros m Hin Hv. apply dict_mem_set. right. now apply Hnew.
  - intros k Hk. apply dict_mem_set in Hk. destruct Hk as [->|Hk]; [now left|].
    unfold dict_mem in Hk. destruct (dict_get doc k) as [v|] eqn:Ek; [|discriminate].
    destruct (for_each_origin _ Hg [] doc I E k v Ek)
      as [H0|[(m & Hin & Hv & Hn & _)|(-> & _)]];
      [discriminate H0| |auto].
    right. right. now exists m.
Qed.

Lemma stamped_Forall2 (Q : text -> dict -> Prop) (utcnow : nat -> datetime)
    (l : list text) :
  (forall record j, In record l ->
     Q record (dict_set (document_of record) "imported_at" (VDatetime (utcnow j)))) ->
  forall k, Forall2 Q l (stamped utcnow k (map document_of l)).
Proof.
  induction l as [|record l IH]; intros HQ k; cbn [map stamped]; constructor.
  - apply HQ. now left.
  - apply IH. intros r j Hin. apply HQ. now right.
Qed.

(** C4.  A file is an optional header closed by the first end-of-header
    marker and segments separated by end-of-record markers.  When the
    declared lengths are numbers that [int] reads, the parser yields one
    record for each segment that has a field with a value, in the order
    of the file, and nothing for the others; so [N] such segments give
    [N] records.  Every record yielded is a mapping that is not empty and
    has the key [imported_at], and it holds the fields of its segment:
    the segment has at least one field with a value, the name of every
    such field is a key of the record, and the record has no key from
    elsewhere, but for the two that the parser fills itself.  A segment
    that is blank once trimmed yields no record. *)
Theorem C4_record_count (utcnow : nat -> datetime) (records : list text)
    (content : text) :
  file_of records content ->
  forallb lengths_ok records = true ->
  exists docs,
    parse_adif utcnow content = Ok docs
    /\ length docs = length (filter nonempty_record records)
    /\ (forallb nonempty_record records = true -> length docs = length records)
    /\ Forall (fun doc => doc <> [] /\ dict_mem "imported_at" doc = true) docs
    /\ (forall record, In record records -> blank record = true ->
                       nonempty_record record = false)
    /\ Forall2 holds_fields_of (filter nonempty_record records) docs.
Proof.
  intros Hfile Hl.
  destruct (strip_header_file records content Hfile) as (body & Eb & Hbody).
  unfold parse_adif. rewrite Eb, (split_body records body Hbody).
  destruct (parse_records_count utcnow records Hl 0) as (docs & E & Hlen & Hall).
  exists docs. split; [exact E|]. split; [exact Hlen|]. split; [|split; [|split]].
  - intros Hne. rewrite Hlen. f_equal. clear -Hne.
    induction records as [|r rs IH]; [reflexivity|].
    cbn in *. apply andb_prop in Hne. destruct Hne as [-> Hne].
    now rewrite IH.
  - eapply Forall_impl; [|exact Hall]. intros doc [Hnil Hmem].
    split; [now apply is_nil_false|exact Hmem].
  - intros record _. apply blank_no_record.
  - rewrite (parse_records_closed utcnow records 0 docs E).
    apply stamped_Forall2. intros record j Hin.
    apply filter_In in Hin. destruct Hin as [Hin Hne].
    apply document_holds; [|exact Hne].
    rewrite forallb_forall in Hl. now apply Hl.
Qed.

Lemma C4_record_count_witness :
  file_of ["<call:4>W1AW <band:3>20m " : text; "  " : text; "<call:4>K1AB" : text]
          ("ADIF export " ++ "<eoh>" ++
           "<call:4>W1AW <band:3>20m " ++ "<EOR>" ++ "  " ++ "<eor>" ++ "<call:4>K1AB")
  /\ forallb lengths_ok ["<call:4>W1AW <band:3>20m " : text; "  " : text; "<call:4>K1AB" : text] = true
  /\ exists docs,
       parse_adif sample_clock
         ("ADIF export " ++ "<eoh>" ++
          "<call:4>W1AW <band:3>20m " ++ "<EOR>" ++ "  " ++ "<eor>" ++ "<call:4>K1AB")
       = Ok docs
       /\ length docs = 2
       /\ Forall2 holds_fields_of
            ["<call:4>W1AW <band:3>20m " : text; "<call:4>K1AB" : text] docs.
Proof.
  assert (Hfile :
            file_of ["<call:4>W1AW <band:3>20m " : text; "  " : text; "<call:4>K1AB" : text]
              ("ADIF export " ++ "<eoh>" ++
               "<call:4>W1AW <band:3>20m " ++ "<EOR>" ++ "  " ++ "<eor>"
               ++ "<call:4>K1AB")).
  { apply (file_with_header "ADIF export " "<eoh>").
    - vm_compute. repeat split.
    - reflexivity.
    - apply (body_more "<call:4>W1AW <band:3>20m " "<EOR>");
        [vm_compute; repeat split|reflexivity|].
      apply (body_more "  " "<eor>"); [vm_compute; repeat split|reflexivity|].
      apply body_last. vm_compute. repeat split. }
  split; [exact Hfile|]. split; [vm_compute; reflexivity|].
  destruct (C4_record_count sample_clock _ _ Hfile ltac:(vm_compute; reflexivity))
    as (docs & E & Hlen & _ & _ & _ & Hholds).
  exists docs. split; [exact E|]. split; [rewrite Hlen; vm_compute; reflexivity|].
  exact Hholds.
Defined.

(* ------------------------------------------------------------------ *)
(** ** The datetime that the date and the time of a record derive *)

(** A field that is neither the date, nor the time, nor named as the
    derived entry leaves the derived entry as it is. *)
Lemma for_each_datetime_frame (ms : list (text * text * text)) :
  Forall good_match ms ->
  (forall m, In m ms -> has_value m = true -> beside_datetime m) ->
  forall doc0 doc, date_is_str doc0 ->
    for_each process_match ms doc0 = Ok doc ->
    dict_get doc "qso_datetime" = dict_get doc0 "qso_datetime".
Proof.
  induction 1 as [|m ms Hm Hms IH]; intros Hbeside doc0 doc Hdoc0 E.
  - now injection E as <-.
  - cbn [for_each] in E.
    destruct (process_match doc0 m) as [doc1|e] eqn:E1; cbn [rbind] in E;
      [|discriminate].
    destruct (process_match_step doc0 doc1 m Hm Hdoc0 E1) as (_ & Hdoc1 & _).
    rewrite (IH (fun m' Hin => Hbeside m' (or_intror Hin)) doc1 doc Hdoc1 E).
    rewrite process_match_eq in E1 by assumption.
    destruct (length_ok m); [|discriminate].
    destruct (has_value m) eqn:Hv; [|now injection E1 as <-].
    destruct (Hbeside m (or_introl eq_refl) Hv) as (Hd & Ht & Hq).
    destruct (store_field_spec doc0 (field_name_of m) (field_value m) Hdoc0)
      as (doc2 & E2 & Hdoc2).
    rewrite E2 in E1. injection E1 as <-.
    rewrite dict_get_set_other by assumption.
    destruct Hdoc2 as [->|[(d & Hn & _)|(d & ds & Hn & _)]];
      [reflexivity|contradiction|contradiction].
Qed.

Lemma process_match_valued (doc doc' : dict) (m : text * text * text)
    (name value : text) :
  good_match m -> field_name_of m = name -> field_value m = value ->
  value <> [] ->
  process_match doc m = Ok doc' -> store_field doc name value = Ok doc'.
Proof.
  intros Hm Hn Hv Hne. rewrite process_match_eq by assumption.
  destruct (length_ok m); [|discriminate].
  unfold has_value. rewrite Hn, Hv.
  destruct value; [contradiction|]. now cbn [is_nil negb].
Qed.

(** The date field, when neither a date, nor a time, nor a field named
    as the derived entry follows it. *)
Lemma date_field_last (pre ms3 : list (text * text * text))
    (mdate : text * text * text) (doc0 doc : dict) :
  Forall good_match (pre ++ mdate :: ms3) ->
  date_is_str doc0 ->
  field_name_of mdate = "qso_date" -> field_value mdate = "20240115" ->
  (forall m, In m ms3 -> has_value m = true -> beside_datetime m) ->
  for_each process_match (pre ++ mdate :: ms3) doc0 = Ok doc ->
  dict_get doc "qso_datetime"
  = Some (VDatetime (mk_datetime 2024 1 15 0 0 0 0)).
Proof.
  intros Hg Hdoc0 Hn Hv Hms3 E.
  apply Forall_app in Hg. destruct Hg as [Hg1 Hg]. inversion Hg as [|x l Hgd Hg3]; subst.
  rewrite for_each_app in E.
  destruct (for_each process_match pre doc0) as [d1|e] eqn:E1; cbn [rbind] in E;
    [|discriminate].
  pose proof (for_each_date_is_str pre Hg1 doc0 d1 Hdoc0 E1) as Hd1.
  cbn [for_each] in E.
  destruct (process_match d1 mdate) as [d2|e] eqn:E2; cbn [rbind] in E;
    [|discriminate].
  pose proof (process_match_step d1 d2 mdate Hgd Hd1 E2) as (_ & Hd2 & _).
  apply (process_match_valued d1 d2 mdate "qso_date" "20240115" Hgd Hn Hv) in E2;
    [|discriminate].
  change (store_field d1 "qso_date" "20240115")
    with (Ok (dict_set (dict_set d1 "qso_datetime"
                          (VDatetime (mk_datetime 2024 1 15 0 0 0 0)))
                       "qso_date" (VStr "20240115"))) in E2.
  injection E2 as <-.
  rewrite (for_each_datetime_frame ms3 Hg3 Hms3 _ doc Hd2 E).
  rewrite dict_get_set_other by discriminate. apply dict_get_set_same.
Qed.

(** The date field and then the time field, with no other date between
    them, and neither a date, nor a time, nor a field named as the
    derived entry after the time. *)
Lemma time_field_last (pre ms2 ms3 : list (text * text * text))
    (mdate mtime : text * text * text) (doc0 doc : dict) :
  Forall good_match (pre ++ mdate :: ms2 ++ mtime :: ms3) ->
  date_is_str doc0 ->
  field_name_of mdate = "qso_date" -> field_value mdate = "20240115" ->
  field_name_of mtime = "time_on" -> field_value mtime = "1430" ->
  (forall m, In m ms2 -> has_value m = true -> field_name_of m <> "qso_date") ->
  (forall m, In m ms3 -> has_value m = true -> beside_datetime m) ->
  for_each process_match (pre ++ mdate :: ms2 ++ mtime :: ms3) doc0 = Ok doc ->
  dict_get doc "qso_datetime"
  = Some (VDatetime (mk_datetime 2024 1 15 14 30 0 0)).
Proof.
  intros Hg Hdoc0 Hn Hv Hnt Hvt Hms2 Hms3 E.
  apply Forall_app in Hg. destruct Hg as [Hg1 Hg]. inversion Hg as [|x l Hgd Hg']; subst.
  apply Forall_app in Hg'. destruct Hg' as [Hg2 Hg']. inversion Hg' as [|x l Hgt Hg3]; subst.
  rewrite for_each_app in E.
  destruct (for_each process_match pre doc0) as [d1|e] eqn:E1; cbn [rbind] in E;
    [|discriminate].
  pose proof (for_each_date_is_str pre Hg1 doc0 d1 Hdoc0 E1) as Hd1.
  cbn [for_each] in E.
  destruct (process_match d1 mdate) as [d2|e] eqn:E2; cbn [rbind] in E;
    [|discriminate].
  pose proof (process_match_step d1 d2 mdate Hgd Hd1 E2) as (_ & Hd2 & _).
  apply (process_match_valued d1 d2 mdate "qso_date" "20240115" Hgd Hn Hv) in E2;
    [|discriminate].
  change (store_field d1 "qso_date" "20240115")
    with (Ok (dict_set (dict_set d1 "qso_datetime"
                          (VDatetime (mk_datetime 2024 1 15 0 0 0 0)))
                       "qso_date" (VStr "20240115"))) in E2.
  assert (Hdate2 : dict_get d2 "qso_date" = Some (VStr "20240115")).
  { injection E2 as <-. apply dict_get_set_same. }
  clear E2.
  rewrite for_each_app in E.
  destruct (for_each process_match ms2 d2) as [d3|e] eqn:E3; cbn [rbind] in E;
    [|discriminate].
  pose proof (for_each_date_is_str ms2 Hg2 d2 d3 Hd2 E3) as Hd3.
  assert (Hdate3 : dict_get d3 "qso_date" = Some (VStr "20240115")).
  { rewrite <- Hdate2.
    apply (for_each_frame ms2 "qso_date" Hg2 ltac:(discriminate) Hms2 d2 d3 Hd2 E3). }
  cbn [for_each] in E.
  destruct (process_match d3 mtime) as [d4|e] eqn:E4; cbn [rbind] in E;
    [|discriminate].
  pose proof (process_match_step d3 d4 mtime Hgt Hd3 E4) as (_ & Hd4 & _).
  apply (process_match_valued d3 d4 mtime "time_on" "1430" Hgt Hnt Hvt) in E4;
    [|discriminate].
  assert (E4' : store_field d3 "time_on" "1430"
                = Ok (dict_set (dict_set d3 "qso_datetime"
                                  (VDatetime (mk_datetime 2024 1 15 14 30 0 0)))
                               "time_on" (VStr "1430"))).
  { unfold store_field. rewrite numeric_value_ok.
    rewrite (stored_value_str "time_on") by reflexivity. cbn [rbind].
    rewrite date_step_other by discriminate. cbn [rbind].
    unfold time_step, dict_mem, dict_get_default. rewrite Hdate3. reflexivity. }
  rewrite E4' in E4. injection E4 as <-.
  rewrite (for_each_datetime_frame ms3 Hg3 Hms3 _ doc Hd4 E).
  rewrite dict_get_set_other by discriminate. apply dict_get_set_same.
Qed.

(** C1 (as amended).  Take a record of a file whose segment holds the
    field [qso_date=20240115] and the field [time_on=1430], and after the
    later of the two no field with a value named [qso_date], [time_on] or
    [qso_datetime].  When the date comes first, with no other date with a
    value between the two, the record is emitted with [qso_datetime] =
    2024-01-15T14:30:00.  When the time comes first the time is not
    combined, and the record is emitted with the date alone,
    [qso_datetime] = 2024-01-15T00:00:00.  What else the segment holds,
    before, between or after the two fields, plays no part. *)
Theorem C1_derived_datetime (utcnow : nat -> datetime) (content : text)
    (docs : list dict) (i : nat) (record : text)
    (ms1 ms2 ms3 : list (text * text * text)) (mdate mtime : text * text * text) :
  parse_adif utcnow content = Ok docs ->
  nth_error (filter nonempty_record (segments content)) i = Some record ->
  field_name_of mdate = "qso_date" -> field_value mdate = "20240115" ->
  field_name_of mtime = "time_on" -> field_value mtime = "1430" ->
  (forall m, In m ms3 -> has_value m = true -> beside_datetime m) ->
  exists doc,
    nth_error docs i = Some doc
    /\ (fields_of record = ms1 ++ mdate :: ms2 ++ mtime :: ms3 ->
        (forall m, In m ms2 -> has_value m = true ->
                   field_name_of m <> "qso_date") ->
        dict_get doc "qso_datetime"
        = Some (VDatetime (mk_datetime 2024 1 15 14 30 0 0)))
    /\ (fields_of record = ms1 ++ mtime :: ms2 ++ mdate :: ms3 ->
        dict_get doc "qso_datetime"
        = Some (VDatetime (mk_datetime 2024 1 15 0 0 0 0))).
Proof.
  intros E Hi Hn Hv Hnt Hvt Hms3.
  unfold parse_adif in E. fold (segments content) in E.
  pose proof (parse_records_ok_lengths utcnow _ 0 docs E) as Hl.
  apply parse_records_closed in E.
  assert (Hin : In record (segments content)).
  { apply nth_error_In in Hi. now apply filter_In in Hi. }
  rewrite forallb_forall in Hl.
  destruct (parse_record_ok record (Hl record Hin)) as (doc0 & E0 & _).
  exists (dict_set doc0 "imported_at" (VDatetime (utcnow i))). split.
  { rewrite E.
    rewrite (stamped_nth utcnow _ 0 i (document_of record));
      [|now rewrite nth_error_map, Hi].
    unfold document_of. now rewrite E0. }
  unfold parse_record in E0.
  change (re_finditer field_pattern (strip record)) with (fields_of record) in E0.
  pose proof (finditer_good (strip record)) as Hg.
  change (re_finditer field_pattern (strip record)) with (fields_of record) in Hg.
  split.
  - intros Hf Hms2. rewrite Hf in E0, Hg.
    rewrite dict_get_set_other by discriminate.
    exact (time_field_last ms1 ms2 ms3 mdate mtime [] doc0 Hg I Hn Hv Hnt Hvt
             Hms2 Hms3 E0).
  - intros Hf. rewrite Hf in E0, Hg.
    rewrite dict_get_set_other by discriminate.
    change (ms1 ++ mtime :: ms2 ++ mdate :: ms3)
      with (ms1 ++ (mtime :: ms2) ++ mdate :: ms3) in E0, Hg.
    rewrite app_assoc in E0, Hg.
    exact (date_field_last (ms1 ++ mtime :: ms2) ms3 mdate [] doc0 Hg I Hn Hv
             Hms3 E0).
Qed.

Lemma C1_derived_datetime_witness :
  parse_adif sample_clock
    "<call:4>K1AB<eor><call:4>W1AW<QSO_DATE:8>20240115<band:3>20m<time_on:6>1430  <mode:3>SSB"
  = Ok [[("call" : text, VStr "K1AB");
         ("imported_at" : text, VDatetime (sample_clock 0))];
        [("call" : text, VStr "W1AW");
         ("qso_datetime" : text, VDatetime (mk_datetime 2024 1 15 14 30 0 0));
         ("qso_date" : text, VStr "20240115"); ("band" : text, VStr "20m");
         ("time_on" : text, VStr "1430"); ("mode" : text, VStr "SSB");
         ("imported_at" : text, VDatetime (sample_clock 1))]]
  /\ exists doc,
       nth_error
         [[("call" : text, VStr "K1AB");
           ("imported_at" : text, VDatetime (sample_clock 0))];
          [("call" : text, VStr "W1AW");
           ("qso_datetime" : text, VDatetime (mk_datetime 2024 1 15 14 30 0 0));
           ("qso_date" : text, VStr "20240115"); ("band" : text, VStr "20m");
           ("time_on" : text, VStr "1430"); ("mode" : text, VStr "SSB");
           ("imported_at" : text, VDatetime (sample_clock 1))]] 1 = Some doc
       /\ dict_get doc "qso_datetime"
          = Some (VDatetime (mk_datetime 2024 1 15 14 30 0 0)).
Proof.
  assert (E : parse_adif sample_clock
                "<call:4>K1AB<eor><call:4>W1AW<QSO_DATE:8>20240115<band:3>20m<time_on:6>1430  <mode:3>SSB"
              = Ok [[("call" : text, VStr "K1AB");
                     ("imported_at" : text, VDatetime (sample_clock 0))];
                    [("call" : text, VStr "W1AW");
                     ("qso_datetime" : text,
                      VDatetime (mk_datetime 2024 1 15 14 30 0 0));
                     ("qso_date" : text, VStr "20240115");
                     ("band" : text, VStr "20m");
                     ("time_on" : text, VStr "1430"); ("mode" : text, VStr "SSB");
                     ("imported_at" : text, VDatetime (sample_clock 1))]])
    by (vm_compute; reflexivity).
  split; [exact E|].
  destruct (C1_derived_datetime sample_clock _ _ 1
              "<call:4>W1AW<QSO_DATE:8>20240115<band:3>20m<time_on:6>1430  <mode:3>SSB"
              [("call" : text, "4" : text, "W1AW" : text)]
              [("band" : text, "3" : text, "20m" : text)]
              [("mode" : text, "3" : text, "SSB" : text)]
              ("QSO_DATE" : text, "8" : text, "20240115" : text)
              ("time_on" : text, "6" : text, "1430  " : text)
              E ltac:(vm_compute; reflexivity)
              ltac:(vm_compute; reflexivity) ltac:(vm_compute; reflexivity)
              ltac:(vm_compute; reflexivity) ltac:(vm_compute; reflexivity)
              ltac:(intros m [<-|[]] _; repeat split; discriminate))
    as (doc & Hdoc & Hdt & _).
  exists doc. split; [exact Hdoc|].
  apply Hdt; [vm_compute; reflexivity|].
  intros m [<-|[]] _. discriminate.
Defined.

(** C1, the claim as written fails: with [time_on] before [qso_date] the
    emitted record does have a [qso_datetime] entry. *)
Lemma C1_counterexample :
  exists doc,
    parse_adif sample_clock "<time_on:4>1430<qso_date:8>20240115" = Ok [doc]
    /\ dict_get doc "qso_datetime" <> None.
Proof.
  eexists. split; [vm_compute; reflexivity|]. vm_compute. discriminate.
Qed.
